(** * The documentation builder of gcloud-node

    A shallow embedding of [scripts/docs/builder.js]: the [Builder] and
    [Bundler] classes, the manifest helpers [findWhere] and [sortByModId],
    the exported [build] and [buildAll], the properties the specification
    states about them and further properties read off the code.

    The script is sequential and effectful: it mutates the in-memory
    manifest, writes JSON files, moves the work tree between tags and keeps
    loaded JSON modules in Node's [require] cache.  These effects are
    threaded through an explicit [World]; a thrown JavaScript exception is an
    outcome of its own, and the world at the time of the throw is kept. *)

From Stdlib Require Import String Ascii List ZArith Lia Bool.
From stdpp Require Import base gmap strings list fin_maps sorting.

Local Open Scope string_scope.
Local Open Scope list_scope.

(** ** Configuration *)

(** Modelled from the spec: [scripts/docs/config.js] is not part of the
    sources at hand.  The specification names the umbrella package
    ([docs/json/google-cloud/<version>/...]), the default version
    (["master"]) and the two generated index files ([types.json] and
    [toc.json]). *)
Module config.
Definition UMBRELLA_PACKAGE : string := "google-cloud".
Definition DEFAULT_VERSION : string := "master".
Definition TYPES_DICT : string := "types.json".
Definition TOC : string := "toc.json".
End config.

Definition UMBRELLA_PACKAGE : string := config.UMBRELLA_PACKAGE.

(** ** Paths

    A path is the list of its components and [path.join] is concatenation:
    package names, versions and file names are single components. *)

Abbreviation path := (list string).

Definition DOCS_ROOT : path := ["docs"; "json"].
Definition manifestPath : path := ["docs"; "manifest.json"].

Definition basename (p : path) : string := List.last p "".

(** ** JavaScript values *)

#[warnings="-register-all"]
Inductive json : Type :=
| JNull
| JBool (b : bool)
| JNum (n : Z)
| JStr (s : string)
| JArr (l : list json)
| JObj (o : list (string * json)).

Abbreviation obj := (list (string * json)).

(** [o[k]]: [None] stands for [undefined]. *)
Fixpoint get_field (k : string) (o : obj) : option json :=
  match o with
  | [] => None
  | (k', v) :: o' => if String.eqb k k' then Some v else get_field k o'
  end.

(** [o[k] = v]: an existing key keeps its place, a new one goes last. *)
Fixpoint set_field (k : string) (v : json) (o : obj) : obj :=
  match o with
  | [] => [(k, v)]
  | (k', v') :: o' =>
      if String.eqb k k' then (k, v) :: o' else (k', v') :: set_field k v o'
  end.

Definition truthy (j : json) : bool :=
  match j with
  | JNull => false
  | JBool b => b
  | JNum n => negb (Z.eqb n 0)
  | JStr s => negb (String.eqb s "")
  | JArr _ | JObj _ => true
  end.

(** [a || b] on possibly undefined values. *)
Definition js_or (a b : option json) : option json :=
  match a with
  | Some j => if truthy j then a else b
  | None => b
  end.

(** ** Builder *)

Record Builder : Type := mkBuilder {
  name : string;
  version : string;
  dir : path;
  isUmbrella : bool;
  isMaster : bool
}.

(** [version || config.DEFAULT_VERSION]: an omitted version and the empty
    string are both falsy. *)
Definition version_or_default (v : option string) : string :=
  match v with
  | Some s => if String.eqb s "" then config.DEFAULT_VERSION else s
  | None => config.DEFAULT_VERSION
  end.

(** [new Builder(name, version, cwd)] *)
Definition new_Builder (n : string) (v : option string) (cwd : option path)
  : Builder :=
  let ver := version_or_default v in
  {| name := n;
     version := ver;
     dir := default [] cwd ++ DOCS_ROOT ++ [n; ver];
     isUmbrella := String.eqb n UMBRELLA_PACKAGE;
     isMaster := String.eqb ver config.DEFAULT_VERSION |}.

(** [Builder.prototype.getTagName] *)
Definition getTagName (this : Builder) : string :=
  if isMaster this then version this
  else if isUmbrella this then "v" +:+ version this
  else name this +:+ "-" +:+ version this.

(** ** Bundler *)

Record Bundler : Type := mkBundler { builder : Builder }.

(** [new Bundler(builder)]: the argument is a [Builder] or the version of the
    umbrella docs. *)
Definition new_Bundler (arg : string + Builder) : Bundler :=
  match arg with
  | inl v => {| builder := new_Builder UMBRELLA_PACKAGE (Some v) None |}
  | inr b => {| builder := b |}
  end.

(** ** The manifest *)

Record ModuleEntry : Type := mkModuleEntry {
  mod_id : string;
  mod_name : string;
  defaultService : string;
  versions : list string
}.

(** [findWhere(collection, props)]: the first element that has the
    properties, [None] for [null].  [props] is the test [obj[key] === props[key]]
    for every key of the properties object. *)
Fixpoint findWhere {A : Type} (props : A -> bool) (collection : list A)
  : option A :=
  match collection with
  | [] => None
  | o :: rest => if props o then Some o else findWhere props rest
  end.

Definition has_id (n : string) (m : ModuleEntry) : bool := String.eqb (mod_id m) n.

(** [sortByModId(a, b)].  [a.id > b.id] compares strings code unit by code
    unit; ids are byte strings here. *)
Definition sortByModId (a b : ModuleEntry) : Z :=
  if String.eqb (mod_id a) UMBRELLA_PACKAGE then (-1)%Z
  else if String.eqb (mod_id b) UMBRELLA_PACKAGE then 1%Z
  else
    let gt := Z.b2z (String.ltb (mod_id b) (mod_id a)) in
    if negb (Z.eqb gt 0) then gt
    else (Z.b2z (String.eqb (mod_id a) (mod_id b)) - 1)%Z.

(** [Array.prototype.sort(comparefn)].  The engine's algorithm is not fixed
    by the language; a stable insertion sort stands for it.  For module
    lists with distinct ids the order [sortByModId] asks for leaves one
    possible result, so the choice of algorithm does not show. *)
Fixpoint sorted_insert {A : Type} (comparefn : A -> A -> Z) (x : A) (l : list A)
  : list A :=
  match l with
  | [] => [x]
  | y :: l' =>
      if (comparefn x y <=? 0)%Z then x :: y :: l'
      else y :: sorted_insert comparefn x l'
  end.

Fixpoint array_sort {A : Type} (comparefn : A -> A -> Z) (l : list A) : list A :=
  match l with
  | [] => []
  | x :: l' => sorted_insert comparefn x (array_sort comparefn l')
  end.

(** The object [findWhere] returned is mutated in place: in the list, the
    first entry with that id changes. *)
Fixpoint alter_first {A : Type} (p : A -> bool) (f : A -> A) (l : list A) : list A :=
  match l with
  | [] => []
  | x :: l' => if p x then f x :: l' else x :: alter_first p f l'
  end.

(** [versions.indexOf(v) === -1] *)
Definition not_recorded (v : string) (vs : list string) : bool :=
  negb (existsb (String.eqb v) vs).

(** [if (config.versions.indexOf(v) === -1) config.versions.unshift(v)] *)
Definition record_version (v : string) (c : ModuleEntry) : ModuleEntry :=
  if not_recorded v (versions c)
  then {| mod_id := mod_id c; mod_name := mod_name c;
          defaultService := defaultService c; versions := v :: versions c |}
  else c.

Definition entry_json (c : ModuleEntry) : json :=
  JObj [("id", JStr (mod_id c)); ("name", JStr (mod_name c));
        ("defaultService", JStr (defaultService c));
        ("versions", JArr (map JStr (versions c)))].

Definition manifest_json (modules : list ModuleEntry) : json :=
  JObj [("modules", JArr (map entry_json modules))].

(** ** The world the script runs in *)

Inductive file : Type :=
| FJson (j : json)     (* a file holding [JSON.stringify(j)] *)
| FText (s : string).  (* any other file *)

Inductive GitCmd : Type :=
| Checkout (ref : string)
| Submodule (branch alias : string)
| SubmoduleCheckout (ref : string)
| Deinit.

Record World : Type := mkWorld {
  manifest : list ModuleEntry;       (* [manifest.modules], in memory *)
  files : gmap path file;            (* the files below the work tree *)
  require_cache : gmap path json;    (* modules [require] has loaded *)
  HEAD : string;                     (* what the work tree is checked out at *)
  PREV : string;                     (* what [git checkout -] returns to *)
  git_log : list GitCmd              (* the git commands issued, in order *)
}.

Inductive JsError : Type :=
| Error (message : string)
| TypeError (message : string).

Inductive Outcome (A : Type) : Type :=
| Return (a : A)
| Throw (e : JsError)
| OutOfFuel.
Arguments Return {A} a.
Arguments Throw {A} e.
Arguments OutOfFuel {A}.

(** A computation: an outcome and the world it leaves behind. *)
Definition M (A : Type) : Type := World -> Outcome A * World.

Definition ret {A : Type} (a : A) : M A := fun w => (Return a, w).
Definition throw {A : Type} (e : JsError) : M A := fun w => (Throw e, w).
Definition bind {A B : Type} (c : M A) (k : A -> M B) : M B :=
  fun w =>
    match c w with
    | (Return a, w') => k a w'
    | (Throw e, w') => (Throw e, w')
    | (OutOfFuel, w') => (OutOfFuel, w')
    end.

Declare Scope js_scope.
Delimit Scope js_scope with js.
Notation "x <- c ;; k" := (bind c (fun x => k))
  (at level 100, c at next level, right associativity) : js_scope.
Notation "c ;; k" := (bind c (fun _ => k))
  (at level 100, right associativity) : js_scope.
Local Open Scope js_scope.

Definition outcome {A : Type} (c : M A) (w : World) : Outcome A := fst (c w).
Definition exec {A : Type} (c : M A) (w : World) : World := snd (c w).

Definition get_world : M World := fun w => (Return w, w).
Definition modify (f : World -> World) : M unit := fun w => (Return tt, f w).

(** [array.map(f)] with a callback that has effects and may throw. *)
Fixpoint mapM {A B : Type} (f : A -> M B) (l : list A) : M (list B) :=
  match l with
  | [] => ret []
  | x :: l' => y <- f x ;; ys <- mapM f l' ;; ret (y :: ys)
  end.

(** [array.forEach(f)] *)
Fixpoint forEach {A : Type} (f : A -> M unit) (l : list A) : M unit :=
  match l with
  | [] => ret tt
  | x :: l' => f x ;; forEach f l'
  end.

Definition set_manifest (ms : list ModuleEntry) (w : World) : World :=
  {| manifest := ms; files := files w; require_cache := require_cache w;
     HEAD := HEAD w; PREV := PREV w; git_log := git_log w |}.

Definition set_files (fs : gmap path file) (w : World) : World :=
  {| manifest := manifest w; files := fs; require_cache := require_cache w;
     HEAD := HEAD w; PREV := PREV w; git_log := git_log w |}.

Definition set_require_cache (c : gmap path json) (w : World) : World :=
  {| manifest := manifest w; files := files w; require_cache := c;
     HEAD := HEAD w; PREV := PREV w; git_log := git_log w |}.

(** [fs.writeFileSync(p, JSON.stringify(j))] *)
Definition writeFileSync (p : path) (j : json) : M unit :=
  modify (fun w => set_files (<[p := FJson j]> (files w)) w).

(** [require(p)] for a JSON file: loaded and parsed once, then served from
    the cache; the caller gets the cached object itself. *)
Definition require (p : path) : M json :=
  fun w =>
    match require_cache w !! p with
    | Some j => (Return j, w)
    | None =>
        match files w !! p with
        | Some (FJson j) => (Return j, set_require_cache (<[p := j]> (require_cache w)) w)
        | _ => (Throw (Error "Cannot find module"), w)
        end
    end.

(** An assignment to a property of an object obtained from [require p]
    changes the cached module. *)
Definition mutate_required (p : path) (j : json) : M unit :=
  modify (fun w => set_require_cache (<[p := j]> (require_cache w)) w).

(** [mkdir('-p', d)]: directories are implicit in the paths of the files. *)
Definition mkdir_p (d : path) : M unit := ret tt.

(** Modelled from the spec: [helpers.git] is not part of the sources at
    hand.  [checkout(tagOrDash)] moves the work tree to a tag, or back to
    where it was before for ["-"]. *)
Definition git_checkout (ref : string) : M unit :=
  modify (fun w =>
    {| manifest := manifest w; files := files w; require_cache := require_cache w;
       HEAD := if String.eqb ref "-" then PREV w else ref;
       PREV := HEAD w;
       git_log := git_log w ++ [Checkout ref] |}).

(** Modelled from the spec: [submodule(branch, name)], the [checkout(tag)] of
    the submodule it returns and [deinit(submodule)] act on a checkout of
    their own; of them the log keeps the command. *)
Definition git_command (c : GitCmd) : M unit :=
  modify (fun w =>
    {| manifest := manifest w; files := files w; require_cache := require_cache w;
       HEAD := HEAD w; PREV := PREV w; git_log := git_log w ++ [c] |}).

(** ** Strings and globs *)

Definition drop_chars (n : nat) (s : string) : string :=
  String.substring n (String.length s - n) s.

Definition ends_with (suffix s : string) : bool :=
  (String.length suffix <=? String.length s)%nat
  && String.eqb (drop_chars (String.length s - String.length suffix) s) suffix.

(** What follows the last occurrence of [pat] in [s]. *)
Fixpoint after_last (pat s : string) : option string :=
  match s with
  | EmptyString => None
  | String c s' =>
      match after_last pat s' with
      | Some r => Some r
      | None =>
          if String.prefix pat s then Some (drop_chars (String.length pat) s)
          else None
      end
  end.

(** [file.replace(/^.+src\//, '')]: the greedy [.+] takes the match up to the
    last ["src/"] that has at least one character before it. *)
Definition replace_to_src (f : string) : string :=
  match f with
  | EmptyString => f
  | String _ rest => default f (after_last "src/" rest)
  end.

(** [path.basename] of a path written as a string. *)
Definition basename_str (s : string) : string := default s (after_last "/" s).

(** [s.replace(pat, '')]: the first occurrence goes. *)
Fixpoint remove_first (pat s : string) : string :=
  match s with
  | EmptyString => s
  | String c s' =>
      if String.prefix pat s then drop_chars (String.length pat) s
      else String c (remove_first pat s')
  end.

(** The components of a path written with ["/"]. *)
Fixpoint split_path_from (acc s : string) : path :=
  match s with
  | EmptyString => if String.eqb acc "" then [] else [acc]
  | String c s' =>
      if Ascii.eqb c "/"
      then (if String.eqb acc "" then [] else [acc]) ++ split_path_from "" s'
      else split_path_from (acc +:+ String c EmptyString) s'
  end.

Definition split_path (s : string) : path := split_path_from "" s.

(** [path.join(a, b)] on a path kept as a string inside a JSON document. *)
Definition path_join_str (a b : string) : string :=
  if String.eqb a "" then b else if String.eqb b "" then a else a +:+ "/" +:+ b.

(** A name the glob [*.json] matches: the star does not match a leading dot. *)
Definition is_json_name (s : string) : bool :=
  ends_with ".json" s && negb (String.prefix "." s).

(** [globby.sync(path.resolve(d, '*.json'), {ignore: ...})] over the files of
    the world: the JSON files directly in [d] but for the ignored ones. *)
Definition glob_json (d : path) (ignore : list path) (fs : gmap path file)
  : list path :=
  List.filter
    (fun p => bool_decide (p = d ++ [basename p])
              && is_json_name (basename p)
              && negb (bool_decide (p ∈ ignore)))
    (map fst (map_to_list fs)).

(** ** Methods that need no collaborator *)

(** The entry [updateManifest] creates for a package the manifest does not
    know. *)
Definition new_config (this : Builder) : ModuleEntry :=
  {| mod_id := name this;
     mod_name := "@google-cloud/" +:+ name this;
     defaultService := name this;
     versions := ["master"] |}.

(** [Builder.prototype.updateManifest] *)
Definition updateManifest (this : Builder) : M unit :=
  w <- get_world ;;
  let modules :=
    match findWhere (has_id (name this)) (manifest w) with
    | Some _ => manifest w
    | None => array_sort sortByModId (manifest w ++ [new_config this])
    end in
  let modules :=
    alter_first (has_id (name this)) (record_version (version this)) modules in
  modify (set_manifest modules) ;;
  writeFileSync manifestPath (manifest_json modules).

(** [Builder.prototype.write] *)
Definition write (this : Builder) (f : path) (j : json) : M unit :=
  writeFileSync (dir this ++ f) j.

(** [Builder.prototype.getTypes] *)
Definition getTypes (this : Builder) : M json :=
  require (dir this ++ [config.TYPES_DICT]).

(** The dependencies [getDeps] reports and those [bundle] has resolved. *)
Record Dep : Type := mkDep { dep_name : string; dep_version : string }.
Record ResolvedDep : Type := mkResolvedDep {
  rdep_name : string;
  rdep_version : option string
}.

Definition has_name (n : string) (d : Dep) : bool := String.eqb (dep_name d) n.

(** The keys of [dependencies] that match [/^\@google\-cloud/], each without
    its ["@google-cloud/"], with the range declared for it. *)
Definition scoped_deps (dependencies : list (string * string)) : list Dep :=
  map (fun d => {| dep_name := remove_first "@google-cloud/" (fst d);
                   dep_version := snd d |})
      (List.filter (fun d => String.prefix "@google-cloud" (fst d)) dependencies).

(** [type.contents = path.join(depName, type.contents)] *)
Definition prefix_contents (depName : string) (type : json) : option json :=
  match type with
  | JObj o =>
      match get_field "contents" o with
      | Some (JStr c) => Some (JObj (set_field "contents" (JStr (path_join_str depName c)) o))
      | _ => None
      end
  | _ => None
  end.

(** The [map] over a dictionary that prefixes every entry: the entries
    changed so far, followed by the rest, and whether it ran to the end. *)
Fixpoint prefix_types (depName : string) (types : list json) : list json * bool :=
  match types with
  | [] => ([], true)
  | t :: rest =>
      match prefix_contents depName t with
      | Some t' => let (r, ok) := prefix_types depName rest in (t' :: r, ok)
      | None => (t :: rest, false)
      end
  end.


(** ** A small repository to run the script on *)

Module Fixture.

(** A parser that fails on a source holding ["!"] and otherwise returns a
    document whose id is the source text. *)
Definition parseFile (filePath contents : string) : string + obj :=
  if String.eqb contents "!" then inl "Unexpected token !"
  else inr [("id", JStr contents)].

Definition createTypesDictionary (docs : list obj) : list obj :=
  map (fun d => [("id", default JNull (get_field "id" d));
                 ("contents", default JNull (get_field "path" d))]) docs.

Definition createToc (types : list json) (bundled : bool) : obj :=
  [("bundled", JBool bundled); ("services", JArr types)].

Definition createOverview (service : option json) (bundled : bool) : json :=
  JObj [("service", default JNull service); ("bundled", JBool bundled)].

(** Versions [MAJOR.MINOR.PATCH] and the caret ranges over them. *)
Fixpoint number_from (acc : nat) (s : string) : option nat :=
  match s with
  | EmptyString => Some acc
  | String c s' =>
      match Ascii.is_nat c with
      | Some d => number_from (10 * acc + d) s'
      | None => None
      end
  end.

Definition number (s : string) : option nat :=
  if String.eqb s "" then None else number_from 0 s.

Fixpoint fields_from (acc s : string) : list string :=
  match s with
  | EmptyString => [acc]
  | String c s' =>
      if Ascii.eqb c "." then acc :: fields_from "" s'
      else fields_from (acc +:+ String c EmptyString) s'
  end.

Definition parse_version (s : string) : option (nat * nat * nat) :=
  match fields_from "" s with
  | [a; b; c] =>
      match number a, number b, number c with
      | Some x, Some y, Some z => Some (x, y, z)
      | _, _, _ => None
      end
  | _ => None
  end.

Definition valid (v : string) (index : nat) : bool :=
  match parse_version v with Some _ => true | None => false end.

Definition version_leb (v1 v2 : nat * nat * nat) : bool :=
  let '(a1, b1, c1) := v1 in
  let '(a2, b2, c2) := v2 in
  (a1 <? a2)%nat
  || ((a1 =? a2)%nat && ((b1 <? b2)%nat || ((b1 =? b2)%nat && (c1 <=? c2)%nat))).

(** [^a.b.c] admits the versions from [a.b.c] on that keep the leftmost
    number of it that is not zero. *)
Definition caret (low v : nat * nat * nat) : bool :=
  let '(a, b, c) := low in
  let '(x, y, z) := v in
  version_leb low v
  && (if (0 <? a)%nat then (x =? a)%nat
      else if (0 <? b)%nat then (x =? 0)%nat && (y =? b)%nat
      else (x =? 0)%nat && (y =? 0)%nat && (z =? c)%nat).

Definition satisfies (range v : string) : bool :=
  match range, parse_version v with
  | String "^" low, Some ver =>
      match parse_version low with
      | Some l => caret l ver
      | None => false
      end
  | _, _ => String.eqb range v
  end.

Fixpoint maxSatisfying (versions : list string) (range : string) : option string :=
  match versions with
  | [] => None
  | v :: rest =>
      let best := maxSatisfying rest range in
      if satisfies range v then
        match best with
        | Some v' =>
            match parse_version v, parse_version v' with
            | Some x, Some x' => if version_leb x x' then Some v' else Some v
            | _, _ => Some v'
            end
        | None => Some v
        end
      else best
  end.

(** The work tree: two packages with their sources; the source of
    [bigtable/src/table.js] is broken at the tag [bigtable-0.4.2]. *)
Definition sources (ref n : string) : list string :=
  if String.eqb n "bigtable" then ["bigtable/src/index.js"; "bigtable/src/table.js"]
  else if String.eqb n "google-cloud" then ["google-cloud/src/index.js"]
  else [].

Definition read (ref filePath : string) : string :=
  if String.eqb ref "bigtable-0.4.2" && String.eqb filePath "packages/bigtable/src/table.js"
  then "!" else filePath.

Definition markdown (ref : string) : list (string * string) := [("faq.md", "FAQ")].

(** The umbrella package depends on [^0.3.0] of bigtable at [v0.44.0] and on
    [^0.4.0] of it from [v0.45.0] on. *)
Definition package_json (ref : string) : option (list (string * string)) :=
  if String.eqb ref "v0.44.0"
  then Some [("@google-cloud/bigtable", "^0.3.0"); ("extend", "^3.0.0")]
  else Some [("@google-cloud/bigtable", "^0.4.0"); ("extend", "^3.0.0")].

Definition submodule_cwd : path := ["bundler"].

(** A fresh process on a repository that has no manifest entry and no
    generated file yet. *)
Definition empty_world : World :=
  {| manifest := []; files := ∅; require_cache := ∅;
     HEAD := "master"; PREV := "master"; git_log := [] |}.

Definition umbrella (v : string) : Builder :=
  new_Builder UMBRELLA_PACKAGE (Some v) None.

Definition bigtable_0_4_1 : Builder := new_Builder "bigtable" (Some "0.4.1") None.

(** The manifest after the umbrella package was recorded at 0.44.0 and then
    at 0.45.0, and bigtable at 0.4.1. *)
Definition recorded : World :=
  exec (forEach updateManifest [umbrella "0.44.0"; umbrella "0.45.0"; bigtable_0_4_1])
       empty_world.

(** The packages of the work tree. *)
Definition packages (ref : string) : list string := ["bigtable"; "google-cloud"].

(** The same work tree with a third package, [datastore], whose only source
    does not parse. *)
Definition packages_with_datastore (ref : string) : list string :=
  ["bigtable"; "datastore"; "google-cloud"].

Definition sources_with_datastore (ref n : string) : list string :=
  if String.eqb n "datastore" then ["datastore/src/index.js"] else sources ref n.

Definition read_with_datastore (ref filePath : string) : string :=
  if String.eqb filePath "packages/datastore/src/index.js" then "!"
  else read ref filePath.

(** A package the umbrella package does not depend on. *)
Definition vision_0_5_0 : Builder := new_Builder "vision" (Some "0.5.0") None.

(** The work tree with a third package, [appengine], that has no source
    yet. *)
Definition packages_with_appengine (ref : string) : list string :=
  ["appengine"; "bigtable"; "google-cloud"].

Definition appengine_1_0_0 : Builder := new_Builder "appengine" (Some "1.0.0") None.

(** The work tree in which bigtable had no [table.js] yet at the tag
    [bigtable-0.4.0]. *)
Definition sources_by_ref (ref n : string) : list string :=
  if String.eqb ref "bigtable-0.4.0" && String.eqb n "bigtable"
  then ["bigtable/src/index.js"]
  else sources ref n.

Definition bigtable_0_4_0 : Builder := new_Builder "bigtable" (Some "0.4.0") None.

End Fixture.
(** ** The script, against its collaborators *)

Section Script.

(** The parser ([scripts/docs/parser.js]), [semver] and the contents of the
    git repository are outside the script: it is verified against any
    behaviour of theirs. *)

(** [parser.parseFile(filePath, contents)]: the parsed document, or the
    message of the error it throws. *)
Variable parser_parseFile : string -> string -> string + obj.
Variable parser_createTypesDictionary : list obj -> list obj.
Variable parser_createToc : list json -> bool -> obj.
Variable parser_createOverview : option json -> bool -> json.

(** [semver.valid] as [Array.prototype.filter] calls it, with the element
    and its index; [semver.maxSatisfying(versions, range)], [None] for
    [null]. *)
Variable semver_valid : string -> nat -> bool.
Variable semver_maxSatisfying : list string -> string -> option string.

(** The work tree at a ref: the sources [<name>/src/*.js] of a package below
    [./packages] (ignored files left out) and what they hold, the markdown
    files of [./docs], and the [dependencies] of the umbrella package's
    [package.json] ([None] when they cannot be read). *)
Variable globby_sources : string -> string -> list string.
Variable read_source : string -> string -> string.
Variable markdown : string -> list (string * string).
Variable package_json : string -> option (list (string * string)).

(** Where [git.submodule] puts its checkout. *)
Variable submodule_cwd : path.

(** The packages below [./packages] of the work tree at a ref, as
    [globby.sync('*')] lists them (ignored ones left out). *)
Variable globby_packages : string -> list string.

(** [versions.filter(semver.valid)] *)
Fixpoint filter_valid_from (i : nat) (vs : list string) : list string :=
  match vs with
  | [] => []
  | v :: rest =>
      if semver_valid v i then v :: filter_valid_from (S i) rest
      else filter_valid_from (S i) rest
  end.

Definition valid_versions (vs : list string) : list string :=
  filter_valid_from 0 vs.

(** [Builder.prototype.parseFile] *)
Definition parseFile (f : string) : M obj :=
  let filePath := "packages/" +:+ f in
  w <- get_world ;;
  let contents := read_source (HEAD w) filePath in
  match parser_parseFile filePath contents with
  | inr j => ret j
  | inl message =>
      throw (Error ("Unable to generate docs for file: " +:+ f
                    +:+ ". Reason: " +:+ message))
  end.

(** [cp(MARKDOWN, d)] *)
Definition cp_markdown (d : path) : M unit :=
  w <- get_world ;;
  forEach (fun md => modify (fun w => set_files (<[d ++ [fst md] := FText (snd md)]> (files w)) w))
          (markdown (HEAD w)).

(** The callback of the [map] in [build]: parse one source, write its
    document. *)
Definition build_file (this : Builder) (f : string) : M obj :=
  j <- parseFile f ;;
  let outputFile := replace_to_src f +:+ "on" in
  let j := set_field "path" (JStr (basename_str outputFile)) j in
  write this (split_path outputFile) (JObj j) ;;
  ret j.

(** [Builder.prototype.build]; [bundle] is the method of [Bundler] it calls
    for the umbrella package. *)
Definition build_with (bundle : Bundler -> M unit) (this : Builder) : M unit :=
  mkdir_p (dir this) ;;
  cp_markdown (dir this) ;;
  w <- get_world ;;
  docs <- mapM (build_file this) (globby_sources (HEAD w) (name this)) ;;
  let types := parser_createTypesDictionary docs in
  let toc := parser_createToc (map JObj types) false in
  let toc := set_field "tagName" (JStr (getTagName this)) toc in
  write this [config.TYPES_DICT] (JArr (map JObj types)) ;;
  write this [config.TOC] (JObj toc) ;;
  if isUmbrella this then bundle (new_Bundler (inr this)) else ret tt.

(** [Bundler.prototype.getDeps] *)
Definition getDeps : M (list Dep) :=
  w <- get_world ;;
  match package_json (HEAD w) with
  | None => throw (Error "Cannot read the dependencies of package.json")
  | Some dependencies => ret (scoped_deps dependencies)
  end.

(** The callback of the [forEach] in [add]. *)
Definition add_file (this : Bundler) (b : Builder) (f : path) : M unit :=
  j <- require f ;;
  let outputFile := [name b; basename f] in
  match j with
  | JObj o =>
      let service := js_or (get_field "parent" o) (get_field "id" o) in
      let o := set_field "overview" (parser_createOverview service true) o in
      mutate_required f (JObj o) ;;
      write (builder this) outputFile (JObj o)
  | JArr l => write (builder this) outputFile (JArr l)
  | _ => throw (TypeError "Cannot set property 'overview'")
  end.

(** [Bundler.prototype.add] *)
Definition add (this : Bundler) (b : Builder) : M unit :=
  let outputFolder := dir (builder this) ++ [name b] in
  mkdir_p outputFolder ;;
  w <- get_world ;;
  forEach (add_file this b)
          (glob_json (dir b)
                     (map (fun f => dir b ++ [f]) [config.TYPES_DICT; config.TOC])
                     (files w)).

(** [Bundler.updateDep]: one round of the loop for each of the umbrella
    versions in [bundleVersions]. *)
Fixpoint updateDep_loop (b : Builder) (vs bundleVersions : list string) : M unit :=
  match bundleVersions with
  | [] => ret tt
  | v :: rest =>
      let bundler := new_Bundler (inl v) in
      git_checkout (getTagName (builder bundler)) ;;
      deps <- getDeps ;;
      let dep := findWhere (has_name (name b)) deps in
      git_checkout "-" ;;
      match dep with
      | None => throw (TypeError "Cannot read property 'version' of null")
      | Some dep =>
          if negb (bool_decide (semver_maxSatisfying vs (dep_version dep)
                                = Some (version b)))
          then ret tt
          else add bundler b ;; updateDep_loop b vs rest
      end
  end.

(** [Bundler.updateDep].  The loop runs for [i < bundleVersions.length - 1]. *)
Definition updateDep (b : Builder) : M unit :=
  if isMaster b
  then throw (Error "Must supply valid version to update bundles with.")
  else
    w <- get_world ;;
    match findWhere (has_id UMBRELLA_PACKAGE) (manifest w) with
    | None => throw (TypeError "Cannot read property 'versions' of null")
    | Some bundleConfig =>
        let bundleVersions := versions bundleConfig in
        match findWhere (has_id (name b)) (manifest w) with
        | None => throw (TypeError "Cannot read property 'versions' of null")
        | Some config =>
            let vs := valid_versions (versions config) in
            updateDep_loop b vs
              (take (length bundleVersions - 1) bundleVersions)
        end
    end.

(** The first callback of [bundle]: the version of a dependency the
    manifest resolves its range to. *)
Definition resolve_dep (dep : Dep) : M ResolvedDep :=
  w <- get_world ;;
  match findWhere (has_id (dep_name dep)) (manifest w) with
  | None => throw (TypeError "Cannot read property 'versions' of null")
  | Some config =>
      let vs := valid_versions (versions config) in
      ret {| rdep_name := dep_name dep;
             rdep_version := semver_maxSatisfying vs (dep_version dep) |}
  end.

(** The second callback of [bundle]: build a dependency in the submodule,
    add its documents and return its dictionary, every entry prefixed.  The
    entries are those of the module [getTypes] has loaded, which change with
    them. *)
Definition bundle_dep (build : Builder -> M unit) (this : Bundler)
    (dep : ResolvedDep) : M (list json) :=
  let b := new_Builder (rdep_name dep) (rdep_version dep) (Some submodule_cwd) in
  git_command (SubmoduleCheckout (getTagName b)) ;;
  build b ;;
  add this b ;;
  types <- getTypes b ;;
  match types with
  | JArr ts =>
      let (ts', ok) := prefix_types (rdep_name dep) ts in
      mutate_required (dir b ++ [config.TYPES_DICT]) (JArr ts') ;;
      if ok then ret ts'
      else throw (TypeError "Cannot prefix the contents of a type")
  | _ => throw (TypeError "types.map is not a function")
  end.

(** [Bundler.prototype.bundle]; [build] is the method of [Builder] it calls
    for every dependency. *)
Definition bundle_with (build : Builder -> M unit) (this : Bundler) : M unit :=
  base <- getTypes (builder this) ;;
  deps <- getDeps ;;
  deps <- mapM resolve_dep deps ;;
  git_command (Submodule "master" "bundler") ;;
  depTypes <- mapM (bundle_dep build this) deps ;;
  match base with
  | JArr baseTypes =>
      let types := baseTypes ++ concat depTypes in
      let toc := parser_createToc types true in
      let toc := set_field "tagName" (JStr (getTagName (builder this))) toc in
      write (builder this) [config.TYPES_DICT] (JArr types) ;;
      write (builder this) [config.TOC] (JObj toc) ;;
      git_command Deinit
  | _ => throw (TypeError "baseTypes.concat is not a function")
  end.

(** [build] and [bundle] call each other: the umbrella is built, then
    bundled, and bundling builds the dependencies.  [fuel] bounds the depth of
    that nesting. *)
Fixpoint bundle (fuel : nat) (this : Bundler) : M unit :=
  match fuel with
  | O => fun w => (OutOfFuel, w)
  | S fuel' => bundle_with (build_with (bundle fuel')) this
  end.

Definition build (fuel : nat) (this : Builder) : M unit :=
  build_with (bundle fuel) this.

(** The exported [build(name, version)]. *)
Definition build_package (fuel : nat) (n : string) (v : option string) : M unit :=
  let b := new_Builder n v None in
  git_checkout (getTagName b) ;;
  build fuel b ;;
  git_checkout "-" ;;
  updateManifest b ;;
  if negb (isUmbrella b) && negb (isMaster b) then updateDep b else ret tt.

(** The exported [buildAll()]: every package of the work tree, at the
    default version. *)
Definition buildAll (fuel : nat) : M unit :=
  w <- get_world ;;
  forEach (fun n => build_package fuel n (Some config.DEFAULT_VERSION))
          (globby_packages (HEAD w)).

(** ** The vocabulary of the properties *)

(** The manifest [updateManifest] leaves for a builder. *)
Definition updated_manifest (this : Builder) (m : list ModuleEntry) : list ModuleEntry :=
  alter_first (has_id (name this)) (record_version (version this))
    match findWhere (has_id (name this)) m with
    | Some _ => m
    | None => array_sort sortByModId (m ++ [new_config this])
    end.

(** The versions the manifest records for a package, none if it has no
    entry. *)
Definition versions_of (n : string) (m : list ModuleEntry) : list string :=
  match findWhere (has_id n) m with
  | Some c => versions c
  | None => []
  end.

(** Every entry of the umbrella package is the first of the list. *)
Definition umbrella_first (m : list ModuleEntry) : Prop :=
  forall (i : nat) (c : ModuleEntry),
    m !! i = Some c -> mod_id c = UMBRELLA_PACKAGE -> i = 0.

Definition no_umbrella (m : list ModuleEntry) : Prop :=
  Forall (fun c => has_id UMBRELLA_PACKAGE c = false) m.

Definition umbrellas (m : list ModuleEntry) : nat :=
  length (List.filter (has_id UMBRELLA_PACKAGE) m).

(** The tag and the output directory of the umbrella docs of version [u]. *)
Definition umbrella_tag (u : string) : string :=
  getTagName (builder (new_Bundler (inl u))).

Definition umbrella_dir (u : string) : path :=
  dir (builder (new_Bundler (inl u))).

(** The range the umbrella package of version [u] declares for package [n]. *)
Definition declared_range (n u : string) : option string :=
  match package_json (umbrella_tag u) with
  | Some dependencies =>
      dep_version <$> findWhere (has_name n) (scoped_deps dependencies)
  | None => None
  end.

(** The builder's version is the maximum of [vs] that satisfies the range
    umbrella version [u] declares for the builder's package. *)
Definition still_max (b : Builder) (vs : list string) (u : string) : bool :=
  match declared_range (name b) u with
  | Some r => bool_decide (semver_maxSatisfying vs r = Some (version b))
  | None => false
  end.

(** The versions of the builder's package the manifest records, the valid
    ones; and the umbrella versions the loop of [updateDep] ranges over. *)
Definition known_versions (b : Builder) (w : World) : list string :=
  valid_versions (versions_of (name b) (manifest w)).

Definition bundleVersions (w : World) : list string :=
  versions_of UMBRELLA_PACKAGE (manifest w).

(** The refs a log of git commands checks out, [git checkout -] apart. *)
Definition checkouts (log : list GitCmd) : list string :=
  flat_map (fun c => match c with
                     | Checkout r => if String.eqb r "-" then [] else [r]
                     | _ => []
                     end) log.

(** One round of the loop: the checkout of the tag and back. *)
Definition visit (u : string) : M unit :=
  git_checkout (umbrella_tag u) ;; git_checkout "-".

(** [R] relates every world to the one the computation leaves, whatever the
    outcome. *)
Definition preserves {A : Type} (R : relation World) (c : M A) : Prop :=
  forall w, R w (exec c w).

(** The manifest and the state of the repository are as before. *)
Definition same_repo (w w' : World) : Prop :=
  manifest w' = manifest w /\ HEAD w' = HEAD w /\ PREV w' = PREV w
  /\ git_log w' = git_log w.

(** The files outside [region] are as before. *)
Definition files_outside (region : path -> Prop) (w w' : World) : Prop :=
  forall p, ~ region p -> files w' !! p = files w !! p.

(** Where [add] writes: below the folder of the package in the bundle. *)
Definition added_to (this : Bundler) (b : Builder) (p : path) : Prop :=
  exists x, p = dir (builder this) ++ [name b; x].

(** The longest prefix of a list on which a test holds. *)
Fixpoint take_while {A : Type} (p : A -> bool) (l : list A) : list A :=
  match l with
  | [] => []
  | x :: l' => if p x then x :: take_while p l' else []
  end.

(** Two worlds hold the same files and the same loaded modules. *)
Definition same_store (w1 w2 : World) : Prop :=
  files w1 = files w2 /\ require_cache w1 = require_cache w2.

(** A computation that reads and writes files and loaded modules only. *)
Definition store_local {A : Type} (c : M A) : Prop :=
  forall w1 w2, same_store w1 w2 ->
    outcome c w1 = outcome c w2 /\ same_store (exec c w1) (exec c w2).

(** What the parser makes of source [f] in the work tree at [h]. *)
Definition parse_source (h f : string) : string + obj :=
  parser_parseFile ("packages/" +:+ f) (read_source h ("packages/" +:+ f)).

(** The message of the error [parseFile] throws for source [f]. *)
Definition parse_failure (f message : string) : JsError :=
  Error ("Unable to generate docs for file: " +:+ f +:+ ". Reason: " +:+ message).

(** The document [build] writes for source [f], if it parses. *)
Definition document (h f : string) : option obj :=
  match parse_source h f with
  | inr j => Some (set_field "path" (JStr (basename_str (replace_to_src f +:+ "on"))) j)
  | inl _ => None
  end.

(** The documents [build] writes for package [n] from the work tree at [h],
    and the dictionary it derives from them. *)
Definition documents (h n : string) : list obj :=
  omap (document h) (globby_sources h n).

Definition dictionary (h n : string) : list json :=
  map JObj (parser_createTypesDictionary (documents h n)).

(** An entry of a dictionary with its [contents] below [depName]. *)
Definition prefix_entry (depName : string) (type : json) : json :=
  default type (prefix_contents depName type).

(** The packages the umbrella package at [h] depends on, as [getDeps] names
    them. *)
Definition bundled_names (h : string) : list string :=
  match package_json h with
  | Some dependencies => map dep_name (scoped_deps dependencies)
  | None => []
  end.

(** No dictionary has been loaded by [require] yet. *)
Definition no_dictionary_loaded (w : World) : Prop :=
  forall p, basename p = config.TYPES_DICT -> require_cache w !! p = None.

(** The loaded modules outside [region] are as before. *)
Definition cache_outside (region : path -> Prop) (w w' : World) : Prop :=
  forall p, ~ region p -> require_cache w' !! p = require_cache w !! p.

(** The dictionary of a dependency built in the submodule. *)
Definition dep_builder (dep : ResolvedDep) : Builder :=
  new_Builder (rdep_name dep) (rdep_version dep) (Some submodule_cwd).

Definition dep_types_json (dep : ResolvedDep) : path :=
  dir (dep_builder dep) ++ [config.TYPES_DICT].

(** The work tree stays at the same ref. *)
Definition same_head (w w' : World) : Prop := HEAD w' = HEAD w.

(** [a] may stand before [b]: [sortByModId(a, b) <= 0]. *)
Definition may_precede (a b : ModuleEntry) : Prop := (sortByModId a b <= 0)%Z.

(** [-1], [0] or [1] for less, equal or greater. *)
Definition three_way (c : comparison) : Z :=
  match c with
  | Lt => (-1)%Z
  | Eq => 0%Z
  | Gt => 1%Z
  end.

(** The key of [dependencies] under which a package of the scope is
    declared. *)
Definition scoped_key (d : Dep) : string * string :=
  ("@google-cloud/" +:+ dep_name d, dep_version d).

(** The manifest is as before. *)
Definition same_manifest (w w' : World) : Prop := manifest w' = manifest w.

(** Where a build writes: below the directory of the builder or, for what
    bundling builds in the submodule, below the docs of the submodule. *)
Definition docs_of (this : Builder) (p : path) : Prop :=
  dir this `prefix_of` p \/ (submodule_cwd ++ DOCS_ROOT) `prefix_of` p.

(** What a build leaves alone: the manifest, the ref the work tree is at
    and the one before it, the checkouts made so far, and the files outside
    [region]. *)
Definition build_frame (region : path -> Prop) (w w' : World) : Prop :=
  manifest w' = manifest w /\ HEAD w' = HEAD w /\ PREV w' = PREV w
  /\ checkouts (git_log w') = checkouts (git_log w)
  /\ files_outside region w w'.

(** The modules of a manifest have distinct ids and stand in the order
    [sortByModId] asks for: each may precede all that follow it. *)
Definition sorted_by_id (m : list ModuleEntry) : Prop :=
  NoDup (map mod_id m) /\ StronglySorted may_precede m.

(** The versions [updateManifest] leaves for a package it had no entry
    for. *)
Definition first_versions (v : string) : list string :=
  if String.eqb v "master" then ["master"] else [v; "master"].

(** The builder [bundle] makes for a dependency: of the greatest valid
    version the manifest records that satisfies the declared range, or of the
    default version when there is none; it builds in the submodule. *)
Definition resolved_builder (m : list ModuleEntry) (dep : Dep) : Builder :=
  new_Builder (dep_name dep)
    (semver_maxSatisfying (valid_versions (versions_of (dep_name dep) m))
                          (dep_version dep))
    (Some submodule_cwd).

(** The git commands of a bundle of the dependencies [deps]. *)
Definition bundle_commands (m : list ModuleEntry) (deps : list Dep) : list GitCmd :=
  Submodule "master" "bundler"
  :: map (fun dep => SubmoduleCheckout (getTagName (resolved_builder m dep))) deps
  ++ [Deinit].

(** What [resolve_dep] returns for a dependency. *)
Definition resolved (m : list ModuleEntry) (dep : Dep) : ResolvedDep :=
  {| rdep_name := dep_name dep;
     rdep_version :=
       semver_maxSatisfying (valid_versions (versions_of (dep_name dep) m))
                            (dep_version dep) |}.

(** A document as [add] writes it into a bundle: with the overview of its
    service, [json.parent || json.id]. *)
Definition with_overview (o : obj) : obj :=
  set_field "overview"
    (parser_createOverview (js_or (get_field "parent" o) (get_field "id" o)) true) o.

(** The character occurs in the string. *)
Fixpoint has_char (c : ascii) (s : string) : bool :=
  match s with
  | EmptyString => false
  | String c' s' => Ascii.eqb c c' || has_char c s'
  end.

(** A string of printable ASCII characters: it holds none of the line
    terminators that [.] of a JavaScript regular expression does not
    match. *)
Fixpoint printable (s : string) : bool :=
  match s with
  | EmptyString => true
  | String c s' =>
      (32 <=? nat_of_ascii c)%nat && (nat_of_ascii c <? 127)%nat && printable s'
  end.

(** A string that [path.join] keeps as one component of the path it makes:
    it is not empty, it is not ["."] or [".."], and it holds no slash. *)
Definition component (s : string) : bool :=
  negb (String.eqb s "") && negb (String.eqb s ".") && negb (String.eqb s "..")
  && negb (has_char "/" s).

(** The files after a list of writes, the latest first. *)
Definition written (l : list (path * file)) (fs : gmap path file) : gmap path file :=
  foldr (fun kv m => <[kv.1 := kv.2]> m) fs l.

(** In a work tree at [h] the computation does nothing but write files, the
    same ones whatever the files are, and its outcome does not depend on
    them either. *)
Definition writes_at {A : Type} (h : string) (c : M A) : Prop :=
  exists l o, forall w, HEAD w = h -> c w = (o, set_files (written l (files w)) w).

(** What the exported functions generate: the manifest file, and the docs
    of the work tree and of the submodule. *)
Definition generated (p : path) : Prop :=
  p = manifestPath \/ DOCS_ROOT `prefix_of` p
  \/ (submodule_cwd ++ DOCS_ROOT) `prefix_of` p.

(** * Properties *)

(** ** Reasoning about computations *)

Lemma bind_Return {A B : Type} (c : M A) (k : A -> M B) (w w' : World) (a : A) :
  c w = (Return a, w') -> bind c k w = k a w'.
Proof. intros H. unfold bind. now rewrite H. Qed.

Lemma bind_Throw {A B : Type} (c : M A) (k : A -> M B) (w w' : World) (e : JsError) :
  c w = (Throw e, w') -> bind c k w = (Throw e, w').
Proof. intros H. unfold bind. now rewrite H. Qed.

Lemma bind_inv_Return {A B : Type} (c : M A) (k : A -> M B) (w w' : World) (b : B) :
  bind c k w = (Return b, w') ->
  exists a w1, c w = (Return a, w1) /\ k a w1 = (Return b, w').
Proof.
  unfold bind. destruct (c w) as [[a | e |] w1]; intros H; try discriminate.
  exists a, w1. split; [reflexivity | exact H].
Qed.

(** ** Tag names *)

(** C1, as amended: a version that is not the empty string is kept, and the
    tag is the version itself for the default version, ["v"] and the version
    for the umbrella package, and the name, a dash and the version otherwise;
    an empty or omitted version stands for the default version, whose tag is
    that version. *)
Theorem getTagName_new_Builder (p : string) (v : option string) (cwd : option path) :
  getTagName (new_Builder p v cwd) =
    match v with
    | Some s =>
        if String.eqb s "" then config.DEFAULT_VERSION
        else if String.eqb s config.DEFAULT_VERSION then s
        else if String.eqb p UMBRELLA_PACKAGE then "v" +:+ s
        else p +:+ "-" +:+ s
    | None => config.DEFAULT_VERSION
    end.
Proof.
  unfold getTagName, new_Builder, version_or_default; cbn [isMaster isUmbrella version name].
  destruct v as [s |]; [| reflexivity].
  destruct (String.eqb s "") eqn:Hempty; [reflexivity |].
  destruct (String.eqb s config.DEFAULT_VERSION) eqn:Hdef; [reflexivity |].
  destruct (String.eqb p UMBRELLA_PACKAGE); reflexivity.
Qed.

(** ** [updateDep] on a master build *)

Lemma updateDep_isMaster (b : Builder) (w : World) :
  isMaster b = true -> exec (updateDep b) w = w /\ outcome (updateDep b) w <> Return tt.
Proof. intros H. unfold exec, outcome, updateDep. rewrite H. now split. Qed.

(** C6: on a builder of the default version [updateDep] throws its error
    and leaves the world, manifest and bundles included, as it was. *)
Theorem updateDep_master_throws (b : Builder) (w : World) :
  isMaster b = true ->
  updateDep b w
  = (Throw (Error "Must supply valid version to update bundles with."), w).
Proof. intros H. unfold updateDep. rewrite H. reflexivity. Qed.

Lemma isMaster_new_Builder (n : string) (v : option string) (cwd : option path) :
  isMaster (new_Builder n v cwd) = true <->
  version (new_Builder n v cwd) = config.DEFAULT_VERSION.
Proof. cbn [isMaster version new_Builder]. apply String.eqb_eq. Qed.

(** ** Searching, altering and sorting lists *)

Lemma findWhere_None {A : Type} (p : A -> bool) (l : list A) :
  findWhere p l = None <-> Forall (fun x => p x = false) l.
Proof.
  induction l as [| x l IH]; simpl.
  - split; [constructor | reflexivity].
  - destruct (p x) eqn:Hp.
    + split; [discriminate |]. intros H. inversion H; congruence.
    + rewrite IH. split; [now constructor |]. intros H. now inversion H.
Qed.

Lemma findWhere_Some {A : Type} (p : A -> bool) (l : list A) (x : A) :
  findWhere p l = Some x -> x ∈ l /\ p x = true.
Proof.
  induction l as [| y l IH]; simpl; [discriminate |].
  destruct (p y) eqn:Hp.
  - intros [= <-]. split; [left | exact Hp].
  - intros H. destruct (IH H) as [Hin Hx]. split; [now right | exact Hx].
Qed.

Lemma findWhere_elem {A : Type} (p : A -> bool) (l : list A) (x : A) :
  x ∈ l -> p x = true -> exists y, findWhere p l = Some y.
Proof.
  intros Hin Hp. destruct (findWhere p l) as [y |] eqn:H; [now exists y |].
  apply findWhere_None in H. rewrite Forall_forall in H.
  specialize (H x Hin). congruence.
Qed.

Lemma findWhere_alter_first {A : Type} (p : A -> bool) (f : A -> A) (l : list A) :
  (forall x, p (f x) = p x) ->
  findWhere p (alter_first p f l) = f <$> findWhere p l.
Proof.
  intros Hf. induction l as [| x l IH]; simpl; [reflexivity |].
  destruct (p x) eqn:Hp; simpl.
  - now rewrite Hf, Hp.
  - now rewrite Hp.
Qed.

Lemma alter_first_idemp {A : Type} (p : A -> bool) (f : A -> A) (l : list A) :
  (forall x, p (f x) = p x) -> (forall x, f (f x) = f x) ->
  alter_first p f (alter_first p f l) = alter_first p f l.
Proof.
  intros Hp Hf. induction l as [| x l IH]; simpl; [reflexivity |].
  destruct (p x) eqn:Hx; simpl.
  - now rewrite Hp, Hx, Hf.
  - now rewrite Hx, IH.
Qed.

Lemma sorted_insert_perm {A : Type} (cmp : A -> A -> Z) (x : A) (l : list A) :
  sorted_insert cmp x l ≡ₚ x :: l.
Proof.
  induction l as [| y l IH]; simpl; [reflexivity |].
  destruct (cmp x y <=? 0)%Z; [reflexivity |].
  rewrite IH. apply Permutation_swap.
Qed.

Lemma array_sort_perm {A : Type} (cmp : A -> A -> Z) (l : list A) :
  array_sort cmp l ≡ₚ l.
Proof.
  induction l as [| x l IH]; simpl; [reflexivity |].
  now rewrite sorted_insert_perm, IH.
Qed.

(** ** The manifest *)

Lemma has_id_record_version (n v : string) (c : ModuleEntry) :
  has_id n (record_version v c) = has_id n c.
Proof. unfold record_version, has_id. now destruct (not_recorded v (versions c)). Qed.

Lemma not_recorded_false (v : string) (vs : list string) :
  not_recorded v vs = false <-> v ∈ vs.
Proof.
  unfold not_recorded. rewrite negb_false_iff, existsb_exists. split.
  - intros (x & Hin & Heq). apply String.eqb_eq in Heq. subst x.
    now apply list_elem_of_In.
  - intros Hin. exists v. split; [now apply list_elem_of_In | apply String.eqb_refl].
Qed.

Lemma record_version_idemp (v : string) (c : ModuleEntry) :
  record_version v (record_version v c) = record_version v c.
Proof.
  unfold record_version at 2 3.
  destruct (not_recorded v (versions c)) eqn:H.
  - unfold record_version. cbn [versions].
    assert (Hin : not_recorded v (v :: versions c) = false)
      by (apply not_recorded_false; left).
    now rewrite Hin.
  - unfold record_version. now rewrite H.
Qed.

Lemma updateManifest_run (this : Builder) (w : World) :
  updateManifest this w
  = (Return tt,
     set_files (<[manifestPath := FJson (manifest_json (updated_manifest this (manifest w)))]> (files w))
       (set_manifest (updated_manifest this (manifest w)) w)).
Proof. reflexivity. Qed.

Lemma findWhere_updated_manifest (this : Builder) (m : list ModuleEntry) :
  exists c, findWhere (has_id (name this)) (updated_manifest this m) = Some c.
Proof.
  unfold updated_manifest.
  rewrite findWhere_alter_first by (intros; apply has_id_record_version).
  destruct (findWhere (has_id (name this)) m) as [c |] eqn:Hfind.
  - rewrite Hfind. now eexists.
  - destruct (findWhere_elem (has_id (name this))
                (array_sort sortByModId (m ++ [new_config this])) (new_config this))
      as [y Hy].
    + rewrite array_sort_perm. apply elem_of_app. right. left.
    + apply String.eqb_refl.
    + rewrite Hy. now eexists.
Qed.

Lemma updated_manifest_idemp (this : Builder) (m : list ModuleEntry) :
  updated_manifest this (updated_manifest this m) = updated_manifest this m.
Proof.
  destruct (findWhere_updated_manifest this m) as [c Hc].
  unfold updated_manifest at 1. rewrite Hc.
  unfold updated_manifest.
  apply alter_first_idemp.
  - intros; apply has_id_record_version.
  - intros; apply record_version_idemp.
Qed.

Lemma count_occ_record_version (v : string) (c : ModuleEntry) :
  count_occ string_dec (versions (record_version v c)) v
  = Nat.max 1 (count_occ string_dec (versions c) v).
Proof.
  unfold record_version. destruct (not_recorded v (versions c)) eqn:H.
  - cbn [versions]. rewrite count_occ_cons_eq by reflexivity.
    assert (Hn : count_occ string_dec (versions c) v = 0).
    { apply count_occ_not_In. intros Hin. apply list_elem_of_In in Hin.
      apply not_recorded_false in Hin. congruence. }
    now rewrite Hn.
  - apply not_recorded_false in H. apply list_elem_of_In in H.
    apply (count_occ_In string_dec) in H. lia.
Qed.

Lemma findWhere_sort_new (p : ModuleEntry -> bool) (m : list ModuleEntry) (c : ModuleEntry) :
  findWhere p m = None -> p c = true ->
  findWhere p (array_sort sortByModId (m ++ [c])) = Some c.
Proof.
  intros Hnone Hc.
  destruct (findWhere_elem p (array_sort sortByModId (m ++ [c])) c) as [y Hy].
  - rewrite array_sort_perm. apply elem_of_app. right. left.
  - exact Hc.
  - rewrite Hy. f_equal.
    destruct (findWhere_Some _ _ _ Hy) as [Hin Hpy].
    rewrite array_sort_perm in Hin. apply elem_of_app in Hin.
    destruct Hin as [Hin | Hin].
    + apply findWhere_None in Hnone. rewrite Forall_forall in Hnone.
      specialize (Hnone y Hin). congruence.
    + apply list_elem_of_singleton in Hin. exact Hin.
Qed.

(** C4: a second [updateManifest] of the same builder changes nothing, in
    memory or in the manifest file; and after it the builder's version is
    recorded once for its package, or as often as the manifest that was
    loaded already repeated it: the calls add no second copy. *)
Theorem updateManifest_idempotent (this : Builder) (w : World) :
  let w1 := exec (updateManifest this) w in
  let w2 := exec (updateManifest this) w1 in
  w2 = w1
  /\ count_occ string_dec (versions_of (name this) (manifest w2)) (version this)
     = Nat.max 1 (count_occ string_dec (versions_of (name this) (manifest w))
                            (version this)).
Proof.
  cbn zeta. unfold exec. rewrite !updateManifest_run. cbn [snd].
  cbn [manifest files set_files set_manifest require_cache HEAD PREV git_log].
  rewrite updated_manifest_idemp. split.
  - unfold set_files, set_manifest.
    cbn [manifest files require_cache HEAD PREV git_log].
    now rewrite insert_insert_eq.
  - unfold versions_of, updated_manifest.
    rewrite findWhere_alter_first by (intros; apply has_id_record_version).
    destruct (findWhere (has_id (name this)) (manifest w)) as [c |] eqn:Hfind.
    + rewrite Hfind. cbn [fmap option_fmap option_map].
      apply count_occ_record_version.
    + rewrite findWhere_sort_new by (trivial; apply String.eqb_refl).
      cbn [fmap option_fmap option_map].
      rewrite count_occ_record_version. cbn [new_config versions].
      destruct (string_dec "master" (version this)) as [Heq | Hne].
      * rewrite count_occ_cons_eq by exact Heq. reflexivity.
      * rewrite count_occ_cons_neq by exact Hne. reflexivity.
Qed.

(** ** The place of the umbrella module *)

Lemma umbrella_first_tail (m : list ModuleEntry) :
  umbrella_first m <-> no_umbrella (tail m).
Proof.
  unfold umbrella_first, no_umbrella. rewrite Forall_lookup. split.
  - intros H i c Hi. destruct m as [| c0 m]; [discriminate Hi |].
    simpl in Hi. unfold has_id. apply String.eqb_neq. intros Hid.
    specialize (H (S i) c Hi Hid). discriminate.
  - intros H i c Hi Hid. destruct i as [| i]; [reflexivity |].
    destruct m as [| c0 m]; [discriminate Hi |].
    simpl in Hi. specialize (H i c Hi). unfold has_id in H.
    apply String.eqb_neq in H. contradiction.
Qed.

Lemma no_umbrella_findWhere (m : list ModuleEntry) :
  no_umbrella m <-> findWhere (has_id UMBRELLA_PACKAGE) m = None.
Proof. symmetry. apply findWhere_None. Qed.

Lemma sortByModId_umbrella_l (a b : ModuleEntry) :
  has_id UMBRELLA_PACKAGE a = true -> sortByModId a b = (-1)%Z.
Proof. unfold has_id, sortByModId. now intros ->. Qed.

Lemma sortByModId_umbrella_r (a b : ModuleEntry) :
  has_id UMBRELLA_PACKAGE a = false -> has_id UMBRELLA_PACKAGE b = true ->
  sortByModId a b = 1%Z.
Proof. unfold has_id, sortByModId. now intros -> ->. Qed.

Lemma sorted_insert_umbrella_first (x : ModuleEntry) (l : list ModuleEntry) :
  umbrella_first l ->
  (has_id UMBRELLA_PACKAGE x = true -> no_umbrella l) ->
  umbrella_first (sorted_insert sortByModId x l).
Proof.
  rewrite !umbrella_first_tail. intros Hl Hx.
  destruct l as [| y l]; simpl; [constructor |].
  simpl in Hl.
  destruct (has_id UMBRELLA_PACKAGE x) eqn:Ux.
  - rewrite sortByModId_umbrella_l by exact Ux. simpl. now apply Hx.
  - destruct (has_id UMBRELLA_PACKAGE y) eqn:Uy.
    + rewrite sortByModId_umbrella_r by assumption. simpl.
      unfold no_umbrella. rewrite sorted_insert_perm. now constructor.
    + destruct (sortByModId x y <=? 0)%Z; simpl.
      * now constructor.
      * unfold no_umbrella. rewrite sorted_insert_perm. now constructor.
Qed.

Lemma umbrellas_0 (m : list ModuleEntry) : umbrellas m = 0 <-> no_umbrella m.
Proof.
  unfold umbrellas, no_umbrella. induction m as [| c m IH]; simpl.
  - split; [constructor | reflexivity].
  - destruct (has_id UMBRELLA_PACKAGE c) eqn:U; simpl.
    + split; [discriminate |]. intros H. inversion H; congruence.
    + rewrite IH. split; [now constructor |]. intros H. now inversion H.
Qed.

Lemma array_sort_umbrella_first (m : list ModuleEntry) :
  umbrellas m <= 1 -> umbrella_first (array_sort sortByModId m).
Proof.
  induction m as [| c m IH]; simpl.
  - intros _ i c Hi. discriminate Hi.
  - unfold umbrellas. simpl. intros H. apply sorted_insert_umbrella_first.
    + apply IH. unfold umbrellas.
      destruct (has_id UMBRELLA_PACKAGE c); simpl in H; lia.
    + intros U. rewrite U in H. simpl in H.
      unfold no_umbrella. rewrite array_sort_perm. apply umbrellas_0.
      unfold umbrellas. lia.
Qed.

Lemma umbrella_first_umbrellas (m : list ModuleEntry) :
  umbrella_first m -> umbrellas m <= 1.
Proof.
  rewrite umbrella_first_tail. destruct m as [| c m]; simpl; [unfold umbrellas; simpl; lia |].
  intros H. apply umbrellas_0 in H. unfold umbrellas in *. simpl.
  destruct (has_id UMBRELLA_PACKAGE c); simpl; lia.
Qed.

Lemma umbrellas_app (m1 m2 : list ModuleEntry) :
  umbrellas (m1 ++ m2) = umbrellas m1 + umbrellas m2.
Proof. unfold umbrellas. now rewrite List.filter_app, length_app. Qed.

Lemma alter_first_ids (p : ModuleEntry -> bool) (f : ModuleEntry -> ModuleEntry)
    (m : list ModuleEntry) :
  (forall c, mod_id (f c) = mod_id c) ->
  map mod_id (alter_first p f m) = map mod_id m.
Proof.
  intros Hf. induction m as [| c m IH]; simpl; [reflexivity |].
  destruct (p c); simpl; [now rewrite Hf | now rewrite IH].
Qed.

Lemma umbrella_first_ids (m m' : list ModuleEntry) :
  map mod_id m' = map mod_id m -> umbrella_first m -> umbrella_first m'.
Proof.
  intros Hids H i c Hi Hid. 
  assert (Hi' : map mod_id m !! i = Some UMBRELLA_PACKAGE).
  { rewrite <- Hids, list_lookup_fmap, Hi. simpl. now rewrite Hid. }
  rewrite list_lookup_fmap in Hi'.
  destruct (m !! i) as [c' |] eqn:Hc'; [| discriminate].
  simpl in Hi'. injection Hi' as Hi'. now apply (H i c').
Qed.

Lemma mod_id_record_version (v : string) (c : ModuleEntry) :
  mod_id (record_version v c) = mod_id c.
Proof. unfold record_version. now destruct (not_recorded v (versions c)). Qed.

Lemma updated_manifest_umbrella_first (this : Builder) (m : list ModuleEntry) :
  umbrella_first m -> umbrella_first (updated_manifest this m).
Proof.
  intros H. unfold updated_manifest.
  eapply umbrella_first_ids;
    [apply alter_first_ids; intros; apply mod_id_record_version |].
  destruct (findWhere (has_id (name this)) m) as [c |] eqn:Hfind; [exact H |].
  apply array_sort_umbrella_first. rewrite umbrellas_app.
  unfold umbrellas at 2. simpl.
  destruct (has_id UMBRELLA_PACKAGE (new_config this)) eqn:U; simpl.
  - unfold has_id in U. simpl in U. apply String.eqb_eq in U. rewrite U in Hfind.
    apply no_umbrella_findWhere, umbrellas_0 in Hfind. lia.
  - apply umbrella_first_umbrellas in H. lia.
Qed.

Lemma forEach_cons_Return {A : Type} (f : A -> M unit) (x : A) (l : list A) (w w' : World) :
  f x w = (Return tt, w') -> forEach f (x :: l) w = forEach f l w'.
Proof. intros H. simpl. unfold bind. now rewrite H. Qed.

(** C5: in a manifest whose umbrella entry, if it has one, is first, every
    sequence of [updateManifest] calls, for any packages in any order, leaves
    the umbrella entry first; the empty manifest is such a manifest. *)
Theorem umbrella_entry_stays_first (bs : list Builder) (w : World) :
  umbrella_first (manifest w) ->
  umbrella_first (manifest (exec (forEach updateManifest bs) w)).
Proof.
  revert w. induction bs as [| b bs IH]; intros w H; [exact H |].
  unfold exec. rewrite (forEach_cons_Return _ _ _ _ _ (updateManifest_run b w)).
  apply IH. cbn [manifest set_files set_manifest].
  now apply updated_manifest_umbrella_first.
Qed.

Lemma umbrella_first_nil : umbrella_first [].
Proof. intros i c Hi. discriminate Hi. Qed.

(** ** The walk of [updateDep] over the umbrella versions *)

Lemma umbrella_tag_version (u : string) :
  umbrella_tag u =
    let v := version_or_default (Some u) in
    if String.eqb v config.DEFAULT_VERSION then v else "v" +:+ v.
Proof.
  unfold umbrella_tag, new_Bundler, getTagName, new_Builder.
  cbn [builder isMaster isUmbrella version name].
  now rewrite String.eqb_refl.
Qed.

Lemma umbrella_tag_not_dash (u : string) : String.eqb (umbrella_tag u) "-" = false.
Proof.
  rewrite umbrella_tag_version. cbn zeta.
  destruct (String.eqb (version_or_default (Some u)) config.DEFAULT_VERSION) eqn:H.
  - apply String.eqb_eq in H. now rewrite H.
  - reflexivity.
Qed.

Lemma updateDep_loop_cons (b : Builder) (vs : list string) (u : string)
    (rest : list string) (w : World) :
  updateDep_loop b vs (u :: rest) w =
    match package_json (umbrella_tag u) with
    | None => (Throw (Error "Cannot read the dependencies of package.json"),
               exec (git_checkout (umbrella_tag u)) w)
    | Some dependencies =>
        match findWhere (has_name (name b)) (scoped_deps dependencies) with
        | None => (Throw (TypeError "Cannot read property 'version' of null"),
                   exec (visit u) w)
        | Some dep =>
            if bool_decide (semver_maxSatisfying vs (dep_version dep) = Some (version b))
            then (add (new_Bundler (inl u)) b ;; updateDep_loop b vs rest) (exec (visit u) w)
            else (Return tt, exec (visit u) w)
        end
    end.
Proof.
  cbn [updateDep_loop]. unfold bind at 1. cbn [git_checkout modify].
  unfold bind at 1, getDeps at 1. unfold bind at 1. cbn [get_world HEAD].
  fold (umbrella_tag u). unfold exec, visit. cbn [git_checkout modify bind snd].
  rewrite (umbrella_tag_not_dash u).
  destruct (package_json (umbrella_tag u)) as [dependencies |]; [| reflexivity].
  cbn [ret]. unfold bind at 1. cbn [git_checkout modify].
  destruct (findWhere (has_name (name b)) (scoped_deps dependencies)) as [dep |];
    [| reflexivity].
  destruct (bool_decide (semver_maxSatisfying vs (dep_version dep) = Some (version b)));
    reflexivity.
Qed.

Lemma updateDep_run (b : Builder) (w : World) (bc c : ModuleEntry) :
  isMaster b = false ->
  findWhere (has_id UMBRELLA_PACKAGE) (manifest w) = Some bc ->
  findWhere (has_id (name b)) (manifest w) = Some c ->
  updateDep b w
  = updateDep_loop b (known_versions b w)
      (take (length (bundleVersions w) - 1) (bundleVersions w)) w.
Proof.
  intros Hm Hbc Hc. unfold updateDep, known_versions, bundleVersions, versions_of.
  rewrite Hm. unfold bind, get_world. now rewrite Hbc, Hc.
Qed.

Lemma updateDep_no_entry (b : Builder) (w : World) :
  findWhere (has_id UMBRELLA_PACKAGE) (manifest w) = None
  \/ findWhere (has_id (name b)) (manifest w) = None ->
  exec (updateDep b) w = w.
Proof.
  intros H. unfold exec, updateDep.
  destruct (isMaster b); [reflexivity |].
  unfold bind, get_world.
  destruct (findWhere (has_id UMBRELLA_PACKAGE) (manifest w)); [| reflexivity].
  destruct H as [H | H]; [discriminate |]. now rewrite H.
Qed.

(** ** What a computation leaves alone *)

Section Preserves.
Context (R : relation World) `{!PreOrder R}.

Lemma preserves_ret {A : Type} (a : A) : preserves R (ret a).
Proof. intros w. reflexivity. Qed.

Lemma preserves_throw {A : Type} (e : JsError) : preserves R (@throw A e).
Proof. intros w. reflexivity. Qed.

Lemma preserves_get_world : preserves R get_world.
Proof. intros w. reflexivity. Qed.

Lemma preserves_bind {A B : Type} (c : M A) (k : A -> M B) :
  preserves R c -> (forall a, preserves R (k a)) -> preserves R (bind c k).
Proof.
  intros Hc Hk w. unfold exec, bind. specialize (Hc w). unfold exec in Hc.
  destruct (c w) as [[a | e |] w1]; cbn [snd] in *; try exact Hc.
  transitivity w1; [exact Hc | apply Hk].
Qed.

Lemma preserves_forEach {A : Type} (f : A -> M unit) (l : list A) :
  (forall x, preserves R (f x)) -> preserves R (forEach f l).
Proof.
  intros Hf. induction l as [| x l IH]; simpl.
  - apply preserves_ret.
  - apply preserves_bind; [apply Hf | intros _; exact IH].
Qed.

Lemma preserves_mapM {A B : Type} (f : A -> M B) (l : list A) :
  (forall x, preserves R (f x)) -> preserves R (mapM f l).
Proof.
  intros Hf. induction l as [| x l IH]; simpl.
  - apply preserves_ret.
  - apply preserves_bind; [apply Hf | intros y].
    apply preserves_bind; [exact IH | intros ys; apply preserves_ret].
Qed.

End Preserves.

#[local] Instance same_repo_preorder : PreOrder same_repo.
Proof.
  split.
  - intros w. repeat split.
  - intros w1 w2 w3 (? & ? & ? & ?) (? & ? & ? & ?). repeat split; congruence.
Qed.

#[local] Instance files_outside_preorder (region : path -> Prop) :
  PreOrder (files_outside region).
Proof.
  split.
  - intros w p _. reflexivity.
  - intros w1 w2 w3 H12 H23 p Hp. rewrite (H23 p Hp). now apply H12.
Qed.

Lemma writeFileSync_same_repo (p : path) (j : json) :
  preserves same_repo (writeFileSync p j).
Proof. intros w. repeat split. Qed.

Lemma require_same_repo (p : path) : preserves same_repo (require p).
Proof.
  intros w. unfold exec, require.
  destruct (require_cache w !! p); [repeat split |].
  destruct (files w !! p) as [[j | s] |]; repeat split.
Qed.

Lemma mutate_required_same_repo (p : path) (j : json) :
  preserves same_repo (mutate_required p j).
Proof. intros w. repeat split. Qed.

Lemma writeFileSync_files_outside (region : path -> Prop) (p : path) (j : json) :
  region p -> preserves (files_outside region) (writeFileSync p j).
Proof.
  intros Hp w q Hq. unfold exec, writeFileSync, modify. cbn [snd files set_files].
  apply lookup_insert_ne. intros ->. contradiction.
Qed.

Lemma require_files (p : path) (w : World) : files (exec (require p) w) = files w.
Proof.
  unfold exec, require.
  destruct (require_cache w !! p); [reflexivity |].
  destruct (files w !! p) as [[j | s] |]; reflexivity.
Qed.

Lemma require_files_outside (region : path -> Prop) (p : path) :
  preserves (files_outside region) (require p).
Proof. intros w q _. now rewrite require_files. Qed.

Lemma mutate_required_files_outside (region : path -> Prop) (p : path) (j : json) :
  preserves (files_outside region) (mutate_required p j).
Proof. intros w q _. reflexivity. Qed.

Lemma add_file_same_repo (this : Bundler) (b : Builder) (f : path) :
  preserves same_repo (add_file this b f).
Proof.
  unfold add_file. apply preserves_bind; [apply _ | apply require_same_repo |].
  intros [| | | | l | o]; try apply preserves_throw; try apply _.
  - apply writeFileSync_same_repo.
  - apply preserves_bind; [apply _ | apply mutate_required_same_repo |].
    intros _. apply writeFileSync_same_repo.
Qed.

Lemma add_file_files_outside (this : Bundler) (b : Builder) (f : path) :
  preserves (files_outside (added_to this b)) (add_file this b f).
Proof.
  assert (Hreg : added_to this b (dir (builder this) ++ [name b; basename f]))
    by now eexists.
  unfold add_file. apply preserves_bind; [apply _ | apply require_files_outside |].
  intros [| | | | l | o]; try apply preserves_throw; try apply _.
  - now apply writeFileSync_files_outside.
  - apply preserves_bind; [apply _ | apply mutate_required_files_outside |].
    intros _. now apply writeFileSync_files_outside.
Qed.

Lemma add_same_repo (this : Bundler) (b : Builder) : preserves same_repo (add this b).
Proof.
  unfold add. apply preserves_bind; [apply _ | apply preserves_ret; apply _ |].
  intros _. apply preserves_bind; [apply _ | apply preserves_get_world; apply _ |].
  intros w. apply preserves_forEach; [apply _ |]. intros f. apply add_file_same_repo.
Qed.

Lemma add_files_outside (this : Bundler) (b : Builder) :
  preserves (files_outside (added_to this b)) (add this b).
Proof.
  unfold add. apply preserves_bind; [apply _ | apply preserves_ret; apply _ |].
  intros _. apply preserves_bind; [apply _ | apply preserves_get_world; apply _ |].
  intros w. apply preserves_forEach; [apply _ |]. intros f. apply add_file_files_outside.
Qed.

Lemma umbrella_dir_version (u : string) :
  umbrella_dir u = DOCS_ROOT ++ [UMBRELLA_PACKAGE; version_or_default (Some u)].
Proof. reflexivity. Qed.

Lemma umbrella_dir_tag (u u' : string) :
  umbrella_dir u = umbrella_dir u' -> umbrella_tag u = umbrella_tag u'.
Proof.
  rewrite !umbrella_dir_version, !umbrella_tag_version. cbn zeta.
  intros H. apply app_inv_head in H.
  assert (Hv : version_or_default (Some u) = version_or_default (Some u'))
    by congruence.
  now rewrite Hv.
Qed.

Lemma still_max_dir (b : Builder) (vs : list string) (u u' : string) :
  umbrella_dir u = umbrella_dir u' -> still_max b vs u = still_max b vs u'.
Proof.
  intros H. unfold still_max, declared_range. now rewrite (umbrella_dir_tag _ _ H).
Qed.

Lemma added_to_umbrella_dir (b : Builder) (u u' : string) (p : path) :
  umbrella_dir u `prefix_of` p -> added_to (new_Bundler (inl u')) b p ->
  umbrella_dir u = umbrella_dir u'.
Proof.
  intros [k Hk] [x Hx]. fold (umbrella_dir u') in Hx. rewrite Hx in Hk.
  apply app_inj_1 in Hk; [now destruct Hk |].
  now rewrite !umbrella_dir_version, !length_app.
Qed.

Lemma visit_files (u : string) (w : World) : files (exec (visit u) w) = files w.
Proof. reflexivity. Qed.

Lemma still_max_found (b : Builder) (vs : list string) (u : string)
    (dependencies : list (string * string)) (dep : Dep) :
  package_json (umbrella_tag u) = Some dependencies ->
  findWhere (has_name (name b)) (scoped_deps dependencies) = Some dep ->
  still_max b vs u
  = bool_decide (semver_maxSatisfying vs (dep_version dep) = Some (version b)).
Proof. intros H1 H2. unfold still_max, declared_range. now rewrite H1, H2. Qed.

Lemma updateDep_loop_leaves (b : Builder) (vs us : list string) (u : string)
    (p : path) (w : World) :
  still_max b vs u = false -> umbrella_dir u `prefix_of` p ->
  files (exec (updateDep_loop b vs us) w) !! p = files w !! p.
Proof.
  intros Hu Hp. revert w. induction us as [| u' us IH]; intros w; [reflexivity |].
  unfold exec. rewrite updateDep_loop_cons.
  destruct (package_json (umbrella_tag u')) as [dependencies |] eqn:Hpkg;
    [| reflexivity].
  destruct (findWhere (has_name (name b)) (scoped_deps dependencies)) as [dep |] eqn:Hdep;
    [| reflexivity].
  rewrite <- (still_max_found b vs u' _ _ Hpkg Hdep).
  destruct (still_max b vs u') eqn:Hu'; [| reflexivity].
  assert (Hadd : files (exec (add (new_Bundler (inl u')) b) (exec (visit u') w)) !! p
                 = files w !! p).
  { rewrite (add_files_outside (new_Bundler (inl u')) b (exec (visit u') w) p);
      [reflexivity |].
    intros Hin. pose proof (added_to_umbrella_dir b u u' p Hp Hin) as Hd.
    rewrite (still_max_dir b vs u u' Hd) in Hu. congruence. }
  remember (exec (visit u') w) as w0 eqn:Hw0. clear Hw0.
  unfold exec in Hadd. unfold bind.
  destruct (add (new_Bundler (inl u')) b w0) as [[[] | e |] w1];
    cbn [snd] in *; try exact Hadd.
  rewrite <- Hadd. apply IH.
Qed.

(** C3: an umbrella version whose declared range for the builder's package
    does not resolve to the builder's version (or that declares none) keeps
    every file of its bundle: [updateDep] writes nothing below its output
    directory. *)
Theorem updateDep_leaves_other_bundles (b : Builder) (w : World) (u : string)
    (p : path) :
  still_max b (known_versions b w) u = false ->
  umbrella_dir u `prefix_of` p ->
  files (exec (updateDep b) w) !! p = files w !! p.
Proof.
  intros Hu Hp.
  destruct (isMaster b) eqn:Hm.
  { now rewrite (proj1 (updateDep_isMaster b w Hm)). }
  destruct (findWhere (has_id UMBRELLA_PACKAGE) (manifest w)) as [bc |] eqn:Hbc;
    [| rewrite updateDep_no_entry; auto].
  destruct (findWhere (has_id (name b)) (manifest w)) as [c |] eqn:Hc;
    [| rewrite updateDep_no_entry; auto].
  unfold exec. rewrite (updateDep_run b w bc c Hm Hbc Hc).
  now apply updateDep_loop_leaves with (u := u).
Qed.

Lemma checkouts_app (l1 l2 : list GitCmd) :
  checkouts (l1 ++ l2) = checkouts l1 ++ checkouts l2.
Proof. unfold checkouts. apply flat_map_app. Qed.

Lemma visit_git_log (u : string) (w : World) :
  git_log (exec (visit u) w)
  = git_log w ++ [Checkout (umbrella_tag u); Checkout "-"].
Proof. unfold exec, visit, bind. cbn. now rewrite <- app_assoc. Qed.

Lemma visit_checkouts (u : string) (w : World) :
  checkouts (git_log (exec (visit u) w)) = checkouts (git_log w) ++ [umbrella_tag u].
Proof.
  rewrite visit_git_log, checkouts_app. f_equal.
  cbn. now rewrite umbrella_tag_not_dash.
Qed.

Lemma checkout_checkouts (u : string) (w : World) :
  checkouts (git_log (exec (git_checkout (umbrella_tag u)) w))
  = checkouts (git_log w) ++ [umbrella_tag u].
Proof.
  unfold exec. cbn. rewrite checkouts_app. f_equal.
  cbn. now rewrite umbrella_tag_not_dash.
Qed.

Lemma updateDep_loop_checkouts (b : Builder) (vs us : list string) (w : World) :
  exists k, k <= length us /\
    checkouts (git_log (exec (updateDep_loop b vs us) w))
    = checkouts (git_log w) ++ map umbrella_tag (take k us).
Proof.
  revert w. induction us as [| u us IH]; intros w.
  { exists 0. split; [reflexivity |]. cbn. now rewrite app_nil_r. }
  assert (Hone : forall w', checkouts (git_log w') = checkouts (git_log w) ++ [umbrella_tag u] ->
            exists k, k <= length (u :: us) /\
              checkouts (git_log w') = checkouts (git_log w) ++ map umbrella_tag (take k (u :: us))).
  { intros w' H. exists 1. split; [simpl; lia |]. now rewrite H. }
  unfold exec. rewrite updateDep_loop_cons.
  destruct (package_json (umbrella_tag u)) as [dependencies |];
    [| apply Hone, checkout_checkouts].
  destruct (findWhere (has_name (name b)) (scoped_deps dependencies)) as [dep |];
    [| apply Hone, visit_checkouts].
  destruct (bool_decide _); [| apply Hone, visit_checkouts].
  pose proof (add_same_repo (new_Bundler (inl u)) b (exec (visit u) w)) as (_ & _ & _ & Hlog).
  pose proof (visit_checkouts u w) as Hvisit.
  remember (exec (visit u) w) as w0 eqn:Hw0. clear Hw0.
  unfold exec in Hlog. unfold bind.
  destruct (add (new_Bundler (inl u)) b w0) as [[[] | e |] w1];
    cbn [snd] in *;
    try (apply Hone; now rewrite Hlog).
  destruct (IH w1) as (k & Hk & Hlog'). exists (S k). split; [simpl; lia |].
  unfold exec in Hlog'. rewrite Hlog', Hlog, Hvisit.
  cbn. now rewrite <- app_assoc.
Qed.

(** C10: the tags [updateDep] checks out are those of the first [k] recorded
    umbrella versions for some [k] below their number, so the last entry is
    never among them; with exactly one recorded version nothing is checked out
    or written, the world stays as it is. *)
Theorem updateDep_spares_last_version (b : Builder) (w : World) :
  (exists k, k <= length (bundleVersions w) - 1 /\
     checkouts (git_log (exec (updateDep b) w))
     = checkouts (git_log w) ++ map umbrella_tag (take k (bundleVersions w)))
  /\ (length (bundleVersions w) = 1 -> exec (updateDep b) w = w).
Proof.
  assert (Hsame : exec (updateDep b) w = w ->
    exists k, k <= length (bundleVersions w) - 1 /\
     checkouts (git_log (exec (updateDep b) w))
     = checkouts (git_log w) ++ map umbrella_tag (take k (bundleVersions w))).
  { intros ->. exists 0. split; [lia |]. cbn. now rewrite app_nil_r. }
  destruct (isMaster b) eqn:Hm.
  { assert (H : exec (updateDep b) w = w) by apply (updateDep_isMaster b w Hm).
    split; [now apply Hsame | now intros _]. }
  destruct (findWhere (has_id UMBRELLA_PACKAGE) (manifest w)) as [bc |] eqn:Hbc;
    [| assert (H : exec (updateDep b) w = w) by (apply updateDep_no_entry; auto);
       split; [now apply Hsame | now intros _]].
  destruct (findWhere (has_id (name b)) (manifest w)) as [c |] eqn:Hc;
    [| assert (H : exec (updateDep b) w = w) by (apply updateDep_no_entry; auto);
       split; [now apply Hsame | now intros _]].
  unfold exec. rewrite (updateDep_run b w bc c Hm Hbc Hc). split.
  - destruct (updateDep_loop_checkouts b (known_versions b w)
                (take (length (bundleVersions w) - 1) (bundleVersions w)) w)
      as (k & Hk & Hlog).
    rewrite length_take in Hk. exists k. split; [lia |].
    unfold exec in Hlog. rewrite Hlog, take_take. do 3 f_equal. lia.
  - intros ->. reflexivity.
Qed.

(** ** The bundles [updateDep] adds to *)

Lemma store_local_ret {A : Type} (a : A) : store_local (ret a).
Proof. intros w1 w2 H. now split. Qed.

Lemma store_local_throw {A : Type} (e : JsError) : store_local (@throw A e).
Proof. intros w1 w2 H. now split. Qed.

Lemma store_local_bind {A B : Type} (c : M A) (k : A -> M B) :
  store_local c -> (forall a, store_local (k a)) -> store_local (bind c k).
Proof.
  intros Hc Hk w1 w2 H. destruct (Hc w1 w2 H) as [Ho Hs].
  unfold outcome, exec, bind in *.
  destruct (c w1) as [o1 w1'], (c w2) as [o2 w2']. cbn [fst snd] in *. subst o2.
  destruct o1 as [a | e |]; [| now split | now split].
  apply (Hk a w1' w2' Hs).
Qed.

Lemma store_local_forEach {A : Type} (f : A -> M unit) (l : list A) :
  (forall x, store_local (f x)) -> store_local (forEach f l).
Proof.
  intros Hf. induction l as [| x l IH]; simpl.
  - apply store_local_ret.
  - apply store_local_bind; [apply Hf | intros _; exact IH].
Qed.

Lemma store_local_writeFileSync (p : path) (j : json) : store_local (writeFileSync p j).
Proof.
  intros w1 w2 [Hf Hc]. split; [reflexivity |].
  unfold exec, writeFileSync, modify, same_store. cbn. now rewrite Hf, Hc.
Qed.

Lemma store_local_mutate_required (p : path) (j : json) :
  store_local (mutate_required p j).
Proof.
  intros w1 w2 [Hf Hc]. split; [reflexivity |].
  unfold exec, mutate_required, modify, same_store. cbn. now rewrite Hf, Hc.
Qed.

Lemma store_local_require (p : path) : store_local (require p).
Proof.
  intros w1 w2 [Hf Hc]. unfold outcome, exec, require, same_store.
  rewrite Hf, Hc. destruct (require_cache w2 !! p); [now split |].
  destruct (files w2 !! p) as [[j | s] |]; cbn; now rewrite ?Hf, ?Hc.
Qed.

Lemma store_local_add_file (this : Bundler) (b : Builder) (f : path) :
  store_local (add_file this b f).
Proof.
  unfold add_file. apply store_local_bind; [apply store_local_require |].
  intros [| | | | l | o]; try apply store_local_throw.
  - apply store_local_writeFileSync.
  - apply store_local_bind; [apply store_local_mutate_required |].
    intros _. apply store_local_writeFileSync.
Qed.

Lemma add_run (this : Bundler) (b : Builder) (w : World) :
  add this b w
  = forEach (add_file this b)
      (glob_json (dir b)
         (map (fun f => dir b ++ [f]) [config.TYPES_DICT; config.TOC]) (files w)) w.
Proof. reflexivity. Qed.

Lemma store_local_add (this : Bundler) (b : Builder) : store_local (add this b).
Proof.
  intros w1 w2 H. unfold outcome, exec. rewrite !add_run.
  destruct H as [Hf Hc]. rewrite Hf.
  apply (store_local_forEach (add_file this b) _ (store_local_add_file this b)).
  now split.
Qed.

Lemma visit_same_store (u : string) (w : World) : same_store (exec (visit u) w) w.
Proof. now split. Qed.

Lemma same_store_trans (w1 w2 w3 : World) :
  same_store w1 w2 -> same_store w2 w3 -> same_store w1 w3.
Proof. intros [? ?] [? ?]. split; congruence. Qed.

Lemma updateDep_loop_walk (b : Builder) (vs us : list string) (w w' : World) :
  same_store w w' ->
  outcome (updateDep_loop b vs us) w = Return tt ->
  checkouts (git_log (exec (updateDep_loop b vs us) w))
  = checkouts (git_log w)
    ++ map umbrella_tag (take (S (length (take_while (still_max b vs) us))) us)
  /\ same_store (exec (updateDep_loop b vs us) w)
       (exec (forEach (fun u => add (new_Bundler (inl u)) b)
                      (take_while (still_max b vs) us)) w').
Proof.
  revert w w'. induction us as [| u us IH]; intros w w' Hs Hret.
  { split; [cbn; now rewrite app_nil_r | exact Hs]. }
  unfold outcome, exec in *. rewrite updateDep_loop_cons in *.
  destruct (package_json (umbrella_tag u)) as [dependencies |] eqn:Hpkg;
    [| discriminate].
  destruct (findWhere (has_name (name b)) (scoped_deps dependencies)) as [dep |] eqn:Hdep;
    [| discriminate].
  rewrite <- (still_max_found b vs u _ _ Hpkg Hdep) in *.
  cbn [take_while]. destruct (still_max b vs u) eqn:Hu.
  - pose proof (add_same_repo (new_Bundler (inl u)) b (exec (visit u) w))
      as (_ & _ & _ & Hlog).
    pose proof (visit_checkouts u w) as Hvisit.
    pose proof (store_local_add (new_Bundler (inl u)) b (exec (visit u) w) w'
                  (same_store_trans _ _ _ (visit_same_store u w) Hs)) as [Ho Hst].
    remember (exec (visit u) w) as w0 eqn:Hw0. clear Hw0.
    unfold outcome, exec in Ho, Hst, Hlog. cbn [forEach]. unfold bind in *.
    destruct (add (new_Bundler (inl u)) b w0) as [[[] | e |] w1]; try discriminate.
    destruct (add (new_Bundler (inl u)) b w') as [o1' w1']. cbn [fst snd] in *.
    subst o1'. destruct (IH w1 w1' Hst Hret) as [Hlog' Hst']. split; [| exact Hst'].
    rewrite Hlog', Hlog, Hvisit. cbn. now rewrite <- app_assoc.
  - pose proof (visit_checkouts u w) as Hvisit.
    pose proof (visit_same_store u w) as Hstore.
    cbn [snd]. split.
    + rewrite Hvisit. cbn. now rewrite take_0.
    + now apply (same_store_trans _ w).
Qed.

(** C2, as amended: [updateDep] walks the recorded umbrella versions in the
    order of the list, from its head, where [updateManifest] puts the version
    recorded last, and never reaches the last entry.  When it returns, the
    versions it has checked out are those for which the builder's version is
    still the maximum satisfying the declared range, up to and with the
    first one for which it is not; and the files and loaded modules are those
    that [add] leaves when run for the former ones in that order. *)
Theorem updateDep_walks_recorded_order (b : Builder) (w : World) :
  outcome (updateDep b) w = Return tt ->
  let us := take (length (bundleVersions w) - 1) (bundleVersions w) in
  let good := take_while (still_max b (known_versions b w)) us in
  checkouts (git_log (exec (updateDep b) w))
  = checkouts (git_log w) ++ map umbrella_tag (take (S (length good)) us)
  /\ same_store (exec (updateDep b) w)
       (exec (forEach (fun u => add (new_Bundler (inl u)) b) good) w).
Proof.
  intros Hret. cbn zeta.
  destruct (isMaster b) eqn:Hm.
  { now destruct (updateDep_isMaster b w Hm) as [_ Hne]. }
  assert (Hfound : exists bc c,
            findWhere (has_id UMBRELLA_PACKAGE) (manifest w) = Some bc
            /\ findWhere (has_id (name b)) (manifest w) = Some c).
  { unfold outcome, updateDep in Hret. rewrite Hm in Hret.
    unfold bind, get_world in Hret.
    destruct (findWhere (has_id UMBRELLA_PACKAGE) (manifest w)) as [bc |];
      [| discriminate].
    destruct (findWhere (has_id (name b)) (manifest w)) as [c |]; [| discriminate].
    now exists bc, c. }
  destruct Hfound as (bc & c & Hbc & Hc).
  unfold outcome, exec in *. rewrite (updateDep_run b w bc c Hm Hbc Hc) in *.
  apply updateDep_loop_walk; [now split | exact Hret].
Qed.

(** [updateManifest] puts a version it records before those recorded
    earlier: the head of the list is the version recorded last. *)
Lemma updateManifest_prepends (this : Builder) (w : World) (c : ModuleEntry) :
  findWhere (has_id (name this)) (manifest w) = Some c ->
  version this ∉ versions c ->
  versions_of (name this) (manifest (exec (updateManifest this) w))
  = version this :: versions c.
Proof.
  intros Hc Hv. unfold exec. rewrite updateManifest_run.
  cbn [snd manifest set_files set_manifest]. unfold versions_of, updated_manifest.
  rewrite Hc, findWhere_alter_first by (intros; apply has_id_record_version).
  rewrite Hc. cbn. unfold record_version.
  destruct (not_recorded (version this) (versions c)) eqn:H; [reflexivity |].
  apply not_recorded_false in H. contradiction.
Qed.

(** ** Building the documents of a package *)

Lemma build_file_run (this : Builder) (f : string) (w : World) :
  build_file this f w =
    match parse_source (HEAD w) f with
    | inr j =>
        let doc := set_field "path" (JStr (basename_str (replace_to_src f +:+ "on"))) j in
        (Return doc,
         set_files (<[dir this ++ split_path (replace_to_src f +:+ "on") := FJson (JObj doc)]>
                      (files w)) w)
    | inl message => (Throw (parse_failure f message), w)
    end.
Proof.
  unfold build_file, parseFile, parse_source, bind, get_world.
  destruct (parser_parseFile _ _); reflexivity.
Qed.

Lemma mapM_app_Throw {A B : Type} (f : A -> M B) (done rest : list A) (x : A)
    (ys : list B) (e : JsError) (w w1 w2 : World) :
  mapM f done w = (Return ys, w1) -> f x w1 = (Throw e, w2) ->
  mapM f (done ++ x :: rest) w = (Throw e, w2).
Proof.
  revert w ys. induction done as [| d done IH]; intros w ys Hd Hx; simpl in *.
  - injection Hd as <- <-. unfold bind. now rewrite Hx.
  - unfold bind in *. destruct (f d w) as [[y | e' |] w']; try discriminate.
    destruct (mapM f done w') as [[ys' | e' |] w''] eqn:Hm; try discriminate.
    injection Hd as <- <-. now rewrite (IH _ _ Hm Hx).
Qed.

Lemma mapM_build_file_parsed (this : Builder) (fs : list string) (w : World) :
  (forall g, g ∈ fs -> exists j, parse_source (HEAD w) g = inr j) ->
  exists docs w1, mapM (build_file this) fs w = (Return docs, w1)
                  /\ HEAD w1 = HEAD w.
Proof.
  revert w. induction fs as [| g fs IH]; intros w Hfs; simpl.
  - now exists [], w.
  - destruct (Hfs g) as [j Hj]; [left |].
    unfold bind. rewrite build_file_run, Hj. cbn zeta.
    edestruct IH as (docs & w1 & Hm & Hh); [| rewrite Hm].
    + intros g' Hg'. cbn [HEAD set_files]. apply Hfs. now right.
    + eexists _, w1. split; [reflexivity | exact Hh].
Qed.

Lemma cp_markdown_Return (d : path) (w : World) :
  exists w1, cp_markdown d w = (Return tt, w1) /\ same_repo w w1
             /\ require_cache w1 = require_cache w.
Proof.
  unfold cp_markdown, bind, get_world. generalize (markdown (HEAD w)).
  intros mds. revert w. induction mds as [| md mds IH]; intros w; simpl.
  - exists w. split; [reflexivity | repeat split].
  - unfold bind. cbn [modify].
    destruct (IH (set_files (<[d ++ [md.1] := FText md.2]> (files w)) w))
      as (w1 & Hw1 & Hrepo & Hcache).
    exists w1. split; [exact Hw1 |].
    destruct Hrepo as (? & ? & ? & ?). repeat split; assumption.
Qed.

(** C7: when the parser fails on a source of the package, after the sources
    listed before it have parsed, [build] throws an error whose message
    names that source and carries the parser's own message; the world is the
    one left by copying the markdown and writing the documents of the earlier
    sources: the later sources are not parsed, and no dictionary and no table
    of contents is written. *)
Theorem build_aborts_on_parse_failure (fuel : nat) (this : Builder) (w : World)
    (done rest : list string) (f message : string) :
  globby_sources (HEAD w) (name this) = done ++ f :: rest ->
  (forall g, g ∈ done -> exists j, parse_source (HEAD w) g = inr j) ->
  parse_source (HEAD w) f = inl message ->
  build fuel this w
  = (Throw (Error ("Unable to generate docs for file: " +:+ f
                   +:+ ". Reason: " +:+ message)),
     exec (cp_markdown (dir this) ;; mapM (build_file this) done) w).
Proof.
  intros Hglob Hdone Hf.
  destruct (cp_markdown_Return (dir this) w) as (w0 & Hcp & (_ & Hhead & _) & _).
  rewrite <- Hhead in Hdone, Hf.
  destruct (mapM_build_file_parsed this done w0 Hdone) as (docs & w1 & Hm & Hh).
  assert (Hthrow : build_file this f w1 = (Throw (parse_failure f message), w1))
    by (now rewrite build_file_run, Hh, Hf).
  assert (Hrhs : exec (cp_markdown (dir this) ;; mapM (build_file this) done) w = w1).
  { unfold exec, bind. now rewrite Hcp, Hm. }
  rewrite Hrhs. unfold build, build_with.
  unfold bind at 1. cbn [mkdir_p ret]. unfold bind at 1.
  rewrite Hcp. unfold bind at 1. cbn [get_world].
  rewrite Hhead, Hglob. unfold bind at 1.
  now rewrite (mapM_app_Throw _ _ rest _ _ _ _ _ _ Hm Hthrow).
Qed.

(** ** The combined dictionary of a bundle *)

Lemma prefix_types_ok (n : string) (ts ts' : list json) :
  prefix_types n ts = (ts', true) -> ts' = map (prefix_entry n) ts.
Proof.
  revert ts'. induction ts as [| t ts IH]; intros ts'; simpl.
  - now intros [= <-].
  - unfold prefix_entry at 1.
    destruct (prefix_contents n t) as [t' |]; [| discriminate].
    destruct (prefix_types n ts) as [r ok]. intros [= <- ->].
    simpl. f_equal. now apply IH.
Qed.

Lemma mapM_build_file_docs (this : Builder) (fs : list string) (docs : list obj)
    (w w1 : World) :
  mapM (build_file this) fs w = (Return docs, w1) ->
  docs = omap (document (HEAD w)) fs
  /\ same_repo w w1 /\ require_cache w1 = require_cache w.
Proof.
  revert w docs. induction fs as [| g fs IH]; intros w docs; simpl.
  - intros [= <- <-]. repeat split.
  - unfold bind. rewrite build_file_run. unfold document.
    destruct (parse_source (HEAD w) g) as [message | j]; [discriminate |].
    cbn zeta.
    destruct (mapM (build_file this) fs _) as [[docs' | e |] w2] eqn:Hm;
      try discriminate.
    intros [= <- <-]. destruct (IH _ _ Hm) as (Hdocs & (? & ? & ? & ?) & Hc).
    cbn [HEAD manifest PREV git_log require_cache set_files] in *.
    split; [now rewrite Hdocs |]. repeat split; assumption.
Qed.

Lemma basename_app (d : path) (x : string) : basename (d ++ [x]) = x.
Proof. unfold basename. apply last_last. Qed.

(** The build of a package other than the umbrella package: the
    dictionary is in its [types.json]; the repository and the loaded modules
    are as before. *)
Lemma build_with_plain (bundle' : Bundler -> M unit) (this : Builder) (w w1 : World) :
  isUmbrella this = false ->
  build_with bundle' this w = (Return tt, w1) ->
  same_repo w w1 /\ require_cache w1 = require_cache w
  /\ files w1 !! (dir this ++ [config.TYPES_DICT])
     = Some (FJson (JArr (dictionary (HEAD w) (name this)))).
Proof.
  intros Hu. unfold build_with. rewrite Hu.
  unfold bind at 1. cbn [mkdir_p ret]. unfold bind at 1.
  destruct (cp_markdown_Return (dir this) w)
    as (w0 & Hcp & (Hm0 & Hh0 & Hp0 & Hl0) & Hc0).
  rewrite Hcp. unfold bind at 1. cbn [get_world]. unfold bind at 1.
  destruct (mapM (build_file this) _ w0) as [[docs | e |] w2] eqn:Hmap;
    try discriminate.
  destruct (mapM_build_file_docs _ _ _ _ _ Hmap) as (Hdocs & (Hm2 & Hh2 & Hp2 & Hl2) & Hc2).
  unfold bind, write, writeFileSync, modify, ret. intros [= <-].
  unfold same_repo.
  cbn [manifest files require_cache HEAD PREV git_log set_files].
  split; [repeat split; congruence |]. split; [congruence |].
  rewrite lookup_insert_ne by (intros H; apply app_inv_head in H; discriminate).
  rewrite lookup_insert_eq. unfold dictionary, documents.
  now rewrite Hdocs, Hh0.
Qed.

Lemma preserves_forEach_in {A : Type} (R : relation World) `{!PreOrder R}
    (f : A -> M unit) (l : list A) :
  (forall x, x ∈ l -> preserves R (f x)) -> preserves R (forEach f l).
Proof.
  induction l as [| x l IH]; intros Hf; simpl.
  - now apply preserves_ret.
  - apply preserves_bind; [assumption | apply Hf; left |].
    intros _. apply IH. intros y Hy. apply Hf. now right.
Qed.

#[local] Instance cache_outside_preorder (region : path -> Prop) :
  PreOrder (cache_outside region).
Proof.
  split.
  - intros w p _. reflexivity.
  - intros w1 w2 w3 H12 H23 p Hp. rewrite (H23 p Hp). now apply H12.
Qed.

Lemma writeFileSync_cache_outside (region : path -> Prop) (p : path) (j : json) :
  preserves (cache_outside region) (writeFileSync p j).
Proof. intros w q _. reflexivity. Qed.

Lemma require_cache_outside (region : path -> Prop) (p : path) :
  region p -> preserves (cache_outside region) (require p).
Proof.
  intros Hp w q Hq. unfold exec, require.
  destruct (require_cache w !! p); [reflexivity |].
  destruct (files w !! p) as [[j | s] |]; try reflexivity.
  cbn. apply lookup_insert_ne. intros ->. contradiction.
Qed.

Lemma mutate_required_cache_outside (region : path -> Prop) (p : path) (j : json) :
  region p -> preserves (cache_outside region) (mutate_required p j).
Proof.
  intros Hp w q Hq. cbn. apply lookup_insert_ne. intros ->. contradiction.
Qed.

Lemma add_file_cache_outside (region : path -> Prop) (this : Bundler) (b : Builder)
    (f : path) :
  region f -> preserves (cache_outside region) (add_file this b f).
Proof.
  intros Hf. unfold add_file.
  apply preserves_bind; [apply _ | now apply require_cache_outside |].
  intros [| | | | l | o]; try apply preserves_throw; try apply _.
  - apply writeFileSync_cache_outside.
  - apply preserves_bind; [apply _ | now apply mutate_required_cache_outside |].
    intros _. apply writeFileSync_cache_outside.
Qed.

Lemma glob_json_elem (d : path) (ignore : list path) (fs : gmap path file) (f : path) :
  f ∈ glob_json d ignore fs -> f = d ++ [basename f] /\ f ∉ ignore.
Proof.
  unfold glob_json. rewrite list_elem_of_In, filter_In.
  intros [_ H]. apply andb_prop in H as [H Hign]. apply andb_prop in H as [Hd _].
  apply bool_decide_eq_true in Hd. apply negb_true_iff, bool_decide_eq_false in Hign.
  now split.
Qed.

(** [add] loads and changes no dictionary: the files it takes are not named
    [types.json]. *)
Lemma add_cache_outside (this : Bundler) (b : Builder) :
  preserves (cache_outside (fun p => basename p <> config.TYPES_DICT)) (add this b).
Proof.
  intros w. unfold exec. rewrite add_run.
  apply (preserves_forEach_in (cache_outside _)). intros f Hf.
  apply add_file_cache_outside. intros Hbase.
  apply glob_json_elem in Hf as [Hd Hign]. apply Hign.
  rewrite Hd, Hbase. left.
Qed.

Lemma dep_types_json_parts (dep : ResolvedDep) :
  dep_types_json dep
  = (submodule_cwd ++ ["docs"])
    ++ ["json"; rdep_name dep; version_or_default (rdep_version dep); config.TYPES_DICT].
Proof.
  unfold dep_types_json, dep_builder, new_Builder, DOCS_ROOT. cbn [dir default].
  now rewrite <- !app_assoc.
Qed.

Lemma dep_types_json_not_added (v : option string) (cwd : option path)
    (dep : ResolvedDep) :
  ~ added_to (new_Bundler (inr (new_Builder UMBRELLA_PACKAGE v cwd)))
      (dep_builder dep) (dep_types_json dep).
Proof.
  intros [x Hx]. rewrite dep_types_json_parts in Hx.
  assert (Hadded : dir (builder (new_Bundler (inr (new_Builder UMBRELLA_PACKAGE v cwd))))
                     ++ [name (dep_builder dep); x]
                   = (default [] cwd ++ ["docs"; "json"])
                     ++ [UMBRELLA_PACKAGE; version_or_default v; rdep_name dep; x]).
  { unfold new_Bundler, new_Builder, dep_builder, DOCS_ROOT.
    cbn [dir builder name]. now rewrite <- !app_assoc. }
  rewrite Hadded in Hx. apply app_inj_2 in Hx; [| reflexivity].
  destruct Hx as [_ Hx]. discriminate Hx.
Qed.

Lemma bundle_dep_run (bundle' : Bundler -> M unit) (v : option string)
    (cwd : option path) (dep : ResolvedDep) (w w1 : World) (ts : list json) :
  rdep_name dep <> UMBRELLA_PACKAGE ->
  require_cache w !! dep_types_json dep = None ->
  bundle_dep (build_with bundle')
    (new_Bundler (inr (new_Builder UMBRELLA_PACKAGE v cwd))) dep w = (Return ts, w1) ->
  ts = map (prefix_entry (rdep_name dep)) (dictionary (HEAD w) (rdep_name dep))
  /\ HEAD w1 = HEAD w
  /\ (forall p, basename p = config.TYPES_DICT -> p <> dep_types_json dep ->
        require_cache w1 !! p = require_cache w !! p).
Proof.
  intros Hname Hfresh. unfold bundle_dep. fold (dep_builder dep).
  set (this := new_Bundler (inr (new_Builder UMBRELLA_PACKAGE v cwd))).
  set (b := dep_builder dep).
  assert (Hplain : isUmbrella b = false).
  { subst b. unfold dep_builder, new_Builder. cbn [isUmbrella].
    now apply String.eqb_neq. }
  unfold bind at 1. cbn [git_command modify].
  set (wa := {| manifest := manifest w; files := files w;
                require_cache := require_cache w; HEAD := HEAD w; PREV := PREV w;
                git_log := git_log w ++ [SubmoduleCheckout (getTagName b)] |}).
  unfold bind at 1.
  destruct (build_with bundle' b wa) as [[[] | e |] wb] eqn:Hbuild; try discriminate.
  destruct (build_with_plain _ _ _ _ Hplain Hbuild) as ((_ & Hhb & _ & _) & Hcb & Hfb).
  cbn [HEAD require_cache wa] in Hhb, Hcb, Hfb. change (name b) with (rdep_name dep) in Hfb.
  pose proof (add_same_repo this b wb) as (_ & Hhc & _ & _).
  pose proof (add_files_outside this b wb (dep_types_json dep)
                (dep_types_json_not_added v cwd dep)) as Hfc.
  pose proof (add_cache_outside this b wb) as Hcc.
  unfold exec in Hhc, Hfc, Hcc. unfold bind at 1.
  destruct (add this b wb) as [[[] | e |] wc] eqn:Hadd; try discriminate.
  cbn [snd] in Hhc, Hfc, Hcc.
  assert (Hmiss : require_cache wc !! dep_types_json dep = None).
  { rewrite Hcc; [now rewrite Hcb |]. intros H. apply H. apply basename_app. }
  unfold bind at 1, getTypes, require.
  change (dir b ++ [config.TYPES_DICT]) with (dep_types_json dep) in *.
  rewrite Hmiss, Hfc, Hfb.
  destruct (prefix_types (rdep_name dep) (dictionary (HEAD w) (rdep_name dep)))
    as [ts' ok] eqn:Hprefix.
  unfold bind, mutate_required, modify. destruct ok; [| discriminate].
  intros [= <- <-]. split; [now apply prefix_types_ok |].
  cbn [HEAD require_cache set_require_cache]. split; [congruence |].
  intros p Hbase Hp. rewrite !lookup_insert_ne by congruence.
  rewrite Hcc by (intros H; now apply H). now rewrite Hcb.
Qed.

Lemma dep_types_json_name (d d' : ResolvedDep) :
  dep_types_json d = dep_types_json d' -> rdep_name d = rdep_name d'.
Proof.
  rewrite !dep_types_json_parts. intros H. apply app_inv_head in H. congruence.
Qed.

Lemma mapM_bundle_dep (bundle' : Bundler -> M unit) (v : option string)
    (cwd : option path) (rdeps : list ResolvedDep) (w w1 : World)
    (tss : list (list json)) :
  NoDup (map rdep_name rdeps) ->
  UMBRELLA_PACKAGE ∉ map rdep_name rdeps ->
  (forall d, d ∈ rdeps -> require_cache w !! dep_types_json d = None) ->
  mapM (bundle_dep (build_with bundle')
          (new_Bundler (inr (new_Builder UMBRELLA_PACKAGE v cwd)))) rdeps w
  = (Return tss, w1) ->
  tss = map (fun d => map (prefix_entry (rdep_name d))
                          (dictionary (HEAD w) (rdep_name d))) rdeps.
Proof.
  revert w tss. induction rdeps as [| d rdeps IH]; intros w tss Hnodup Humb Hfresh; simpl.
  - now intros [= <- <-].
  - unfold bind at 1.
    destruct (bundle_dep _ _ d w) as [[ts | e |] w2] eqn:Hdep; try discriminate.
    simpl in Hnodup, Humb. apply NoDup_cons in Hnodup as [Hd Hnodup].
    apply not_elem_of_cons in Humb as [Hne Humb].
    destruct (bundle_dep_run _ _ _ _ _ _ _ (not_eq_sym Hne) (Hfresh d ltac:(left)) Hdep)
      as (Hts & Hhead & Hcache).
    unfold bind.
    destruct (mapM _ rdeps w2) as [[tss' | e |] w3] eqn:Hrest; try discriminate.
    intros [= <- <-]. rewrite Hts. f_equal.
    rewrite <- Hhead. apply (IH w2 tss' Hnodup Humb); [| exact Hrest].
    intros d' Hd'. rewrite Hcache.
    + apply Hfresh. now right.
    + apply basename_app.
    + intros Heq. apply dep_types_json_name in Heq. apply Hd.
      rewrite <- Heq. now apply list_elem_of_fmap_2.
Qed.

Lemma mapM_resolve_dep (deps : list Dep) (rdeps : list ResolvedDep) (w w1 : World) :
  mapM resolve_dep deps w = (Return rdeps, w1) ->
  w1 = w /\ map rdep_name rdeps = map dep_name deps.
Proof.
  revert rdeps w1. induction deps as [| d deps IH]; intros rdeps w1; simpl.
  - now intros [= <- <-].
  - unfold bind at 1, resolve_dep at 1, bind at 1, get_world.
    destruct (findWhere (has_id (dep_name d)) (manifest w)) as [c |]; [| discriminate].
    cbn [ret]. unfold bind.
    destruct (mapM resolve_dep deps w) as [[rdeps' | e |] w2]; try discriminate.
    destruct (IH rdeps' w2 eq_refl) as [-> Hnames].
    intros [= <- <-]. split; [reflexivity |]. simpl. now rewrite Hnames.
Qed.

Lemma umbrella_types_json_not_dep (v : option string) (cwd : option path)
    (d : ResolvedDep) :
  rdep_name d <> UMBRELLA_PACKAGE ->
  dep_types_json d
  <> dir (new_Builder UMBRELLA_PACKAGE v cwd) ++ [config.TYPES_DICT].
Proof.
  intros Hne H. rewrite dep_types_json_parts in H.
  assert (Hu : dir (new_Builder UMBRELLA_PACKAGE v cwd) ++ [config.TYPES_DICT]
               = (default [] cwd ++ ["docs"])
                 ++ ["json"; UMBRELLA_PACKAGE; version_or_default v; config.TYPES_DICT]).
  { unfold new_Builder, DOCS_ROOT. cbn [dir]. now rewrite <- !app_assoc. }
  rewrite Hu in H. apply app_inj_2 in H; [| reflexivity].
  destruct H as [_ H]. congruence.
Qed.

(** *** An umbrella package that depends on itself *)

#[local] Instance same_head_preorder : PreOrder same_head.
Proof.
  split.
  - intros w. reflexivity.
  - intros w1 w2 w3 H12 H23. unfold same_head in *. congruence.
Qed.

Lemma same_repo_same_head {A : Type} (c : M A) :
  preserves same_repo c -> preserves same_head c.
Proof. intros H w. now destruct (H w) as (_ & Hh & _). Qed.

Lemma modify_same_head (f : World -> World) :
  (forall w, HEAD (f w) = HEAD w) -> preserves same_head (modify f).
Proof. intros H w. apply H. Qed.

Lemma build_file_same_head (this : Builder) (f : string) :
  preserves same_head (build_file this f).
Proof.
  intros w. unfold exec. rewrite build_file_run.
  now destruct (parse_source (HEAD w) f).
Qed.

Lemma build_with_same_head (bundle' : Bundler -> M unit) (this : Builder) :
  (forall bd, preserves same_head (bundle' bd)) ->
  preserves same_head (build_with bundle' this).
Proof.
  intros Hb. unfold build_with, mkdir_p, cp_markdown, write.
  repeat first
    [ apply preserves_ret; apply _
    | apply preserves_get_world; apply _
    | apply preserves_forEach; [apply _ | intros ?]
    | apply preserves_mapM; [apply _ | intros ?]
    | apply build_file_same_head
    | apply modify_same_head; reflexivity
    | apply same_repo_same_head, writeFileSync_same_repo
    | apply preserves_bind; [apply _ | | intros ?] ].
  destruct (isUmbrella this); [apply Hb | apply preserves_ret; apply _].
Qed.

Lemma bundle_dep_same_head (build' : Builder -> M unit) (this : Bundler)
    (dep : ResolvedDep) :
  (forall b, preserves same_head (build' b)) ->
  preserves same_head (bundle_dep build' this dep).
Proof.
  intros Hb. unfold bundle_dep, getTypes.
  apply preserves_bind; [apply _ | apply modify_same_head; reflexivity | intros _].
  apply preserves_bind; [apply _ | apply Hb | intros _].
  apply preserves_bind; [apply _ | apply same_repo_same_head, add_same_repo | intros _].
  apply preserves_bind; [apply _ | apply same_repo_same_head, require_same_repo |].
  intros [| | | | ts | o]; try (apply preserves_throw; apply _).
  destruct (prefix_types (rdep_name dep) ts) as [ts' ok].
  apply preserves_bind; [apply _ | apply modify_same_head; reflexivity | intros _].
  destruct ok; [apply preserves_ret | apply preserves_throw]; apply _.
Qed.

Lemma resolve_dep_same_head (dep : Dep) : preserves same_head (resolve_dep dep).
Proof.
  intros w. unfold exec, resolve_dep, bind, get_world.
  now destruct (findWhere (has_id (dep_name dep)) (manifest w)).
Qed.

Lemma getDeps_same_head : preserves same_head getDeps.
Proof.
  intros w. unfold exec, getDeps, bind, get_world.
  now destruct (package_json (HEAD w)).
Qed.

Lemma bundle_with_same_head (build' : Builder -> M unit) (this : Bundler) :
  (forall b, preserves same_head (build' b)) ->
  preserves same_head (bundle_with build' this).
Proof.
  intros Hb. unfold bundle_with, getTypes, write.
  apply preserves_bind; [apply _ | apply same_repo_same_head, require_same_repo |].
  intros base.
  apply preserves_bind; [apply _ | apply getDeps_same_head | intros deps].
  apply preserves_bind;
    [apply _ | apply preserves_mapM; [apply _ | apply resolve_dep_same_head] |].
  intros rdeps.
  apply preserves_bind; [apply _ | apply modify_same_head; reflexivity | intros _].
  apply preserves_bind;
    [apply _ | apply preserves_mapM; [apply _ | intros d; now apply bundle_dep_same_head] |].
  intros tss. destruct base; try (apply preserves_throw; apply _).
  apply preserves_bind;
    [apply _ | apply same_repo_same_head, writeFileSync_same_repo | intros _].
  apply preserves_bind;
    [apply _ | apply same_repo_same_head, writeFileSync_same_repo | intros _].
  apply modify_same_head. reflexivity.
Qed.

Lemma bundle_same_head (fuel : nat) (this : Bundler) :
  preserves same_head (bundle fuel this).
Proof.
  revert this. induction fuel as [| fuel IH]; intros this.
  - intros w. reflexivity.
  - cbn [bundle]. apply bundle_with_same_head. intros b.
    now apply build_with_same_head.
Qed.

Lemma build_with_umbrella (bundle' : Bundler -> M unit) (this : Builder)
    (w w1 : World) :
  isUmbrella this = true ->
  build_with bundle' this w = (Return tt, w1) ->
  exists w0, HEAD w0 = HEAD w /\ bundle' (new_Bundler (inr this)) w0 = (Return tt, w1).
Proof.
  intros Hu. unfold build_with. rewrite Hu.
  unfold bind at 1. cbn [mkdir_p ret]. unfold bind at 1.
  destruct (cp_markdown_Return (dir this) w) as (w0 & Hcp & (_ & Hh0 & _) & _).
  rewrite Hcp. unfold bind at 1. cbn [get_world]. unfold bind at 1.
  destruct (mapM (build_file this) _ w0) as [[docs | e |] w2] eqn:Hmap;
    try discriminate.
  destruct (mapM_build_file_docs _ _ _ _ _ Hmap) as (_ & (_ & Hh2 & _) & _).
  unfold bind, write, writeFileSync, modify. intros H.
  eexists. split; [| exact H]. cbn [HEAD set_files]. congruence.
Qed.

Lemma mapM_bundle_dep_self (fuel : nat) (this : Bundler) (rdeps : list ResolvedDep)
    (w : World) :
  (forall bd w0, UMBRELLA_PACKAGE ∈ bundled_names (HEAD w0) ->
                 outcome (bundle fuel bd) w0 <> Return tt) ->
  UMBRELLA_PACKAGE ∈ bundled_names (HEAD w) ->
  UMBRELLA_PACKAGE ∈ map rdep_name rdeps ->
  forall tss, outcome (mapM (bundle_dep (build_with (bundle fuel)) this) rdeps) w
              <> Return tss.
Proof.
  intros IH. revert w. induction rdeps as [| d rdeps IHd]; intros w Hw Hin tss.
  { inversion Hin. }
  unfold outcome. simpl. unfold bind at 1.
  pose proof (bundle_dep_same_head (build_with (bundle fuel)) this d
                (fun b => build_with_same_head _ b (bundle_same_head fuel)) w) as Hhead.
  unfold exec, same_head in Hhead.
  destruct (bundle_dep _ this d w) as [[ts | e |] w2] eqn:Hdep; try discriminate.
  cbn [snd] in Hhead.
  destruct (decide (rdep_name d = UMBRELLA_PACKAGE)) as [Hd | Hd].
  - exfalso. revert Hdep. unfold bundle_dep.
    unfold bind at 1. cbn [git_command modify]. unfold bind at 1.
    match goal with
    | |- context [build_with (bundle fuel) ?b ?w0] =>
        destruct (build_with (bundle fuel) b w0) as [[[] | e |] w3] eqn:Hbuild;
        try discriminate;
        apply build_with_umbrella in Hbuild as (w4 & Hh4 & Hbundle)
    end.
    + intros _. eapply (IH _ w4); [now rewrite Hh4 | unfold outcome; now rewrite Hbundle].
    + cbn [isUmbrella new_Builder]. rewrite Hd. apply String.eqb_refl.
  - simpl in Hin. apply elem_of_cons in Hin as [Hin | Hin]; [congruence |].
    unfold bind.
    specialize (IHd w2 ltac:(now rewrite Hhead) Hin).
    unfold outcome in IHd.
    destruct (mapM _ rdeps w2) as [[tss' | e |] w3]; try discriminate.
    exfalso. now apply (IHd tss').
Qed.

(** An umbrella package that lists itself among its dependencies is never
    bundled: bundling builds it, and building it bundles it again. *)
Lemma bundle_self_dependent (fuel : nat) (this : Bundler) (w : World) :
  UMBRELLA_PACKAGE ∈ bundled_names (HEAD w) ->
  outcome (bundle fuel this) w <> Return tt.
Proof.
  revert this w. induction fuel as [| fuel IH]; intros this w Hin; [discriminate |].
  unfold outcome. cbn [bundle]. unfold bundle_with.
  unfold bind at 1.
  pose proof (require_same_repo (dir (builder this) ++ [config.TYPES_DICT]) w)
    as (_ & Hha & _).
  unfold exec in Hha. unfold getTypes.
  destruct (require _ w) as [[base | e |] wa]; try discriminate. cbn [snd] in Hha.
  unfold bind at 1, getDeps at 1, bind at 1, get_world.
  unfold bundled_names in Hin. rewrite Hha.
  destruct (package_json (HEAD w)) as [dependencies |] eqn:Hpkg; [| inversion Hin].
  cbn [ret]. unfold bind at 1.
  destruct (mapM resolve_dep (scoped_deps dependencies) wa) as [[rdeps | e |] wb] eqn:Hres;
    try discriminate.
  apply mapM_resolve_dep in Hres as [-> Hnames].
  unfold bind at 1. cbn [git_command modify]. unfold bind at 1.
  match goal with
  | |- context [mapM _ rdeps ?w0] => set (wc := w0)
  end.
  pose proof (mapM_bundle_dep_self fuel this rdeps wc IH) as Hself.
  unfold outcome in Hself.
  destruct (mapM _ rdeps wc) as [[tss | e |] wd]; try discriminate.
  exfalso. apply (Hself ltac:(unfold bundled_names; subst wc; cbn [HEAD]; now rewrite Hha, Hpkg)
                        ltac:(now rewrite Hnames) tss).
  reflexivity.
Qed.

(** The first bundle of a process: when no dictionary has been loaded yet,
    and the dependencies of the umbrella package have distinct names, the
    dictionary a returning [bundle] writes to the umbrella's [types.json] is
    the dictionary that file held before, entry for entry as it was, followed
    by the dictionary of each dependency, in the order of [getDeps], with the
    [contents] of every entry below the name of the dependency. *)
Theorem bundle_types_dictionary (fuel : nat) (v : option string)
    (cwd : option path) (w w' : World) :
  let this := new_Bundler (inr (new_Builder UMBRELLA_PACKAGE v cwd)) in
  let types_json := dir (builder this) ++ [config.TYPES_DICT] in
  no_dictionary_loaded w ->
  NoDup (bundled_names (HEAD w)) ->
  bundle fuel this w = (Return tt, w') ->
  exists baseTypes,
    files w !! types_json = Some (FJson (JArr baseTypes))
    /\ files w' !! types_json
       = Some (FJson (JArr (baseTypes
                 ++ flat_map (fun n => map (prefix_entry n) (dictionary (HEAD w) n))
                             (bundled_names (HEAD w))))).
Proof.
  cbn zeta. intros Hfresh Hnodup Hret.
  assert (Humb : UMBRELLA_PACKAGE ∉ bundled_names (HEAD w)).
  { intros Hin. eapply (bundle_self_dependent fuel _ w Hin).
    unfold outcome. now rewrite Hret. }
  destruct fuel as [| fuel]; [discriminate Hret |].
  revert Hret. cbn [builder new_Bundler bundle].
  set (ub := new_Builder UMBRELLA_PACKAGE v cwd).
  unfold bundle_with. cbn [builder].
  unfold bind at 1, getTypes, require.
  rewrite (Hfresh (dir ub ++ [config.TYPES_DICT])) by apply basename_app.
  destruct (files w !! (dir ub ++ [config.TYPES_DICT])) as [[base | s] |] eqn:Hbase;
    try discriminate.
  set (wa := set_require_cache _ w).
  unfold bind at 1, getDeps at 1, bind at 1, get_world.
  change (HEAD wa) with (HEAD w). unfold bundled_names in *.
  destruct (package_json (HEAD w)) as [dependencies |]; [| discriminate].
  cbn [ret]. unfold bind at 1.
  destruct (mapM resolve_dep (scoped_deps dependencies) wa) as [[rdeps | e |] wb] eqn:Hres;
    try discriminate.
  apply mapM_resolve_dep in Hres as [-> Hnames].
  rewrite <- Hnames in *.
  unfold bind at 1. cbn [git_command modify]. unfold bind at 1.
  match goal with
  | |- context [mapM _ rdeps ?w0] => set (wc := w0)
  end.
  destruct (mapM _ rdeps wc) as [[tss | e |] wd] eqn:Hdeps; try discriminate.
  apply mapM_bundle_dep in Hdeps; [| assumption | assumption |].
  - destruct base as [| | | | baseTypes | o]; try discriminate.
    unfold bind, write, writeFileSync, modify, git_command. intros [= <-].
    exists baseTypes. split; [reflexivity |].
    cbn [files set_files].
    rewrite lookup_insert_ne by (intros H; apply app_inv_head in H; discriminate).
    rewrite lookup_insert_eq. do 3 f_equal. rewrite Hdeps.
    change (HEAD wc) with (HEAD w).
    rewrite flat_map_concat_map, map_map. reflexivity.
  - intros d Hd. subst wc wa. cbn [require_cache set_require_cache].
    rewrite lookup_insert_ne.
    + apply Hfresh. unfold dep_types_json. apply basename_app.
    + apply not_eq_sym, umbrella_types_json_not_dep.
      intros Heq. apply Humb. rewrite <- Heq. now apply list_elem_of_fmap_2.
Qed.

(** ** The two ways to make a [Bundler] *)

(** C9: a [Bundler] made from a version string is the [Bundler] made from
    the umbrella [Builder] of that version, and so [add], [getDeps] and
    [bundle] do the same on both. *)
Theorem Bundler_of_version_string (v : string) :
  let shorthand := new_Bundler (inl v) in
  let explicit := new_Bundler (inr (new_Builder UMBRELLA_PACKAGE (Some v) None)) in
  shorthand = explicit
  /\ (forall b, add shorthand b = add explicit b)
  /\ (forall fuel, bundle fuel shorthand = bundle fuel explicit).
Proof.
  cbn zeta. assert (H : new_Bundler (inl v)
    = new_Bundler (inr (new_Builder UMBRELLA_PACKAGE (Some v) None))) by reflexivity.
  split; [exact H |]. split; intros; now rewrite H.
Qed.

(** ** The sort of the manifest does not depend on the algorithm *)

Lemma may_precede_iff (a b : ModuleEntry) :
  may_precede a b <->
  has_id UMBRELLA_PACKAGE a = true
  \/ (has_id UMBRELLA_PACKAGE a = false /\ has_id UMBRELLA_PACKAGE b = false
      /\ String.le (mod_id a) (mod_id b)).
Proof.
  unfold may_precede, sortByModId, has_id, String.le, String.ltb, String.leb.
  destruct (String.eqb (mod_id a) UMBRELLA_PACKAGE);
    [split; [now left | intros _; cbn; lia] |].
  destruct (String.eqb (mod_id b) UMBRELLA_PACKAGE).
  { split; [cbn; lia | intros [H | (_ & H & _)]; discriminate]. }
  rewrite (String.compare_antisym (mod_id a) (mod_id b)).
  destruct (String.compare (mod_id b) (mod_id a)) eqn:Hcmp; cbn.
  - apply String.compare_eq_iff in Hcmp. rewrite Hcmp, String.eqb_refl. cbn.
    split; [intros _; right; repeat split | intros _; lia].
  - split; [lia | intros [H | (_ & _ & H)]; [discriminate | contradiction]].
  - destruct (String.eqb (mod_id a) (mod_id b)); cbn;
      (split; [intros _; right; repeat split | intros _; lia]).
Qed.

Lemma may_precede_trans (a b c : ModuleEntry) :
  may_precede a b -> may_precede b c -> may_precede a c.
Proof.
  rewrite !may_precede_iff.
  intros [Ha | (Ha & Hb & Hab)]; [now left |].
  intros [Hb' | (_ & Hc & Hbc)]; [congruence |].
  right. repeat split; try assumption. now transitivity (mod_id b).
Qed.

Lemma may_precede_total (a b : ModuleEntry) : ~ may_precede a b -> may_precede b a.
Proof.
  rewrite !may_precede_iff. intros H.
  destruct (has_id UMBRELLA_PACKAGE a) eqn:Ha; [destruct H; now left |].
  destruct (has_id UMBRELLA_PACKAGE b) eqn:Hb; [now left |].
  right. repeat split.
  destruct (total String.le (mod_id a) (mod_id b)) as [Hle | Hle]; [| exact Hle].
  destruct H. right. now repeat split.
Qed.

Lemma may_precede_antisym (a b : ModuleEntry) :
  may_precede a b -> may_precede b a -> mod_id a = mod_id b.
Proof.
  rewrite !may_precede_iff. unfold has_id.
  intros [Ha | (Ha & Hb & Hab)] [Hb' | (Hb' & Ha' & Hba)]; try congruence.
  - apply String.eqb_eq in Ha, Hb'. congruence.
  - now apply (anti_symm String.le).
Qed.

Lemma sorted_insert_sorted (x : ModuleEntry) (l : list ModuleEntry) :
  StronglySorted may_precede l ->
  StronglySorted may_precede (sorted_insert sortByModId x l).
Proof.
  induction 1 as [| y l Hl IH Hy]; simpl; [repeat constructor |].
  destruct (sortByModId x y <=? 0)%Z eqn:Hxy.
  - apply Z.leb_le in Hxy. constructor; [now constructor |].
    constructor; [exact Hxy |].
    eapply Forall_impl; [exact Hy |]. intros z Hz.
    now apply (may_precede_trans x y z).
  - apply Z.leb_gt in Hxy. constructor; [exact IH |].
    rewrite sorted_insert_perm. constructor; [| exact Hy].
    apply may_precede_total. unfold may_precede. lia.
Qed.

Lemma array_sort_sorted (l : list ModuleEntry) :
  StronglySorted may_precede (array_sort sortByModId l).
Proof.
  induction l as [| x l IH]; simpl; [constructor | now apply sorted_insert_sorted].
Qed.

Lemma NoDup_ids_eq (l : list ModuleEntry) (a b : ModuleEntry) :
  NoDup (map mod_id l) -> a ∈ l -> b ∈ l -> mod_id a = mod_id b -> a = b.
Proof.
  induction l as [| c l IH]; simpl; intros Hnd Ha Hb Hid; [inversion Ha |].
  apply NoDup_cons in Hnd as [Hc Hnd].
  apply elem_of_cons in Ha as [-> | Ha]; apply elem_of_cons in Hb as [-> | Hb].
  - reflexivity.
  - destruct Hc. rewrite Hid. now apply list_elem_of_fmap_2.
  - destruct Hc. rewrite <- Hid. now apply list_elem_of_fmap_2.
  - now apply IH.
Qed.

(** For modules with distinct ids, any reordering of the list that
    [sortByModId] accepts as sorted is the list [array_sort] returns: whatever
    algorithm the engine runs, [manifest.modules.sort(sortByModId)] has this
    one result. *)
Lemma array_sort_unique (l l' : list ModuleEntry) :
  NoDup (map mod_id l) -> l' ≡ₚ l -> StronglySorted may_precede l' ->
  l' = array_sort sortByModId l.
Proof.
  intros Hnd Hperm Hsorted.
  apply (StronglySorted_unique_strong may_precede);
    [| exact Hsorted | apply array_sort_sorted | now rewrite array_sort_perm].
  intros a b Ha Hb Hab Hba. apply (NoDup_ids_eq l); [assumption | | |].
  - now rewrite <- Hperm.
  - now rewrite <- (array_sort_perm sortByModId l).
  - now apply may_precede_antisym.
Qed.

(** Ids stay distinct under [updateManifest], so every manifest it builds
    from the empty one is sorted the same way by every engine. *)
Lemma updated_manifest_NoDup_ids (this : Builder) (m : list ModuleEntry) :
  NoDup (map mod_id m) -> NoDup (map mod_id (updated_manifest this m)).
Proof.
  intros Hnd. unfold updated_manifest.
  rewrite alter_first_ids by (intros; apply mod_id_record_version).
  destruct (findWhere (has_id (name this)) m) as [c |] eqn:Hfind; [exact Hnd |].
  rewrite (array_sort_perm sortByModId (m ++ [new_config this])).
  rewrite map_app. apply NoDup_app. split; [exact Hnd |]. split.
  - intros n Hn Hnew. cbn in Hnew. apply list_elem_of_singleton in Hnew. subst n.
    apply list_elem_of_fmap in Hn as (c & Hid & Hc).
    apply findWhere_None in Hfind. rewrite Forall_forall in Hfind.
    specialize (Hfind c Hc). unfold has_id in Hfind.
    apply String.eqb_neq in Hfind. congruence.
  - cbn. apply NoDup_singleton.
Qed.

(** * Further properties of the script *)

(** ** [findWhere] *)

(** [findWhere] returns the first element of the collection that has the
    properties: it is in the collection, it has them, and no element before
    it has; it returns [null] exactly when no element has them. *)
Theorem findWhere_first_match {A : Type} (props : A -> bool) (collection : list A) :
  match findWhere props collection with
  | Some o =>
      exists i, collection !! i = Some o /\ props o = true
                /\ forall j o', j < i -> collection !! j = Some o' -> props o' = false
  | None => forall o, o ∈ collection -> props o = false
  end.
Proof.
  induction collection as [| x l IH]; simpl.
  - intros o Ho. inversion Ho.
  - destruct (props x) eqn:Hx.
    + exists 0. split; [reflexivity |]. split; [exact Hx |]. intros j o' Hj. lia.
    + destruct (findWhere props l) as [o |].
      * destruct IH as (i & Hi & Ho & Hbefore). exists (S i).
        split; [exact Hi |]. split; [exact Ho |].
        intros [| j] o' Hj Hlook; simpl in Hlook.
        -- now injection Hlook as <-.
        -- apply (Hbefore j); [lia | exact Hlook].
      * intros o Ho. apply elem_of_cons in Ho as [-> | Ho]; [exact Hx | now apply IH].
Qed.

(** ** [sortByModId] *)

Lemma string_compare_refl (s : string) : String.compare s s = Eq.
Proof.
  induction s as [| c s IH]; simpl; [reflexivity |].
  unfold Ascii.compare. now rewrite N.compare_refl.
Qed.

(** For two modules neither of which is the umbrella package, [sortByModId]
    is the three-way comparison of their ids, and swapping the arguments
    negates it. *)
Theorem sortByModId_three_way (a b : ModuleEntry) :
  mod_id a <> UMBRELLA_PACKAGE -> mod_id b <> UMBRELLA_PACKAGE ->
  sortByModId a b = three_way (String.compare (mod_id a) (mod_id b))
  /\ sortByModId b a = (- sortByModId a b)%Z.
Proof.
  intros Ha Hb. apply String.eqb_neq in Ha, Hb.
  unfold sortByModId. rewrite Ha, Hb. unfold String.ltb.
  rewrite (String.compare_antisym (mod_id a) (mod_id b)).
  rewrite (String.eqb_sym (mod_id b) (mod_id a)).
  assert (Hne : String.compare (mod_id b) (mod_id a) <> Eq ->
                String.eqb (mod_id a) (mod_id b) = false).
  { intros H. apply String.eqb_neq. intros Heq. apply H.
    rewrite Heq. apply string_compare_refl. }
  destruct (String.compare (mod_id b) (mod_id a)) eqn:Hcmp; cbn.
  - apply String.compare_eq_iff in Hcmp. rewrite Hcmp, String.eqb_refl. now split.
  - rewrite Hne by discriminate. now split.
  - rewrite Hne by discriminate. now split.
Qed.

(** ** Tag names *)

Lemma append_inv_head (p a b : string) : p +:+ a = p +:+ b -> a = b.
Proof.
  induction p as [| c p IH]; simpl; intros H; [exact H |].
  injection H as H. now apply IH.
Qed.

Lemma dash_not_in_default (p s : string) :
  p +:+ "-" +:+ s <> config.DEFAULT_VERSION.
Proof.
  unfold config.DEFAULT_VERSION. intros H.
  repeat (destruct p as [| ? p]; simpl in H; try discriminate H; injection H as _ H).
Qed.

(** Two builders of one package have the same tag only if they have the same
    version: the tags of the versions of a package are distinct. *)
Theorem getTagName_distinguishes_versions (p : string) (v v' : option string)
    (cwd cwd' : option path) :
  getTagName (new_Builder p v cwd) = getTagName (new_Builder p v' cwd') ->
  version (new_Builder p v cwd) = version (new_Builder p v' cwd').
Proof.
  unfold getTagName, new_Builder. cbn [isMaster isUmbrella version name].
  generalize (version_or_default v) (version_or_default v'). intros s s'.
  destruct (String.eqb s config.DEFAULT_VERSION) eqn:Hs;
    destruct (String.eqb s' config.DEFAULT_VERSION) eqn:Hs'.
  - apply String.eqb_eq in Hs, Hs'. congruence.
  - apply String.eqb_eq in Hs. rewrite Hs.
    destruct (String.eqb p UMBRELLA_PACKAGE); intros H.
    + discriminate H.
    + symmetry in H. now apply dash_not_in_default in H.
  - apply String.eqb_eq in Hs'. rewrite Hs'.
    destruct (String.eqb p UMBRELLA_PACKAGE); intros H.
    + discriminate H.
    + now apply dash_not_in_default in H.
  - destruct (String.eqb p UMBRELLA_PACKAGE); intros H.
    + now injection H.
    + now apply append_inv_head, (append_inv_head "-") in H.
Qed.

(** ** The dependencies of the umbrella package *)

Lemma substring_all (s : string) : String.substring 0 (String.length s) s = s.
Proof. induction s as [| c s IH]; simpl; [reflexivity | now rewrite IH]. Qed.

Lemma prefix_drop_chars (pat k : string) :
  String.prefix pat k = true -> pat +:+ drop_chars (String.length pat) k = k.
Proof.
  revert k. induction pat as [| a pat IH]; intros k.
  - intros _. unfold drop_chars. cbn. rewrite Nat.sub_0_r. apply substring_all.
  - destruct k as [| b k]; [discriminate |].
    cbn [String.prefix String.length].
    destruct (Ascii.ascii_dec a b) as [-> | Hne]; [| discriminate].
    intros H.
    change (String b (pat +:+ drop_chars (String.length pat) k) = String b k).
    f_equal. now apply IH.
Qed.

Lemma prefix_append_l (a b k : string) :
  String.prefix (a +:+ b) k = true -> String.prefix a k = true.
Proof.
  revert k. induction a as [| c a IH]; intros k; [now destruct k |].
  destruct k as [| d k]; [discriminate |].
  change (String c a +:+ b) with (String c (a +:+ b)). cbn [String.prefix].
  destruct (Ascii.ascii_dec c d); [apply IH | discriminate].
Qed.

Lemma remove_first_prefix (pat k : string) :
  String.prefix pat k = true -> pat <> "" ->
  remove_first pat k = drop_chars (String.length pat) k.
Proof.
  intros H Hpat. destruct k as [| c k].
  - destruct pat; [contradiction | discriminate].
  - cbn [remove_first]. now rewrite H.
Qed.

(** When every key of [dependencies] that begins with ["@google-cloud"]
    begins with ["@google-cloud/"], [getDeps] returns one dependency for each
    such key, in the order of [package.json], with the range declared for it:
    putting the scope back before the names gives back those entries. *)
Theorem getDeps_strips_scope (w : World) (dependencies : list (string * string)) :
  package_json (HEAD w) = Some dependencies ->
  Forall (fun d => String.prefix "@google-cloud" (fst d) = true ->
                   String.prefix "@google-cloud/" (fst d) = true) dependencies ->
  exists deps,
    getDeps w = (Return deps, w)
    /\ map scoped_key deps
       = List.filter (fun d => String.prefix "@google-cloud/" (fst d)) dependencies.
Proof.
  intros Hpkg Hkeys. exists (scoped_deps dependencies). split.
  - unfold getDeps, bind, get_world. now rewrite Hpkg.
  - clear Hpkg. unfold scoped_deps.
    induction Hkeys as [| [k r] l Hk _ IH]; [reflexivity |].
    cbn [List.filter fst]. cbn [fst] in Hk.
    destruct (String.prefix "@google-cloud" k) eqn:Hscope.
    + rewrite (Hk eq_refl). cbn [map]. rewrite IH. f_equal.
      unfold scoped_key. cbn [dep_name dep_version fst snd].
      rewrite remove_first_prefix by (auto; discriminate).
      now rewrite (prefix_drop_chars _ _ (Hk eq_refl)).
    + destruct (String.prefix "@google-cloud/" k) eqn:Hslash; [| exact IH].
      apply (prefix_append_l "@google-cloud" "/") in Hslash. congruence.
Qed.

(** ** More on the manifest *)

Lemma findWhere_has_id_perm (n : string) (l l' : list ModuleEntry) :
  NoDup (map mod_id l) -> l' ≡ₚ l ->
  findWhere (has_id n) l' = findWhere (has_id n) l.
Proof.
  intros Hnd Hperm. destruct (findWhere (has_id n) l) as [c |] eqn:Hl.
  - apply findWhere_Some in Hl as [Hc Hid].
    destruct (findWhere_elem (has_id n) l' c) as [y Hy];
      [now rewrite Hperm | exact Hid |].
    rewrite Hy. f_equal. apply findWhere_Some in Hy as [Hy Hidy].
    apply (NoDup_ids_eq l); [exact Hnd | now rewrite <- Hperm | exact Hc |].
    unfold has_id in Hid, Hidy. apply String.eqb_eq in Hid, Hidy. congruence.
  - apply findWhere_None. apply findWhere_None in Hl. now rewrite Hperm.
Qed.

Lemma NoDup_ids_new_config (this : Builder) (m : list ModuleEntry) :
  NoDup (map mod_id m) -> findWhere (has_id (name this)) m = None ->
  NoDup (map mod_id (m ++ [new_config this])).
Proof.
  intros Hnd Hfind. rewrite map_app. apply NoDup_app. split; [exact Hnd |]. split.
  - intros n Hn Hnew. cbn in Hnew. apply list_elem_of_singleton in Hnew. subst n.
    apply list_elem_of_fmap in Hn as (c & Hid & Hc).
    apply findWhere_None in Hfind. rewrite Forall_forall in Hfind.
    specialize (Hfind c Hc). unfold has_id in Hfind.
    apply String.eqb_neq in Hfind. congruence.
  - cbn. apply NoDup_singleton.
Qed.

Lemma findWhere_app {A : Type} (p : A -> bool) (l1 l2 : list A) :
  findWhere p (l1 ++ l2)
  = match findWhere p l1 with Some x => Some x | None => findWhere p l2 end.
Proof.
  induction l1 as [| x l1 IH]; simpl; [reflexivity |].
  now destruct (p x).
Qed.

Lemma findWhere_alter_first_other {A : Type} (p q : A -> bool) (f : A -> A)
    (l : list A) :
  (forall x, p x = true -> q x = false /\ q (f x) = false) ->
  findWhere q (alter_first p f l) = findWhere q l.
Proof.
  intros Hpq. induction l as [| x l IH]; simpl; [reflexivity |].
  destruct (p x) eqn:Hp; simpl.
  - destruct (Hpq x Hp) as [Hq Hqf]. now rewrite Hq, Hqf.
  - now rewrite IH.
Qed.

Lemma findWhere_updated_manifest_other (this : Builder) (m : list ModuleEntry)
    (n : string) :
  NoDup (map mod_id m) -> n <> name this ->
  findWhere (has_id n) (updated_manifest this m) = findWhere (has_id n) m.
Proof.
  intros Hnd Hne. unfold updated_manifest.
  rewrite findWhere_alter_first_other.
  - destruct (findWhere (has_id (name this)) m) eqn:Hfind; [reflexivity |].
    rewrite (findWhere_has_id_perm n (m ++ [new_config this]))
      by (try apply array_sort_perm; now apply NoDup_ids_new_config).
    rewrite findWhere_app.
    destruct (findWhere (has_id n) m); [reflexivity |]. simpl.
    unfold has_id. cbn [new_config mod_id].
    apply String.eqb_neq in Hne. now rewrite String.eqb_sym, Hne.
  - intros x Hx. rewrite has_id_record_version. unfold has_id in *.
    apply String.eqb_eq in Hx. split; apply String.eqb_neq; congruence.
Qed.

Lemma versions_of_updated_manifest (this : Builder) (m : list ModuleEntry) :
  versions_of (name this) (updated_manifest this m)
  = versions (record_version (version this)
                (default (new_config this) (findWhere (has_id (name this)) m))).
Proof.
  unfold versions_of, updated_manifest.
  rewrite findWhere_alter_first by (intros; apply has_id_record_version).
  destruct (findWhere (has_id (name this)) m) as [c |] eqn:Hfind.
  - now rewrite Hfind.
  - now rewrite findWhere_sort_new by (trivial; apply String.eqb_refl).
Qed.

Lemma record_version_elem (v : string) (c : ModuleEntry) :
  v ∈ versions (record_version v c).
Proof.
  unfold record_version. destruct (not_recorded v (versions c)) eqn:H.
  - left.
  - now apply not_recorded_false.
Qed.

Lemma record_version_keeps (v v' : string) (c : ModuleEntry) :
  v' ∈ versions c -> v' ∈ versions (record_version v c).
Proof.
  intros H. unfold record_version.
  destruct (not_recorded v (versions c)); [now right | exact H].
Qed.

Lemma updated_manifest_keeps_own_versions (this : Builder) (m : list ModuleEntry)
    (v : string) :
  v ∈ versions_of (name this) m ->
  v ∈ versions_of (name this) (updated_manifest this m).
Proof.
  intros H. rewrite versions_of_updated_manifest. apply record_version_keeps.
  unfold versions_of in H.
  destruct (findWhere (has_id (name this)) m); [exact H | inversion H].
Qed.

Lemma updated_manifest_keeps_versions (this : Builder) (m : list ModuleEntry)
    (n v : string) :
  NoDup (map mod_id m) ->
  v ∈ versions_of n m -> v ∈ versions_of n (updated_manifest this m).
Proof.
  intros Hnd H. destruct (decide (n = name this)) as [-> | Hne].
  - now apply updated_manifest_keeps_own_versions.
  - unfold versions_of. now rewrite findWhere_updated_manifest_other.
Qed.

(** In a manifest whose modules have distinct ids, [updateManifest] leaves
    the entry of every other package as it is, also when it pushes a new
    entry and sorts the modules: the sort is a permutation, whatever the
    algorithm, and only one module has the id looked for. *)
Theorem updateManifest_keeps_other_entries (this : Builder) (w : World) (n : string) :
  NoDup (map mod_id (manifest w)) ->
  n <> name this ->
  findWhere (has_id n) (manifest (exec (updateManifest this) w))
  = findWhere (has_id n) (manifest w).
Proof.
  intros Hnd Hne. unfold exec. rewrite updateManifest_run.
  cbn [snd manifest set_files set_manifest].
  now apply findWhere_updated_manifest_other.
Qed.

(** After [updateManifest] the manifest lists the builder's version for its
    package, and every version it listed before; a package that had no entry
    lists ["master"], after the builder's version if that is another one. *)
Theorem updateManifest_records_version (this : Builder) (w : World) :
  let m' := manifest (exec (updateManifest this) w) in
  version this ∈ versions_of (name this) m'
  /\ (forall v, v ∈ versions_of (name this) (manifest w) ->
                v ∈ versions_of (name this) m')
  /\ (findWhere (has_id (name this)) (manifest w) = None ->
      versions_of (name this) m' = first_versions (version this)).
Proof.
  cbn zeta. unfold exec. rewrite updateManifest_run.
  cbn [snd manifest set_files set_manifest]. split; [| split].
  - rewrite versions_of_updated_manifest. apply record_version_elem.
  - intros v. apply updated_manifest_keeps_own_versions.
  - intros Hnone. rewrite versions_of_updated_manifest, Hnone.
    cbn [default]. unfold record_version, not_recorded, first_versions.
    cbn [new_config versions existsb]. rewrite orb_false_r.
    now destruct (String.eqb (version this) "master").
Qed.

Lemma may_precede_ids (a a' b b' : ModuleEntry) :
  mod_id a' = mod_id a -> mod_id b' = mod_id b ->
  may_precede a b -> may_precede a' b'.
Proof.
  unfold may_precede, sortByModId. now intros -> ->.
Qed.

Lemma sorted_ids (l l' : list ModuleEntry) :
  map mod_id l' = map mod_id l ->
  StronglySorted may_precede l -> StronglySorted may_precede l'.
Proof.
  revert l'. induction l as [| a l IH]; intros [| a' l'] Hids Hs;
    try discriminate Hids; [constructor |].
  injection Hids as Hid Hids. apply StronglySorted_inv in Hs as [Hs Ha].
  constructor; [now apply IH |].
  rewrite List.Forall_forall in *. intros x' Hx'.
  apply (in_map mod_id) in Hx'. rewrite Hids in Hx'.
  apply in_map_iff in Hx' as (x & Hid' & Hx).
  apply (may_precede_ids a a' x x'); auto.
Qed.

(** [updateManifest] keeps the modules of the manifest in order: if their
    ids are distinct and each may precede those after it, as [sortByModId]
    compares them, the same holds afterwards. *)
Theorem updateManifest_keeps_sorted (this : Builder) (w : World) :
  sorted_by_id (manifest w) ->
  sorted_by_id (manifest (exec (updateManifest this) w)).
Proof.
  intros [Hnd Hs]. unfold exec. rewrite updateManifest_run.
  cbn [snd manifest set_files set_manifest]. split.
  - now apply updated_manifest_NoDup_ids.
  - unfold updated_manifest.
    eapply sorted_ids; [apply alter_first_ids; intros; apply mod_id_record_version |].
    destruct (findWhere (has_id (name this)) (manifest w)); [exact Hs |].
    apply array_sort_sorted.
Qed.

(** ** What a build leaves alone *)

#[local] Instance build_frame_preorder (region : path -> Prop) :
  PreOrder (build_frame region).
Proof.
  split.
  - intros w. now repeat split.
  - intros w1 w2 w3 (? & ? & ? & ? & H12) (? & ? & ? & ? & H23).
    repeat split; try congruence.
    now transitivity w2.
Qed.

Lemma build_frame_mono {A : Type} (region region' : path -> Prop) (c : M A) :
  (forall p, region p -> region' p) ->
  preserves (build_frame region) c -> preserves (build_frame region') c.
Proof.
  intros Hsub H w. destruct (H w) as (? & ? & ? & ? & Hf).
  repeat split; try assumption. intros p Hp. apply Hf. intros Hr. now apply Hp, Hsub.
Qed.

Lemma same_repo_build_frame {A : Type} (region : path -> Prop) (c : M A) :
  preserves same_repo c -> preserves (files_outside region) c ->
  preserves (build_frame region) c.
Proof.
  intros Hr Hf w. destruct (Hr w) as (? & ? & ? & Hlog).
  repeat split; try assumption; [now rewrite Hlog | apply Hf].
Qed.

Lemma modify_preserves (R : relation World) (f : World -> World) :
  (forall w, R w (f w)) -> preserves R (modify f).
Proof. intros H w. apply H. Qed.

Lemma writeFileSync_build_frame (region : path -> Prop) (p : path) (j : json) :
  region p -> preserves (build_frame region) (writeFileSync p j).
Proof.
  intros Hp. apply same_repo_build_frame;
    [apply writeFileSync_same_repo | now apply writeFileSync_files_outside].
Qed.

Lemma require_build_frame (region : path -> Prop) (p : path) :
  preserves (build_frame region) (require p).
Proof.
  apply same_repo_build_frame; [apply require_same_repo | apply require_files_outside].
Qed.

Lemma mutate_required_build_frame (region : path -> Prop) (p : path) (j : json) :
  preserves (build_frame region) (mutate_required p j).
Proof.
  apply same_repo_build_frame;
    [apply mutate_required_same_repo | apply mutate_required_files_outside].
Qed.

Lemma git_command_build_frame (region : path -> Prop) (c : GitCmd) :
  checkouts [c] = [] -> preserves (build_frame region) (git_command c).
Proof.
  intros Hc w. unfold exec, git_command, modify.
  cbn [snd manifest HEAD PREV git_log files].
  repeat split. cbn [git_log]. now rewrite checkouts_app, Hc, app_nil_r.
Qed.

Lemma cp_markdown_build_frame (region : path -> Prop) (d : path) :
  (forall x, region (d ++ [x])) -> preserves (build_frame region) (cp_markdown d).
Proof.
  intros Hd. unfold cp_markdown.
  apply preserves_bind; [apply _ | apply preserves_get_world; apply _ | intros w].
  apply preserves_forEach; [apply _ | intros md].
  apply modify_preserves. intros w0. repeat split.
  intros p Hp. cbn. apply lookup_insert_ne. intros <-. apply Hp, Hd.
Qed.

Lemma build_file_build_frame (region : path -> Prop) (this : Builder) (f : string) :
  (forall p, dir this `prefix_of` p -> region p) ->
  preserves (build_frame region) (build_file this f).
Proof.
  intros Hd w. unfold exec. rewrite build_file_run.
  destruct (parse_source (HEAD w) f); [reflexivity |].
  cbn. repeat split. intros p Hp. cbn. apply lookup_insert_ne. intros <-.
  apply Hp, Hd. now eexists.
Qed.

Lemma build_with_build_frame (region : path -> Prop) (bundle' : Bundler -> M unit)
    (this : Builder) :
  (forall p, dir this `prefix_of` p -> region p) ->
  preserves (build_frame region) (bundle' (new_Bundler (inr this))) ->
  preserves (build_frame region) (build_with bundle' this).
Proof.
  intros Hd Hb.
  assert (Hx : forall x, region (dir this ++ x)) by (intros x; apply Hd; now eexists).
  unfold build_with, mkdir_p, write.
  apply preserves_bind; [apply _ | apply preserves_ret; apply _ | intros _].
  apply preserves_bind; [apply _ | apply cp_markdown_build_frame; intros x; apply Hx | intros _].
  apply preserves_bind; [apply _ | apply preserves_get_world; apply _ | intros w].
  apply preserves_bind;
    [apply _ | apply preserves_mapM; [apply _ | intros f; now apply build_file_build_frame] |].
  intros docs.
  apply preserves_bind; [apply _ | apply writeFileSync_build_frame, Hx | intros _].
  apply preserves_bind; [apply _ | apply writeFileSync_build_frame, Hx | intros _].
  destruct (isUmbrella this); [exact Hb | apply preserves_ret; apply _].
Qed.

Lemma add_build_frame (region : path -> Prop) (this : Bundler) (b : Builder) :
  (forall p, dir (builder this) `prefix_of` p -> region p) ->
  preserves (build_frame region) (add this b).
Proof.
  intros Hd. apply (build_frame_mono (added_to this b)).
  - intros p [x ->]. apply Hd. now eexists.
  - apply same_repo_build_frame; [apply add_same_repo | apply add_files_outside].
Qed.

Lemma resolve_dep_unchanged (dep : Dep) (w : World) : exec (resolve_dep dep) w = w.
Proof.
  unfold exec, resolve_dep, bind, get_world.
  now destruct (findWhere (has_id (dep_name dep)) (manifest w)).
Qed.

Lemma getDeps_unchanged (w : World) : exec getDeps w = w.
Proof.
  unfold exec, getDeps, bind, get_world. now destruct (package_json (HEAD w)).
Qed.

Lemma unchanged_preserves {A : Type} (R : relation World) `{!PreOrder R} (c : M A) :
  (forall w, exec c w = w) -> preserves R c.
Proof. intros H w. now rewrite H. Qed.

Lemma bundle_dep_build_frame (region : path -> Prop) (build' : Builder -> M unit)
    (this : Bundler) (dep : ResolvedDep) :
  (forall p, dir (builder this) `prefix_of` p -> region p) ->
  preserves (build_frame region) (build' (dep_builder dep)) ->
  preserves (build_frame region) (bundle_dep build' this dep).
Proof.
  intros Hd Hb. unfold bundle_dep, getTypes. fold (dep_builder dep).
  apply preserves_bind; [apply _ | now apply git_command_build_frame | intros _].
  apply preserves_bind; [apply _ | exact Hb | intros _].
  apply preserves_bind; [apply _ | now apply add_build_frame | intros _].
  apply preserves_bind; [apply _ | apply require_build_frame |].
  intros [| | | | ts | o]; try (apply preserves_throw; apply _).
  destruct (prefix_types (rdep_name dep) ts) as [ts' ok].
  apply preserves_bind; [apply _ | apply mutate_required_build_frame | intros _].
  destruct ok; [apply preserves_ret | apply preserves_throw]; apply _.
Qed.

Lemma bundle_with_build_frame (region : path -> Prop) (build' : Builder -> M unit)
    (this : Bundler) :
  (forall p, dir (builder this) `prefix_of` p -> region p) ->
  (forall dep, preserves (build_frame region) (build' (dep_builder dep))) ->
  preserves (build_frame region) (bundle_with build' this).
Proof.
  intros Hd Hb.
  assert (Hx : forall x, region (dir (builder this) ++ x))
    by (intros x; apply Hd; now eexists).
  unfold bundle_with, getTypes, write.
  apply preserves_bind; [apply _ | apply require_build_frame | intros base].
  apply preserves_bind;
    [apply _ | apply unchanged_preserves; [apply _ | apply getDeps_unchanged] |].
  intros deps.
  apply preserves_bind;
    [apply _
    | apply preserves_mapM; [apply _ | intros d];
      apply unchanged_preserves; [apply _ | apply resolve_dep_unchanged] |].
  intros rdeps.
  apply preserves_bind; [apply _ | now apply git_command_build_frame | intros _].
  apply preserves_bind;
    [apply _
    | apply preserves_mapM; [apply _ | intros d; now apply bundle_dep_build_frame] |].
  intros tss. destruct base; try (apply preserves_throw; apply _).
  apply preserves_bind; [apply _ | apply writeFileSync_build_frame, Hx | intros _].
  apply preserves_bind; [apply _ | apply writeFileSync_build_frame, Hx | intros _].
  now apply git_command_build_frame.
Qed.

Lemma dep_builder_docs (dep : ResolvedDep) (p : path) :
  docs_of (dep_builder dep) p -> (submodule_cwd ++ DOCS_ROOT) `prefix_of` p.
Proof.
  intros [[k ->] | H]; [| exact H].
  unfold dep_builder, new_Builder. cbn [dir default].
  eexists. now rewrite <- !app_assoc.
Qed.

Lemma bundle_build_frame (fuel : nat) (this : Bundler) :
  preserves (build_frame (docs_of (builder this))) (bundle fuel this).
Proof.
  revert this. induction fuel as [| fuel IH]; intros this.
  - intros w. reflexivity.
  - cbn [bundle]. apply bundle_with_build_frame; [now left |].
    intros dep. apply build_with_build_frame.
    + intros p Hp. right. apply (dep_builder_docs dep). now left.
    + apply (build_frame_mono (docs_of (dep_builder dep))); [| apply IH].
      intros p Hp. right. now apply (dep_builder_docs dep).
Qed.

Lemma build_build_frame (fuel : nat) (this : Builder) :
  preserves (build_frame (docs_of this)) (build fuel this).
Proof.
  unfold build. apply build_with_build_frame; [now left |].
  apply (bundle_build_frame fuel (new_Bundler (inr this))).
Qed.

(** Whatever its outcome, [Builder.build] leaves the manifest as it is,
    checks out nothing in the work tree, and writes no file outside the
    builder's own directory and, when it bundles, the docs of the
    submodule. *)
Theorem build_stays_in_docs (fuel : nat) (this : Builder) (w : World) :
  let w' := exec (build fuel this) w in
  manifest w' = manifest w /\ HEAD w' = HEAD w /\ PREV w' = PREV w
  /\ checkouts (git_log w') = checkouts (git_log w)
  /\ forall p, ~ dir this `prefix_of` p ->
               ~ (submodule_cwd ++ DOCS_ROOT) `prefix_of` p ->
               files w' !! p = files w !! p.
Proof.
  cbn zeta. destruct (build_build_frame fuel this w) as (Hm & Hh & Hp & Hl & Hf).
  repeat split; try assumption.
  intros p Hdir Hsub. apply Hf. now intros [H | H].
Qed.

Lemma build_with_plain_frame (bundle' : Bundler -> M unit) (this : Builder) :
  isUmbrella this = false ->
  preserves (build_frame (fun p => dir this `prefix_of` p)) (build_with bundle' this).
Proof.
  intros Hu w.
  assert (Hsame : build_with bundle' this w = build_with (fun _ => ret tt) this w)
    by (unfold build_with; now rewrite Hu).
  unfold exec. rewrite Hsame.
  apply (build_with_build_frame _ (fun _ => ret tt)); [auto |].
  apply preserves_ret. apply _.
Qed.

(** Whatever its outcome, the build of a package other than the umbrella
    package writes nothing below the directory of another package, or of
    another version of the same package, built from the same working
    directory.  The names and the versions are such that [path.join] keeps
    each as one component of the directory: a name or a version with a slash
    in it, or [".."], makes a directory inside or above another one. *)
Theorem build_leaves_other_docs (fuel : nat) (n n' : string) (v v' : option string)
    (cwd : option path) (w : World) (p : path) :
  let this := new_Builder n v cwd in
  let other := new_Builder n' v' cwd in
  n <> UMBRELLA_PACKAGE ->
  component n = true -> component (version this) = true ->
  component n' = true -> component (version other) = true ->
  n' <> n \/ version other <> version this ->
  dir other `prefix_of` p ->
  files (exec (build fuel this) w) !! p = files w !! p.
Proof.
  cbn zeta. intros Hn _ _ _ _ Hne Hother.
  assert (Hu : isUmbrella (new_Builder n v cwd) = false)
    by (cbn [isUmbrella new_Builder]; now apply String.eqb_neq).
  destruct (build_with_plain_frame (bundle fuel) _ Hu w) as (_ & _ & _ & _ & Hf).
  apply Hf. intros [k Hk]. destruct Hother as [k' Hk']. rewrite Hk' in Hk.
  apply app_inj_1 in Hk as [Hk _].
  - unfold new_Builder in Hk. cbn [dir version] in Hk, Hne.
    apply app_inv_head, app_inv_head in Hk. injection Hk as Hk1 Hk2.
    destruct Hne as [Hne | Hne]; [congruence | now apply Hne].
  - unfold new_Builder. cbn [dir]. now rewrite !length_app.
Qed.

(** ** A build that succeeds *)

Lemma outcome_exec {A : Type} (c : M A) (w : World) : c w = (outcome c w, exec c w).
Proof. unfold outcome, exec. now destruct (c w). Qed.

(** When every source of a package other than the umbrella package parses,
    [Builder.build] returns, whatever the fuel; [types.json] then holds the
    dictionary the parser derives from the documents of the sources, and
    [toc.json] the table of contents derived from that dictionary, not
    bundled, with the builder's tag as [tagName]. *)
Theorem build_writes_dictionary (fuel : nat) (this : Builder) (w : World) :
  isUmbrella this = false ->
  (forall f, f ∈ globby_sources (HEAD w) (name this) ->
             exists j, parse_source (HEAD w) f = inr j) ->
  let w' := exec (build fuel this) w in
  let types := dictionary (HEAD w) (name this) in
  outcome (build fuel this) w = Return tt
  /\ files w' !! (dir this ++ [config.TYPES_DICT]) = Some (FJson (JArr types))
  /\ files w' !! (dir this ++ [config.TOC])
     = Some (FJson (JObj (set_field "tagName" (JStr (getTagName this))
                            (parser_createToc types false)))).
Proof.
  intros Hu Hparse. cbn zeta.
  destruct (cp_markdown_Return (dir this) w) as (w0 & Hcp & (_ & Hh0 & _) & _).
  rewrite <- Hh0 in Hparse.
  destruct (mapM_build_file_parsed this _ w0 Hparse) as (docs & w1 & Hmap & _).
  destruct (mapM_build_file_docs _ _ _ _ _ Hmap) as (Hdocs & _ & _).
  assert (Hrun : build fuel this w
    = (Return tt,
       set_files
         (<[dir this ++ [config.TOC] :=
              FJson (JObj (set_field "tagName" (JStr (getTagName this))
                             (parser_createToc
                                (map JObj (parser_createTypesDictionary docs)) false)))]>
            (<[dir this ++ [config.TYPES_DICT] :=
                 FJson (JArr (map JObj (parser_createTypesDictionary docs)))]>
               (files w1))) w1)).
  { unfold build, build_with. rewrite Hu.
    unfold bind at 1. cbn [mkdir_p ret]. unfold bind at 1. rewrite Hcp.
    unfold bind at 1. cbn [get_world]. unfold bind at 1. rewrite Hmap.
    reflexivity. }
  unfold outcome, exec. rewrite Hrun. cbn [fst snd files set_files].
  unfold dictionary, documents. rewrite <- Hh0, <- Hdocs.
  split; [reflexivity |]. split.
  - rewrite lookup_insert_ne by (intros H; apply app_inv_head in H; discriminate).
    apply lookup_insert_eq.
  - apply lookup_insert_eq.
Qed.

(** ** The exported [build] *)

Lemma version_or_default_nonempty (v : option string) : version_or_default v <> "".
Proof.
  unfold version_or_default. destruct v as [s |]; [| discriminate].
  destruct (String.eqb s "") eqn:H; [discriminate | now apply String.eqb_neq].
Qed.

Lemma getTagName_not_dash (n : string) (v : option string) (cwd : option path) :
  String.eqb (getTagName (new_Builder n v cwd)) "-" = false.
Proof.
  apply String.eqb_neq. unfold getTagName, new_Builder.
  cbn [isMaster isUmbrella version name].
  pose proof (version_or_default_nonempty v) as Hv.
  destruct (String.eqb (version_or_default v) config.DEFAULT_VERSION) eqn:Hm.
  - apply String.eqb_eq in Hm. rewrite Hm. discriminate.
  - destruct (String.eqb n UMBRELLA_PACKAGE); [discriminate |].
    intros H. destruct n as [| c n].
    + injection H as H. contradiction.
    + injection H as _ H. destruct n; discriminate H.
Qed.

Lemma build_package_run (fuel : nat) (n : string) (v : option string) (w : World) :
  let b := new_Builder n v None in
  build_package fuel n v w =
    match build fuel b (exec (git_checkout (getTagName b)) w) with
    | (Return _, w2) =>
        (if negb (isUmbrella b) && negb (isMaster b) then updateDep b else ret tt)
          (exec (updateManifest b) (exec (git_checkout "-") w2))
    | (Throw e, w2) => (Throw e, w2)
    | (OutOfFuel, w2) => (OutOfFuel, w2)
    end.
Proof.
  cbn zeta. unfold build_package. unfold bind at 1. cbn [git_checkout modify].
  unfold exec at 3. cbn [git_checkout modify snd]. unfold bind at 1.
  destruct (build fuel _ _) as [[[] | e |] w2]; reflexivity.
Qed.

#[local] Instance same_manifest_preorder : PreOrder same_manifest.
Proof.
  split.
  - intros w. reflexivity.
  - intros w1 w2 w3 H12 H23. unfold same_manifest in *. congruence.
Qed.

Lemma updateDep_loop_same_manifest (b : Builder) (vs us : list string) :
  preserves same_manifest (updateDep_loop b vs us).
Proof.
  induction us as [| u us IH]; cbn [updateDep_loop].
  - apply preserves_ret. apply _.
  - apply preserves_bind; [apply _ | now apply modify_preserves | intros _].
    apply preserves_bind;
      [apply _ | apply unchanged_preserves; [apply _ | apply getDeps_unchanged] |].
    intros deps.
    apply preserves_bind; [apply _ | now apply modify_preserves | intros _].
    destruct (findWhere (has_name (name b)) deps) as [dep |];
      [| apply preserves_throw; apply _].
    destruct (negb _); [apply preserves_ret; apply _ |].
    apply preserves_bind; [apply _ | | intros _; exact IH].
    intros w. now destruct (add_same_repo (new_Bundler (inl u)) b w).
Qed.

Lemma updateDep_same_manifest (b : Builder) : preserves same_manifest (updateDep b).
Proof.
  unfold updateDep. destruct (isMaster b); [apply preserves_throw; apply _ |].
  apply preserves_bind; [apply _ | apply preserves_get_world; apply _ | intros w].
  destruct (findWhere (has_id UMBRELLA_PACKAGE) (manifest w));
    [| apply preserves_throw; apply _].
  destruct (findWhere (has_id (name b)) (manifest w));
    [| apply preserves_throw; apply _].
  apply updateDep_loop_same_manifest.
Qed.

Lemma visit_head (u : string) (w : World) : HEAD (exec (visit u) w) = HEAD w.
Proof.
  unfold exec, visit, bind. cbn. reflexivity.
Qed.

Lemma updateDep_loop_head (b : Builder) (vs us : list string) (w : World) :
  outcome (updateDep_loop b vs us) w = Return tt ->
  HEAD (exec (updateDep_loop b vs us) w) = HEAD w.
Proof.
  revert w. induction us as [| u us IH]; intros w; [reflexivity |].
  unfold outcome, exec. rewrite updateDep_loop_cons.
  destruct (package_json (umbrella_tag u)) as [dependencies |]; [| discriminate].
  destruct (findWhere (has_name (name b)) (scoped_deps dependencies)) as [dep |];
    [| discriminate].
  destruct (bool_decide _); [| intros _; apply visit_head].
  pose proof (add_same_repo (new_Bundler (inl u)) b (exec (visit u) w)) as (_ & Hh & _).
  unfold exec at 1 in Hh. unfold bind.
  destruct (add (new_Bundler (inl u)) b (exec (visit u) w)) as [[[] | e |] w1];
    try discriminate.
  cbn [snd] in Hh. intros Hret.
  rewrite <- (visit_head u w), <- Hh. now apply IH.
Qed.

Lemma updateDep_head (b : Builder) (w : World) :
  outcome (updateDep b) w = Return tt -> HEAD (exec (updateDep b) w) = HEAD w.
Proof.
  unfold outcome, exec, updateDep.
  destruct (isMaster b); [discriminate |]. unfold bind, get_world.
  destruct (findWhere (has_id UMBRELLA_PACKAGE) (manifest w)); [| discriminate].
  destruct (findWhere (has_id (name b)) (manifest w)); [| discriminate].
  apply updateDep_loop_head.
Qed.

Lemma checked_out_build (fuel : nat) (n : string) (v : option string) (w : World) :
  let b := new_Builder n v None in
  let w2 := exec (build fuel b) (exec (git_checkout (getTagName b)) w) in
  manifest w2 = manifest w /\ HEAD w2 = getTagName b /\ PREV w2 = HEAD w
  /\ checkouts (git_log w2) = checkouts (git_log w) ++ [getTagName b].
Proof.
  cbn zeta.
  destruct (build_build_frame fuel (new_Builder n v None)
              (exec (git_checkout (getTagName (new_Builder n v None))) w))
    as (Hm & Hh & Hp & Hl & _).
  rewrite Hm, Hh, Hp, Hl. unfold exec. cbn [git_checkout modify snd].
  cbn [manifest HEAD PREV git_log]. rewrite getTagName_not_dash.
  repeat split. rewrite checkouts_app. f_equal.
  unfold checkouts. cbn [flat_map]. now rewrite getTagName_not_dash.
Qed.

(** The exported [build] records the version in the manifest exactly when
    [Builder.build] has returned: a build that throws leaves the manifest as
    it was, and once the docs are built the version is recorded even if
    [updateDep] throws afterwards. *)
Theorem build_package_manifest (fuel : nat) (n : string) (v : option string)
    (w : World) :
  let b := new_Builder n v None in
  manifest (exec (build_package fuel n v) w) =
    match outcome (build fuel b) (exec (git_checkout (getTagName b)) w) with
    | Return _ => updated_manifest b (manifest w)
    | _ => manifest w
    end.
Proof.
  cbn zeta. unfold exec at 1. rewrite build_package_run. cbn zeta.
  destruct (checked_out_build fuel n v w) as (Hm & _). cbn zeta in Hm.
  rewrite (outcome_exec (build fuel _) _).
  destruct (outcome (build fuel _) _) as [[] | e |]; cbn [snd]; try exact Hm.
  set (w3 := exec (updateManifest _) _).
  assert (H3 : manifest w3 = updated_manifest (new_Builder n v None) (manifest w)).
  { subst w3. unfold exec at 1. rewrite updateManifest_run.
    cbn [snd manifest set_files set_manifest]. f_equal.
    unfold exec at 1. cbn [git_checkout modify snd manifest]. exact Hm. }
  destruct (negb _ && negb _); [| exact H3].
  rewrite <- H3. apply updateDep_same_manifest.
Qed.

(** When the exported [build] returns, the work tree is back at the ref it
    was at; when [Builder.build] throws, the exported [build] throws the same
    error and the work tree stays at the tag that was checked out. *)
Theorem build_package_work_tree (fuel : nat) (n : string) (v : option string)
    (w : World) :
  let b := new_Builder n v None in
  let built := outcome (build fuel b) (exec (git_checkout (getTagName b)) w) in
  let w' := exec (build_package fuel n v) w in
  (outcome (build_package fuel n v) w = Return tt -> HEAD w' = HEAD w)
  /\ (built <> Return tt ->
      outcome (build_package fuel n v) w = built /\ HEAD w' = getTagName b).
Proof.
  cbn zeta. pose proof (build_package_run fuel n v w) as Hrun. cbn zeta in Hrun.
  destruct (checked_out_build fuel n v w) as (_ & Hh & Hp & _). cbn zeta in Hh, Hp.
  rewrite (outcome_exec (build fuel _) _) in Hrun.
  destruct (outcome (build fuel _) _) as [[] | e |]; cbn [fst snd] in Hrun;
    try (split; [intros H; unfold outcome in H; rewrite Hrun in H; discriminate H |];
         intros _; unfold outcome, exec; rewrite Hrun; split; [reflexivity | exact Hh]).
  split; [| intros H; now destruct H].
  unfold outcome at 1, exec at 1. rewrite Hrun.
  set (w3 := exec (updateManifest _) _).
  assert (H3 : HEAD w3 = HEAD w).
  { subst w3. unfold exec at 1. rewrite updateManifest_run.
    cbn [snd HEAD set_files set_manifest].
    unfold exec at 1. cbn [git_checkout modify snd HEAD]. exact Hp. }
  destruct (negb _ && negb _); [| intros _; exact H3].
  intros Hret. rewrite <- H3. now apply updateDep_head.
Qed.

(** ** [buildAll] *)

Lemma checked_out_back (b : Builder) (w : World) :
  let w' := exec (updateManifest b) (exec (git_checkout "-") w) in
  manifest w' = updated_manifest b (manifest w) /\ HEAD w' = PREV w
  /\ checkouts (git_log w') = checkouts (git_log w).
Proof.
  cbn zeta. unfold exec at 1 3 5. rewrite !updateManifest_run.
  cbn [snd manifest HEAD git_log set_files set_manifest].
  unfold exec. cbn [git_checkout modify snd manifest HEAD git_log].
  repeat split. rewrite checkouts_app. cbn. apply app_nil_r.
Qed.

Lemma build_package_default (fuel : nat) (n : string) (w : World) :
  let b := new_Builder n (Some config.DEFAULT_VERSION) None in
  let w' := exec (build_package fuel n (Some config.DEFAULT_VERSION)) w in
  outcome (build_package fuel n (Some config.DEFAULT_VERSION)) w = Return tt ->
  manifest w' = updated_manifest b (manifest w) /\ HEAD w' = HEAD w
  /\ checkouts (git_log w')
     = checkouts (git_log w) ++ [config.DEFAULT_VERSION].
Proof.
  cbn zeta. intros Hret.
  pose proof (build_package_run fuel n (Some config.DEFAULT_VERSION) w) as Hrun.
  destruct (checked_out_build fuel n (Some config.DEFAULT_VERSION) w)
    as (Hm & Hh & Hp & Hl).
  cbn zeta in Hrun, Hm, Hh, Hp, Hl.
  rewrite (outcome_exec (build fuel _) _) in Hrun.
  unfold outcome in Hret at 1.
  destruct (outcome (build fuel _) _) as [[] | e |]; cbn [fst snd] in Hrun;
    try (rewrite Hrun in Hret; discriminate Hret).
  change (isMaster (new_Builder n (Some config.DEFAULT_VERSION) None)) with true in Hrun.
  rewrite andb_false_r in Hrun. cbn [ret] in Hrun.
  apply (f_equal snd) in Hrun. cbn [snd] in Hrun. fold (exec (build_package fuel n (Some config.DEFAULT_VERSION)) w) in Hrun.
  rewrite Hrun. unfold ret. cbn [snd].
  match goal with
  | |- context [exec (updateManifest ?b) (exec (git_checkout "-") ?w2)] =>
      destruct (checked_out_back b w2) as (Hm3 & Hh3 & Hl3)
  end.
  cbn zeta in Hm3, Hh3, Hl3. rewrite Hm3, Hh3, Hl3, Hm, Hp, Hl. now repeat split.
Qed.

Lemma forEach_build_default (fuel : nat) (ns : list string) (w : World) :
  let c := forEach (fun n => build_package fuel n (Some config.DEFAULT_VERSION)) ns in
  NoDup (map mod_id (manifest w)) ->
  outcome c w = Return tt ->
  (forall n, n ∈ ns -> config.DEFAULT_VERSION ∈ versions_of n (manifest (exec c w)))
  /\ (forall n v, v ∈ versions_of n (manifest w) ->
                  v ∈ versions_of n (manifest (exec c w)))
  /\ HEAD (exec c w) = HEAD w
  /\ checkouts (git_log (exec c w))
     = checkouts (git_log w) ++ repeat config.DEFAULT_VERSION (length ns).
Proof.
  cbn zeta. revert w. induction ns as [| n ns IH]; intros w Hnd.
  - intros _. cbn. rewrite app_nil_r. repeat split; [| auto].
    intros n Hn. inversion Hn.
  - unfold outcome, exec. cbn [forEach]. unfold bind.
    pose proof (build_package_default fuel n w) as Hstep. cbn zeta in Hstep.
    unfold outcome, exec in Hstep.
    destruct (build_package fuel n (Some config.DEFAULT_VERSION) w)
      as [[[] | e |] w1]; try discriminate.
    cbn [fst snd] in Hstep. destruct (Hstep eq_refl) as (Hm1 & Hh1 & Hl1).
    assert (Hnd1 : NoDup (map mod_id (manifest w1)))
      by (rewrite Hm1; now apply updated_manifest_NoDup_ids).
    intros Hret. destruct (IH w1 Hnd1 Hret) as (Hall & Hkeep & Hh & Hl).
    unfold exec in Hall, Hkeep, Hh, Hl.
    assert (Hkeep1 : forall n' v, v ∈ versions_of n' (manifest w) ->
                                  v ∈ versions_of n' (manifest w1)).
    { intros n' v Hv. rewrite Hm1. now apply updated_manifest_keeps_versions. }
    split; [| split; [| split]].
    + intros n' Hn'. apply elem_of_cons in Hn' as [-> | Hn']; [| now apply Hall].
      apply Hkeep. rewrite Hm1.
      pose proof (versions_of_updated_manifest
                    (new_Builder n (Some config.DEFAULT_VERSION) None) (manifest w)) as Hv.
      cbn [name new_Builder] in Hv. rewrite Hv.
      apply (record_version_elem config.DEFAULT_VERSION).
    + intros n' v Hv. now apply Hkeep, Hkeep1.
    + congruence.
    + rewrite Hl, Hl1, <- app_assoc. reflexivity.
Qed.

(** From a manifest whose modules have distinct ids: when [buildAll]
    returns, the manifest lists the default version for every package found
    below [./packages] and has lost no version it listed; the work tree is
    back at the ref it was at; and the only ref checked out, once for each
    package, was the default one: [updateDep], which checks out the tags of
    the umbrella package, has not run. *)
Theorem buildAll_records_packages (fuel : nat) (w : World) :
  NoDup (map mod_id (manifest w)) ->
  outcome (buildAll fuel) w = Return tt ->
  let w' := exec (buildAll fuel) w in
  (forall n, n ∈ globby_packages (HEAD w) ->
             config.DEFAULT_VERSION ∈ versions_of n (manifest w'))
  /\ (forall n v, v ∈ versions_of n (manifest w) -> v ∈ versions_of n (manifest w'))
  /\ HEAD w' = HEAD w
  /\ checkouts (git_log w')
     = checkouts (git_log w)
       ++ repeat config.DEFAULT_VERSION (length (globby_packages (HEAD w))).
Proof.
  intros Hnd Hret. cbn zeta.
  exact (forEach_build_default fuel (globby_packages (HEAD w)) w Hnd Hret).
Qed.

Lemma forEach_stops {A : Type} (f : A -> M unit) (done rest : list A) (x : A)
    (w : World) :
  outcome (forEach f done) w = Return tt ->
  outcome (f x) (exec (forEach f done) w) <> Return tt ->
  forEach f (done ++ x :: rest) w = f x (exec (forEach f done) w).
Proof.
  revert w. induction done as [| d done IH]; intros w; cbn [forEach app].
  - intros _ Hx. unfold exec at 1, ret. cbn [snd]. unfold bind.
    unfold outcome, exec in Hx. cbn [ret snd] in Hx.
    destruct (f x w) as [[[] | e |] w1]; try reflexivity. now destruct Hx.
  - unfold outcome, exec, bind. destruct (f d w) as [[[] | e |] w1]; try discriminate.
    apply IH.
Qed.

(** [buildAll] stops at the first package whose build does not return: its
    outcome and the world it leaves are those of that build, and the packages
    listed after it are not built. *)
Theorem buildAll_stops_at_failure (fuel : nat) (w : World) (done rest : list string)
    (n : string) :
  let build_default := fun n => build_package fuel n (Some config.DEFAULT_VERSION) in
  globby_packages (HEAD w) = done ++ n :: rest ->
  outcome (forEach build_default done) w = Return tt ->
  outcome (build_default n) (exec (forEach build_default done) w) <> Return tt ->
  buildAll fuel w = build_default n (exec (forEach build_default done) w).
Proof.
  cbn zeta. intros Hglob Hdone Hn. unfold buildAll, bind, get_world.
  rewrite Hglob.
  exact (forEach_stops (fun n => build_package fuel n (Some config.DEFAULT_VERSION))
           done rest n w Hdone Hn).
Qed.

(** ** More on [updateDep] *)

Lemma updateDep_loop_files (b : Builder) (vs us : list string) :
  preserves (files_outside (fun p => exists u, added_to (new_Bundler (inl u)) b p))
            (updateDep_loop b vs us).
Proof.
  induction us as [| u us IH]; cbn [updateDep_loop].
  - apply preserves_ret. apply _.
  - apply preserves_bind; [apply _ | now apply modify_preserves | intros _].
    apply preserves_bind;
      [apply _ | apply unchanged_preserves; [apply _ | apply getDeps_unchanged] |].
    intros deps.
    apply preserves_bind; [apply _ | now apply modify_preserves | intros _].
    destruct (findWhere (has_name (name b)) deps) as [dep |];
      [| apply preserves_throw; apply _].
    destruct (negb _); [apply preserves_ret; apply _ |].
    apply preserves_bind; [apply _ | | intros _; exact IH].
    intros w p Hp. apply add_files_outside. intros Hadd. apply Hp. now exists u.
Qed.

(** Whatever its outcome, [updateDep] leaves the manifest as it is and
    writes no file but those of the builder's package inside the bundles of
    the umbrella package; when it returns, the work tree is back at the ref
    it was at. *)
Theorem updateDep_touches_bundles_only (b : Builder) (w : World) :
  let w' := exec (updateDep b) w in
  manifest w' = manifest w
  /\ (forall p, (forall u x, p <> umbrella_dir u ++ [name b; x]) ->
                files w' !! p = files w !! p)
  /\ (outcome (updateDep b) w = Return tt -> HEAD w' = HEAD w).
Proof.
  cbn zeta. split; [apply updateDep_same_manifest |].
  split; [| apply updateDep_head].
  intros p Hp. unfold exec, updateDep.
  destruct (isMaster b); [reflexivity |]. unfold bind, get_world.
  destruct (findWhere (has_id UMBRELLA_PACKAGE) (manifest w)); [| reflexivity].
  destruct (findWhere (has_id (name b)) (manifest w)); [| reflexivity].
  apply updateDep_loop_files. intros (u & x & ->). now apply (Hp u x).
Qed.

(** A builder of a version other than the default one whose package, or
    the umbrella package, has no entry in the manifest: [updateDep] throws a
    [TypeError] and leaves the world as it is. *)
Theorem updateDep_without_entry (b : Builder) (w : World) :
  isMaster b = false ->
  findWhere (has_id UMBRELLA_PACKAGE) (manifest w) = None
  \/ findWhere (has_id (name b)) (manifest w) = None ->
  exists message, updateDep b w = (Throw (TypeError message), w).
Proof.
  intros Hm H. unfold updateDep. rewrite Hm. unfold bind, get_world.
  destruct (findWhere (has_id UMBRELLA_PACKAGE) (manifest w)); [| now eexists].
  destruct H as [H | H]; [discriminate |]. rewrite H. now eexists.
Qed.

(** When the newest recorded version of the umbrella package, not the only
    one, does not depend on the builder's package, [updateDep] throws a
    [TypeError] after it has checked out the tag of that version and gone back:
    no file is written and no older version is visited. *)
Theorem updateDep_not_a_dependency (b : Builder) (w : World) (u u' : string)
    (us : list string) (dependencies : list (string * string)) :
  isMaster b = false ->
  findWhere (has_id (name b)) (manifest w) <> None ->
  bundleVersions w = u :: u' :: us ->
  package_json (umbrella_tag u) = Some dependencies ->
  findWhere (has_name (name b)) (scoped_deps dependencies) = None ->
  exists message,
    updateDep b w = (Throw (TypeError message), exec (visit u) w).
Proof.
  intros Hm Hc Hus Hpkg Hdep.
  destruct (findWhere (has_id (name b)) (manifest w)) as [c |] eqn:Hfind;
    [| contradiction].
  destruct (findWhere (has_id UMBRELLA_PACKAGE) (manifest w)) as [bc |] eqn:Hbc.
  - rewrite (updateDep_run b w bc c Hm Hbc Hfind), Hus.
    replace (take (length (u :: u' :: us) - 1) (u :: u' :: us))
      with (u :: take (length us) (u' :: us))
      by reflexivity.
    rewrite updateDep_loop_cons, Hpkg, Hdep. now eexists.
  - unfold bundleVersions, versions_of in Hus. rewrite Hbc in Hus. discriminate.
Qed.

(** ** What [add] writes *)

Lemma glob_json_exists (d : path) (ignore : list path) (fs : gmap path file) (f : path) :
  f ∈ glob_json d ignore fs -> is_Some (fs !! f).
Proof.
  unfold glob_json. rewrite list_elem_of_In, filter_In. intros [Hin _].
  apply in_map_iff in Hin as ([k v] & <- & Hkv). cbn [fst].
  apply list_elem_of_In, elem_of_map_to_list in Hkv. now exists v.
Qed.

Lemma add_file_writes (this : Bundler) (b : Builder) (f : path) :
  preserves (files_outside (fun p => p = dir (builder this) ++ [name b; basename f]))
            (add_file this b f).
Proof.
  unfold add_file. apply preserves_bind; [apply _ | apply require_files_outside |].
  intros [| | | | l | o]; try apply preserves_throw; try apply _.
  - now apply writeFileSync_files_outside.
  - apply preserves_bind; [apply _ | apply mutate_required_files_outside |].
    intros _. now apply writeFileSync_files_outside.
Qed.

(** Whatever its outcome, the only files [add] writes are
    [<bundle>/<name>/<x>] for the [x] that are files of the builder's
    directory other than [types.json] and [toc.json]: the dictionary and
    the table of contents of a package are not copied into the bundle, and
    nothing is written elsewhere. *)
Theorem add_copies_documents_only (this : Bundler) (b : Builder) (w : World)
    (p : path) :
  (forall x, p = dir (builder this) ++ [name b; x] ->
             x = config.TYPES_DICT \/ x = config.TOC
             \/ files w !! (dir b ++ [x]) = None) ->
  files (exec (add this b) w) !! p = files w !! p.
Proof.
  intros Hp. unfold exec. rewrite add_run.
  set (ignore := map (fun f => dir b ++ [f]) [config.TYPES_DICT; config.TOC]).
  apply (preserves_forEach_in
           (files_outside (fun q => exists f, f ∈ glob_json (dir b) ignore (files w)
                                     /\ q = dir (builder this) ++ [name b; basename f]))).
  - intros f Hf w0 q Hq. apply add_file_writes. intros ->. apply Hq. now exists f.
  - intros (f & Hf & ->).
    destruct (glob_json_exists _ _ _ _ Hf) as [v Hv].
    apply glob_json_elem in Hf as [Hd Hign].
    destruct (Hp (basename f) eq_refl) as [Hx | [Hx | Hx]].
    + apply Hign. rewrite Hd, Hx. left.
    + apply Hign. rewrite Hd, Hx. right. left.
    + rewrite <- Hd in Hx. congruence.
Qed.

(** ** Errors of [bundle] *)

Lemma mapM_resolve_dep_unknown (deps : list Dep) (w : World) (n : string) :
  n ∈ map dep_name deps -> findWhere (has_id n) (manifest w) = None ->
  exists message, mapM resolve_dep deps w = (Throw (TypeError message), w).
Proof.
  intros Hn Hnone. induction deps as [| d deps IH]; [inversion Hn |].
  cbn [mapM]. unfold bind at 1, resolve_dep at 1, bind at 1, get_world.
  destruct (findWhere (has_id (dep_name d)) (manifest w)) as [c |] eqn:Hd;
    [| now eexists].
  cbn [ret]. cbn [map] in Hn. apply elem_of_cons in Hn as [-> | Hn]; [congruence |].
  destruct (IH Hn) as [message Hm]. unfold bind. rewrite Hm. now eexists.
Qed.

Lemma require_fuel (p : path) (w : World) : outcome (require p) w <> OutOfFuel.
Proof.
  unfold outcome, require. destruct (require_cache w !! p); [discriminate |].
  destruct (files w !! p) as [[j | s] |]; discriminate.
Qed.

(** When the umbrella package depends on a package the manifest has no
    entry for, [bundle] throws before it touches git or writes any file; when
    the dictionary of the umbrella docs is there for [getTypes], what it
    throws is the [TypeError] of reading the [versions] of the entry that
    [findWhere] did not find. *)
Theorem bundle_unknown_dependency (fuel : nat) (this : Bundler) (w : World)
    (n : string) :
  n ∈ bundled_names (HEAD w) ->
  findWhere (has_id n) (manifest w) = None ->
  let w' := exec (bundle (S fuel) this) w in
  (exists e, outcome (bundle (S fuel) this) w = Throw e)
  /\ (forall base, outcome (getTypes (builder this)) w = Return base ->
        exists message, outcome (bundle (S fuel) this) w = Throw (TypeError message))
  /\ files w' = files w /\ git_log w' = git_log w.
Proof.
  intros Hn Hnone. cbn zeta.
  assert (Hrun : exists e w', bundle (S fuel) this w = (Throw e, w')
                   /\ (forall base, outcome (getTypes (builder this)) w = Return base ->
                         exists message, e = TypeError message)
                   /\ files w' = files w /\ git_log w' = git_log w).
  { cbn [bundle]. unfold bundle_with. unfold bind at 1.
    pose proof (require_same_repo (dir (builder this) ++ [config.TYPES_DICT]) w)
      as (Hma & Hha & _ & Hla).
    pose proof (require_files (dir (builder this) ++ [config.TYPES_DICT]) w) as Hfa.
    pose proof (require_fuel (dir (builder this) ++ [config.TYPES_DICT]) w) as Hfuel.
    unfold outcome, exec in Hma, Hha, Hla, Hfa, Hfuel. unfold outcome, getTypes.
    destruct (require _ w) as [[base | e |] wa]; cbn [fst snd] in *;
      [| exists e, wa; repeat split; try assumption; intros base Hb; discriminate Hb
       | contradiction].
    unfold bind at 1, getDeps at 1, bind at 1, get_world.
    unfold bundled_names in Hn. rewrite Hha.
    destruct (package_json (HEAD w)) as [dependencies |]; [| inversion Hn].
    cbn [ret]. rewrite <- Hma in Hnone.
    destruct (mapM_resolve_dep_unknown _ wa n Hn Hnone) as [message Hm].
    unfold bind. rewrite Hm. eexists _, wa. split; [reflexivity |].
    split; [intros _ _; now exists message | now split]. }
  destruct Hrun as (e & w' & Hrun & Hty & Hf & Hl).
  unfold outcome at 1 3, exec. rewrite Hrun. cbn [fst snd].
  split; [now exists e |]. split; [| now split].
  intros base Hb. destruct (Hty base Hb) as [message ->]. now exists message.
Qed.

(** ** The dictionary [getTypes] returns *)

Lemma require_cached (p : path) (w : World) (j : json) :
  outcome (require p) w = Return j ->
  require_cache (exec (require p) w) !! p = Some j.
Proof.
  unfold outcome, exec, require.
  destruct (require_cache w !! p) as [j' |] eqn:Hc.
  - cbn. now intros [= <-].
  - destruct (files w !! p) as [[j' | s] |]; try discriminate.
    cbn. intros [= <-]. apply lookup_insert_eq.
Qed.

(** Once [getTypes] has returned the dictionary of a package other than the
    umbrella package, a build of that package in the same process writes its
    dictionary to [types.json], and [getTypes] still returns the one it
    returned before: [require] serves the module it has loaded. *)
Theorem getTypes_stale_after_rebuild (fuel : nat) (this : Builder) (w : World)
    (j : json) :
  isUmbrella this = false ->
  outcome (getTypes this) w = Return j ->
  let w1 := exec (getTypes this) w in
  let w2 := exec (build fuel this) w1 in
  outcome (build fuel this) w1 = Return tt ->
  files w2 !! (dir this ++ [config.TYPES_DICT])
  = Some (FJson (JArr (dictionary (HEAD w) (name this))))
  /\ outcome (getTypes this) w2 = Return j.
Proof.
  intros Hu Hj. cbn zeta. intros Hret.
  pose proof (require_cached _ _ _ Hj) as Hc.
  pose proof (require_same_repo (dir this ++ [config.TYPES_DICT]) w) as (_ & Hh & _).
  fold (getTypes this) in Hc, Hh.
  set (w1 := exec (getTypes this) w) in *.
  assert (Hrun : build_with (bundle fuel) this w1
                 = (Return tt, exec (build fuel this) w1)).
  { fold (build fuel this). rewrite (outcome_exec (build fuel this) w1).
    now rewrite Hret. }
  set (w2 := exec (build fuel this) w1) in *.
  destruct (build_with_plain (bundle fuel) this w1 w2 Hu Hrun)
    as (_ & Hcache & Hfile).
  rewrite Hh in Hfile. split; [exact Hfile |].
  unfold outcome, getTypes, require. now rewrite Hcache, Hc.
Qed.

(** ** A bundle that succeeds *)

(** When [bundle] returns, the [toc.json] of the umbrella docs is the table
    of contents of the dictionary in their [types.json], made as a bundled
    one, with the tag of the umbrella builder as [tagName]. *)
Theorem bundle_toc_matches_dictionary (fuel : nat) (this : Bundler) (w w' : World) :
  bundle fuel this w = (Return tt, w') ->
  exists types,
    files w' !! (dir (builder this) ++ [config.TYPES_DICT]) = Some (FJson (JArr types))
    /\ files w' !! (dir (builder this) ++ [config.TOC])
       = Some (FJson (JObj (set_field "tagName" (JStr (getTagName (builder this)))
                              (parser_createToc types true)))).
Proof.
  destruct fuel as [| fuel]; [discriminate |]. cbn [bundle]. unfold bundle_with.
  intros H.
  apply bind_inv_Return in H as (base & w1 & _ & H).
  apply bind_inv_Return in H as (deps & w2 & _ & H).
  apply bind_inv_Return in H as (rdeps & w3 & _ & H).
  apply bind_inv_Return in H as ([] & w4 & _ & H).
  apply bind_inv_Return in H as (tss & w5 & _ & H).
  destruct base as [| | | | baseTypes | o]; try discriminate.
  unfold bind, write, writeFileSync, modify, git_command in H. injection H as <-.
  exists (baseTypes ++ concat tss). cbn [files set_files]. split.
  - rewrite lookup_insert_ne by (intros H; apply app_inv_head in H; discriminate).
    apply lookup_insert_eq.
  - apply lookup_insert_eq.
Qed.

Lemma mapM_resolve_dep_resolved (deps : list Dep) (rdeps : list ResolvedDep)
    (w w1 : World) :
  mapM resolve_dep deps w = (Return rdeps, w1) ->
  rdeps = map (resolved (manifest w)) deps.
Proof.
  revert rdeps w1. induction deps as [| d deps IH]; intros rdeps w1; cbn [mapM map].
  - now intros [= <- <-].
  - unfold bind at 1, resolve_dep at 1, bind at 1, get_world.
    destruct (findWhere (has_id (dep_name d)) (manifest w)) as [c |] eqn:Hc;
      [| discriminate].
    cbn [ret]. unfold bind.
    destruct (mapM resolve_dep deps w) as [[rdeps' | e |] w2] eqn:Hm; try discriminate.
    intros [= <- <-]. rewrite (IH rdeps' w2 eq_refl). f_equal.
    unfold resolved, versions_of. now rewrite Hc.
Qed.

Lemma bundle_dep_log (bundle' : Bundler -> M unit) (this : Bundler)
    (dep : ResolvedDep) (ts : list json) (w w1 : World) :
  rdep_name dep <> UMBRELLA_PACKAGE ->
  bundle_dep (build_with bundle') this dep w = (Return ts, w1) ->
  git_log w1 = git_log w ++ [SubmoduleCheckout (getTagName (dep_builder dep))].
Proof.
  intros Hname. unfold bundle_dep. fold (dep_builder dep). intros H.
  assert (Hplain : isUmbrella (dep_builder dep) = false).
  { unfold dep_builder, new_Builder. cbn [isUmbrella]. now apply String.eqb_neq. }
  apply bind_inv_Return in H as ([] & wa & Ha & H).
  apply bind_inv_Return in H as ([] & wb & Hb & H).
  apply bind_inv_Return in H as ([] & wc & Hc & H).
  apply bind_inv_Return in H as (types & wd & Hd & H).
  injection Ha as <-.
  destruct (build_with_plain _ _ _ _ Hplain Hb) as ((_ & _ & _ & Hlb) & _).
  pose proof (add_same_repo this (dep_builder dep) wb) as (_ & _ & _ & Hlc).
  unfold exec in Hlc. rewrite Hc in Hlc. cbn [snd] in Hlc.
  pose proof (require_same_repo (dir (dep_builder dep) ++ [config.TYPES_DICT]) wc)
    as (_ & _ & _ & Hld).
  unfold exec in Hld. unfold getTypes in Hd. rewrite Hd in Hld. cbn [snd] in Hld.
  assert (Hl1 : git_log w1 = git_log wd).
  { destruct types as [| | | | ts0 | o]; try discriminate.
    destruct (prefix_types (rdep_name dep) ts0) as [ts' ok].
    unfold bind, mutate_required, modify in H.
    destruct ok; [| discriminate]. now injection H as _ <-. }
  rewrite Hl1, Hld, Hlc, Hlb. reflexivity.
Qed.

Lemma mapM_bundle_dep_log (bundle' : Bundler -> M unit) (this : Bundler)
    (rdeps : list ResolvedDep) (tss : list (list json)) (w w1 : World) :
  UMBRELLA_PACKAGE ∉ map rdep_name rdeps ->
  mapM (bundle_dep (build_with bundle') this) rdeps w = (Return tss, w1) ->
  git_log w1
  = git_log w ++ map (fun d => SubmoduleCheckout (getTagName (dep_builder d))) rdeps.
Proof.
  revert w tss. induction rdeps as [| d rdeps IH]; intros w tss Humb; cbn [mapM map].
  - intros [= <- <-]. now rewrite app_nil_r.
  - cbn [map] in Humb. apply not_elem_of_cons in Humb as [Hne Humb]. intros H.
    apply bind_inv_Return in H as (ts & w2 & Hd & H).
    apply bind_inv_Return in H as (tss' & w3 & Hrest & H).
    injection H as _ <-.
    rewrite (IH _ _ Humb Hrest), (bundle_dep_log _ _ _ _ _ _ (not_eq_sym Hne) Hd).
    now rewrite <- app_assoc.
Qed.

(** When [bundle] returns it has made the submodule, checked out in it, for
    each dependency of the scope in the order of [package.json], the tag of
    the builder made with [semver.maxSatisfying] of the valid versions the
    manifest records and the declared range, and removed the submodule; these
    are all the git commands it has issued.  A dependency whose range no
    recorded version satisfies is not skipped: [maxSatisfying] returns [null],
    the builder made with it is of the default version, and the default
    version is checked out to build its docs. *)
Theorem bundle_builds_resolved_versions (fuel : nat) (this : Bundler) (w w' : World)
    (dependencies : list (string * string)) :
  package_json (HEAD w) = Some dependencies ->
  bundle fuel this w = (Return tt, w') ->
  git_log w' = git_log w ++ bundle_commands (manifest w) (scoped_deps dependencies)
  /\ forall dep,
       dep ∈ scoped_deps dependencies ->
       semver_maxSatisfying (valid_versions (versions_of (dep_name dep) (manifest w)))
                            (dep_version dep) = None ->
       SubmoduleCheckout config.DEFAULT_VERSION ∈ git_log w'.
Proof.
  intros Hpkg Hret.
  assert (Hlog : git_log w'
                 = git_log w ++ bundle_commands (manifest w) (scoped_deps dependencies)).
  { assert (Humb : UMBRELLA_PACKAGE ∉ bundled_names (HEAD w)).
    { intros Hin. eapply (bundle_self_dependent fuel _ w Hin).
      unfold outcome. now rewrite Hret. }
    unfold bundled_names in Humb. rewrite Hpkg in Humb.
    destruct fuel as [| fuel]; [discriminate Hret |].
    cbn [bundle] in Hret. unfold bundle_with in Hret.
    apply bind_inv_Return in Hret as (base & w1 & H1 & Hret).
    pose proof (require_same_repo (dir (builder this) ++ [config.TYPES_DICT]) w)
      as (Hm1 & Hh1 & _ & Hl1).
    unfold exec in Hm1, Hh1, Hl1. unfold getTypes in H1. rewrite H1 in Hm1, Hh1, Hl1.
    cbn [snd] in Hm1, Hh1, Hl1.
    apply bind_inv_Return in Hret as (deps & w2 & H2 & Hret).
    unfold getDeps, bind, get_world in H2. rewrite Hh1, Hpkg in H2.
    injection H2 as <- <-.
    apply bind_inv_Return in Hret as (rdeps & w3 & H3 & Hret).
    pose proof (mapM_resolve_dep_resolved _ _ _ _ H3) as Hrdeps.
    apply mapM_resolve_dep in H3 as [-> Hnames].
    apply bind_inv_Return in Hret as ([] & w4 & H4 & Hret). injection H4 as <-.
    apply bind_inv_Return in Hret as (tss & w5 & H5 & Hret).
    apply mapM_bundle_dep_log in H5; [| now rewrite Hnames].
    destruct base as [| | | | baseTypes | o]; try discriminate.
    unfold bind, write, writeFileSync, modify, git_command in Hret.
    injection Hret as <-. cbn [git_log set_files]. rewrite H5. cbn [git_log].
    rewrite Hl1, Hrdeps, Hm1, map_map. unfold bundle_commands.
    rewrite <- !app_assoc. reflexivity. }
  split; [exact Hlog |]. intros dep Hdep Hnone. rewrite Hlog.
  apply elem_of_app. right. unfold bundle_commands. right.
  apply elem_of_app. left. apply list_elem_of_fmap. exists dep. split; [| exact Hdep].
  unfold resolved_builder. now rewrite Hnone.
Qed.

(** ** The documents [add] writes *)

Lemma glob_json_NoDup (d : path) (ignore : list path) (fs : gmap path file) :
  NoDup (glob_json d ignore fs).
Proof.
  unfold glob_json. apply NoDup_ListNoDup, List.NoDup_filter, NoDup_ListNoDup.
  apply NoDup_fst_map_to_list.
Qed.

Lemma require_outcome_eq (p : path) (w w' : World) :
  require_cache w' !! p = require_cache w !! p -> files w' !! p = files w !! p ->
  outcome (require p) w' = outcome (require p) w.
Proof.
  intros Hc Hf. unfold outcome, require. rewrite Hc, Hf.
  destruct (require_cache w !! p); [reflexivity |].
  now destruct (files w !! p) as [[j | t] |].
Qed.

Lemma add_file_document (this : Bundler) (b : Builder) (f : path) (o : obj) (w : World) :
  outcome (require f) w = Return (JObj o) ->
  exists w1, add_file this b f w = (Return tt, w1)
    /\ files w1 !! (dir (builder this) ++ [name b; basename f])
       = Some (FJson (JObj (with_overview o))).
Proof.
  unfold outcome. intros Hreq. unfold add_file, bind at 1.
  destruct (require f w) as [[j | e |] wa]; cbn [fst] in Hreq; try discriminate.
  injection Hreq as ->.
  unfold bind, mutate_required, write, writeFileSync, modify.
  eexists. split; [reflexivity |]. cbn [files set_files set_require_cache].
  apply lookup_insert_eq.
Qed.

Lemma forEach_add_file_document (this : Bundler) (b : Builder) (l : list path)
    (f : path) (o : obj) (w : World) :
  NoDup l -> (forall g, g ∈ l -> g = dir b ++ [basename g]) ->
  dir b <> dir (builder this) ++ [name b] ->
  f ∈ l ->
  outcome (require f) w = Return (JObj o) ->
  outcome (forEach (add_file this b) l) w = Return tt ->
  files (exec (forEach (add_file this b) l) w)
    !! (dir (builder this) ++ [name b; basename f])
  = Some (FJson (JObj (with_overview o))).
Proof.
  intros Hnd Hl Hdir. revert w. induction l as [| g l IH]; intros w Hin Hreq;
    [inversion Hin |].
  apply NoDup_cons in Hnd as [Hg Hnd].
  assert (Hl' : forall g', g' ∈ l -> g' = dir b ++ [basename g'])
    by (intros g' Hg'; apply Hl; now right).
  unfold outcome at 1, exec. cbn [forEach]. unfold bind.
  destruct (decide (g = f)) as [-> | Hne].
  - destruct (add_file_document this b f o w Hreq) as (w1 & Hrun & Hout).
    rewrite Hrun. intros _. rewrite <- Hout.
    apply (preserves_forEach_in
             (files_outside (fun q => exists g, g ∈ l
                               /\ q = dir (builder this) ++ [name b; basename g]))).
    + intros g Hg' w0 q Hq. apply add_file_writes. intros ->. apply Hq. now exists g.
    + intros (g & Hg' & Heq). apply app_inv_head in Heq. injection Heq as Heq.
      apply Hg. rewrite (Hl f) by left. rewrite Heq, <- (Hl' g Hg'). exact Hg'.
  - pose proof (add_file_writes this b g w f) as Hfiles.
    pose proof (add_file_cache_outside (fun q => q = g) this b g eq_refl w f) as Hcache.
    unfold exec in Hfiles, Hcache.
    destruct (add_file this b g w) as [[[] | e |] w1]; try discriminate.
    cbn [snd] in Hfiles, Hcache. intros Hret.
    apply elem_of_cons in Hin as [Hin | Hin]; [congruence |].
    apply (IH Hnd Hl' w1 Hin); [| exact Hret].
    rewrite <- Hreq. apply require_outcome_eq.
    + apply Hcache. congruence.
    + apply Hfiles. intros Heq.
      rewrite (Hl f) in Heq by now right.
      change (dir (builder this) ++ [name b; basename g])
        with (dir (builder this) ++ [name b] ++ [basename g]) in Heq.
      rewrite app_assoc in Heq. apply app_inj_tail in Heq as [Heq _].
      contradiction.
Qed.

(** When [add] returns, every JSON document of the builder's directory is
    in the bundle, in the folder of the package under the same name, as
    [require] returns it (the module loaded earlier in the process if there is
    one, the file otherwise) with the overview of its service: the document's
    [parent] or, when that is missing or falsy, its [id]. *)
Theorem add_writes_overview (this : Bundler) (b : Builder) (w : World)
    (x : string) (o : obj) :
  is_json_name x = true -> x <> config.TYPES_DICT -> x <> config.TOC ->
  dir b <> dir (builder this) ++ [name b] ->
  is_Some (files w !! (dir b ++ [x])) ->
  outcome (require (dir b ++ [x])) w = Return (JObj o) ->
  outcome (add this b) w = Return tt ->
  files (exec (add this b) w) !! (dir (builder this) ++ [name b; x])
  = Some (FJson (JObj (with_overview o))).
Proof.
  intros Hjson Htypes Htoc Hdir [fl Hf] Hreq. unfold outcome at 1, exec. rewrite add_run.
  intros Hret.
  set (l := glob_json (dir b)
              (map (fun f => dir b ++ [f]) [config.TYPES_DICT; config.TOC]) (files w)) in *.
  pose proof (forEach_add_file_document this b l (dir b ++ [x]) o w) as H.
  rewrite basename_app in H. apply H; try assumption; subst l.
  - apply glob_json_NoDup.
  - intros g Hg. now apply glob_json_elem in Hg.
  - unfold glob_json. rewrite list_elem_of_In, filter_In. split.
    + apply in_map_iff. exists (dir b ++ [x], fl). split; [reflexivity |].
      now apply list_elem_of_In, elem_of_map_to_list.
    + rewrite basename_app, Hjson. cbn [andb].
      rewrite bool_decide_eq_true_2 by reflexivity. cbn [andb].
      apply negb_true_iff, bool_decide_eq_false. cbn [map].
      intros Hin. apply elem_of_cons in Hin as [Heq | Hin].
      * apply app_inv_head in Heq. congruence.
      * apply list_elem_of_singleton in Hin. apply app_inv_head in Hin. congruence.
Qed.

(** ** Where the document of a source goes *)

Lemma append_assoc (a b c : string) : (a +:+ b) +:+ c = a +:+ (b +:+ c).
Proof.
  induction a as [| x a IH]; [reflexivity |].
  change (String x ((a +:+ b) +:+ c) = String x (a +:+ (b +:+ c))). now rewrite IH.
Qed.

Lemma has_char_append (c : ascii) (a b : string) :
  has_char c (a +:+ b) = has_char c a || has_char c b.
Proof.
  induction a as [| x a IH]; [reflexivity |].
  change (has_char c (String x (a +:+ b)) = has_char c (String x a) || has_char c b).
  cbn [has_char]. now rewrite IH, orb_assoc.
Qed.

Lemma prefix_has_char (pat s : string) (c : ascii) :
  String.prefix pat s = true -> has_char c pat = true -> has_char c s = true.
Proof.
  intros Hp Hc. rewrite <- (prefix_drop_chars pat s Hp), has_char_append, Hc.
  reflexivity.
Qed.

Lemma after_last_none (pat s : string) (c : ascii) :
  has_char c pat = true -> has_char c s = false -> after_last pat s = None.
Proof.
  intros Hpat. induction s as [| x s IH]; [reflexivity |].
  cbn [has_char after_last]. intros H. apply orb_false_elim in H as [Hx Hs].
  rewrite (IH Hs).
  destruct (String.prefix pat (String x s)) eqn:Hp; [| reflexivity].
  apply (prefix_has_char _ _ c) in Hp; [| exact Hpat].
  cbn [has_char] in Hp. rewrite Hs, orb_false_r in Hp. congruence.
Qed.

Lemma after_last_append (pat p s r : string) :
  after_last pat s = Some r -> after_last pat (p +:+ s) = Some r.
Proof.
  intros H. induction p as [| x p IH]; [exact H |].
  change (after_last pat (String x (p +:+ s)) = Some r).
  cbn [after_last]. now rewrite IH.
Qed.

Lemma replace_to_src_source (n y : string) :
  has_char "/" y = false -> replace_to_src (n +:+ "/src/" +:+ y) = y.
Proof.
  intros Hy.
  assert (Hsrc : after_last "src/" ("src/" +:+ y) = Some y).
  { change ("src/" +:+ y) with (String "s" (String "r" (String "c" (String "/" y)))).
    cbn [after_last]. rewrite (after_last_none "src/" y "/" eq_refl Hy).
    cbn. unfold drop_chars. cbn.
    replace (String.prefix "" y) with true by (now destruct y).
    now rewrite Nat.sub_0_r, substring_all. }
  destruct n as [| c n].
  - change (replace_to_src (String "/" ("src/" +:+ y)) = y).
    cbn [replace_to_src]. now rewrite Hsrc.
  - change (replace_to_src (String c (n +:+ (String "/" ("src/" +:+ y)))) = y).
    cbn [replace_to_src].
    rewrite (after_last_append "src/" n (String "/" ("src/" +:+ y)) y); [reflexivity |].
    cbn [after_last]. now rewrite Hsrc.
Qed.

Lemma split_path_from_name (acc s : string) :
  has_char "/" s = false ->
  split_path_from acc s = if String.eqb (acc +:+ s) "" then [] else [acc +:+ s].
Proof.
  revert acc. induction s as [| c s IH]; intros acc; cbn [has_char split_path_from].
  - intros _. replace (acc +:+ "") with acc; [reflexivity |].
    clear. induction acc as [| x acc IH]; [reflexivity |].
    change (String x acc = String x (acc +:+ "")). now rewrite <- IH.
  - intros H. apply orb_false_elim in H as [Hc Hs].
    rewrite Ascii.eqb_sym, Hc, (IH _ Hs), append_assoc. reflexivity.
Qed.

(** The document of a source [<n>/src/<x>.js] is written to [<x>.json] in
    the builder's directory, with that name as its [path], and returned.  The
    file name [x] holds no slash; the package path [n] is made of printable
    characters, which the [.] of the regular expression in [build] matches:
    it does not match a line terminator. *)
Theorem build_file_writes_document (this : Builder) (n x : string) (j : obj)
    (w : World) :
  let f := n +:+ "/src/" +:+ x +:+ ".js" in
  let doc := set_field "path" (JStr (x +:+ ".json")) j in
  printable n = true -> has_char "/" x = false ->
  parse_source (HEAD w) f = inr j ->
  build_file this f w
  = (Return doc,
     set_files (<[dir this ++ [x +:+ ".json"] := FJson (JObj doc)]> (files w)) w).
Proof.
  cbn zeta. intros _ Hx Hj. rewrite build_file_run, Hj. cbn zeta.
  assert (Hy : has_char "/" (x +:+ ".js") = false)
    by (rewrite has_char_append, Hx; reflexivity).
  rewrite (replace_to_src_source n _ Hy), append_assoc.
  change (".js" +:+ "on") with ".json".
  assert (Hout : has_char "/" (x +:+ ".json") = false)
    by (rewrite has_char_append, Hx; reflexivity).
  unfold basename_str, split_path.
  rewrite (after_last_none "/" _ "/" eq_refl Hout), (split_path_from_name "" _ Hout).
  cbn [default]. change ("" +:+ (x +:+ ".json")) with (x +:+ ".json").
  destruct (String.eqb (x +:+ ".json") "") eqn:Hempty; [| reflexivity].
  apply String.eqb_eq in Hempty. destruct x; discriminate Hempty.
Qed.

(** ** Building twice *)

Lemma written_app (l2 l1 : list (path * file)) (fs : gmap path file) :
  written (l2 ++ l1) fs = written l2 (written l1 fs).
Proof. unfold written. apply foldr_app. Qed.

Lemma written_elem (l : list (path * file)) (m m' : gmap path file) (k : path) :
  k ∈ l.*1 -> written l m !! k = written l m' !! k.
Proof.
  induction l as [| [k' v] l IH]; cbn [written foldr fmap list_fmap fst snd];
    [intros H; inversion H |].
  intros Hk. destruct (decide (k' = k)) as [-> | Hne].
  - now rewrite !lookup_insert_eq.
  - rewrite !lookup_insert_ne by exact Hne. apply IH.
    apply elem_of_cons in Hk as [Hk | Hk]; [congruence | exact Hk].
Qed.

Lemma written_other (l : list (path * file)) (m : gmap path file) (k : path) :
  k ∉ l.*1 -> written l m !! k = m !! k.
Proof.
  induction l as [| [k' v] l IH]; cbn [written foldr fmap list_fmap fst snd];
    [reflexivity |].
  intros Hk. apply not_elem_of_cons in Hk as [Hne Hk].
  rewrite lookup_insert_ne by congruence. now apply IH.
Qed.

Lemma written_idemp (l : list (path * file)) (m : gmap path file) :
  written l (written l m) = written l m.
Proof.
  apply map_eq. intros k. destruct (decide (k ∈ l.*1)) as [Hk | Hk].
  - now apply written_elem.
  - now apply written_other.
Qed.

Lemma set_files_same (w : World) : set_files (files w) w = w.
Proof. now destruct w. Qed.

Lemma writes_at_ret {A : Type} (h : string) (a : A) : writes_at h (ret a).
Proof. exists [], (Return a). intros w _. cbn. now rewrite set_files_same. Qed.

Lemma writes_at_throw {A : Type} (h : string) (e : JsError) : writes_at h (@throw A e).
Proof. exists [], (Throw e). intros w _. cbn. now rewrite set_files_same. Qed.

Lemma writes_at_bind {A B : Type} (h : string) (c : M A) (k : A -> M B) :
  writes_at h c -> (forall a, writes_at h (k a)) -> writes_at h (bind c k).
Proof.
  intros (l1 & o1 & H1) Hk. destruct o1 as [a | e |].
  - destruct (Hk a) as (l2 & o2 & H2). exists (l2 ++ l1), o2. intros w Hw.
    unfold bind. rewrite (H1 w Hw), (H2 (set_files (written l1 (files w)) w) Hw).
    cbn [files set_files]. now rewrite written_app.
  - exists l1, (Throw e). intros w Hw. unfold bind. now rewrite (H1 w Hw).
  - exists l1, OutOfFuel. intros w Hw. unfold bind. now rewrite (H1 w Hw).
Qed.

Lemma writes_at_get_world {A : Type} (h : string) (k : World -> M A) (c : M A) :
  (forall w, HEAD w = h -> k w = c) -> writes_at h c -> writes_at h (bind get_world k).
Proof.
  intros Hk (l & o & Hc). exists l, o. intros w Hw.
  unfold bind, get_world. rewrite (Hk w Hw). now apply Hc.
Qed.

Lemma writes_at_insert (h : string) (p : path) (f : file) :
  writes_at h (modify (fun w => set_files (<[p := f]> (files w)) w)).
Proof. exists [(p, f)], (Return tt). intros w _. reflexivity. Qed.

Lemma writes_at_forEach {A : Type} (h : string) (f : A -> M unit) (l : list A) :
  (forall x, writes_at h (f x)) -> writes_at h (forEach f l).
Proof.
  intros Hf. induction l as [| x l IH]; cbn [forEach].
  - apply writes_at_ret.
  - apply writes_at_bind; [apply Hf | intros _; exact IH].
Qed.

Lemma writes_at_mapM {A B : Type} (h : string) (f : A -> M B) (l : list A) :
  (forall x, writes_at h (f x)) -> writes_at h (mapM f l).
Proof.
  intros Hf. induction l as [| x l IH]; cbn [mapM].
  - apply writes_at_ret.
  - apply writes_at_bind; [apply Hf | intros y].
    apply writes_at_bind; [exact IH | intros ys; apply writes_at_ret].
Qed.

Lemma writes_at_build_file (h : string) (this : Builder) (f : string) :
  writes_at h (build_file this f).
Proof.
  destruct (parse_source h f) as [message | j] eqn:Hparse.
  - exists [], (Throw (parse_failure f message)). intros w Hw.
    rewrite build_file_run, Hw, Hparse. cbn. now rewrite set_files_same.
  - eexists [(_, _)], (Return _). intros w Hw.
    rewrite build_file_run, Hw, Hparse. reflexivity.
Qed.

Lemma writes_at_build_plain (h : string) (bundle' : Bundler -> M unit) (this : Builder) :
  isUmbrella this = false -> writes_at h (build_with bundle' this).
Proof.
  intros Hu. unfold build_with, mkdir_p, cp_markdown, write, writeFileSync. rewrite Hu.
  apply writes_at_bind; [apply writes_at_ret | intros _].
  apply writes_at_bind.
  { apply (writes_at_get_world h _
             (forEach (fun md => modify (fun w => set_files
                         (<[dir this ++ [md.1] := FText md.2]> (files w)) w))
                      (markdown h))).
    - now intros w ->.
    - apply writes_at_forEach. intros md. apply writes_at_insert. }
  intros _.
  apply (writes_at_get_world h _
           (docs <- mapM (build_file this) (globby_sources h (name this)) ;;
            modify (fun w => set_files
              (<[dir this ++ [config.TYPES_DICT] :=
                   FJson (JArr (map JObj (parser_createTypesDictionary docs)))]>
                 (files w)) w) ;;
            modify (fun w => set_files
              (<[dir this ++ [config.TOC] :=
                   FJson (JObj (set_field "tagName" (JStr (getTagName this))
                                  (parser_createToc
                                     (map JObj (parser_createTypesDictionary docs))
                                     false)))]>
                 (files w)) w) ;;
            ret tt)).
  - now intros w ->.
  - apply writes_at_bind;
      [apply writes_at_mapM; intros f; apply writes_at_build_file | intros docs].
    apply writes_at_bind; [apply writes_at_insert | intros _].
    apply writes_at_bind; [apply writes_at_insert | intros _].
    apply writes_at_ret.
Qed.

(** Building a package other than the umbrella package a second time, with
    the work tree at the same ref, has the outcome of the first build and
    changes nothing: every file holds what the first build left in it. *)
Theorem build_twice_is_build_once (fuel : nat) (this : Builder) (w : World) :
  isUmbrella this = false ->
  let w1 := exec (build fuel this) w in
  build fuel this w1 = (outcome (build fuel this) w, w1).
Proof.
  intros Hu. cbn zeta.
  destruct (writes_at_build_plain (HEAD w) (bundle fuel) this Hu) as (l & o & Hrun).
  unfold outcome, exec, build. rewrite (Hrun w eq_refl). cbn [fst snd].
  rewrite (Hrun (set_files (written l (files w)) w) eq_refl).
  cbn [files set_files]. now rewrite written_idemp.
Qed.

(** ** What the exported functions write *)

Lemma files_outside_mono {A : Type} (region region' : path -> Prop) (c : M A) :
  (forall p, region p -> region' p) ->
  preserves (files_outside region) c -> preserves (files_outside region') c.
Proof.
  intros Hsub H w p Hp. apply H. intros Hr. now apply Hp, Hsub.
Qed.

Lemma updateDep_files (b : Builder) :
  preserves (files_outside (fun p => exists u, added_to (new_Bundler (inl u)) b p))
            (updateDep b).
Proof.
  unfold updateDep. destruct (isMaster b); [apply preserves_throw; apply _ |].
  apply preserves_bind; [apply _ | apply preserves_get_world; apply _ | intros w].
  destruct (findWhere (has_id UMBRELLA_PACKAGE) (manifest w));
    [| apply preserves_throw; apply _].
  destruct (findWhere (has_id (name b)) (manifest w));
    [| apply preserves_throw; apply _].
  apply updateDep_loop_files.
Qed.

Lemma build_package_files (fuel : nat) (n : string) (v : option string) :
  preserves (files_outside generated) (build_package fuel n v).
Proof.
  unfold build_package. cbn zeta.
  apply preserves_bind; [apply _ | now apply modify_preserves | intros _].
  apply preserves_bind; [apply _ | | intros _].
  { apply (files_outside_mono (docs_of (new_Builder n v None))).
    - intros p [[k ->] | H]; right; [left | now right].
      unfold new_Builder. cbn [dir default app]. now eexists.
    - intros w. apply build_build_frame. }
  apply preserves_bind; [apply _ | now apply modify_preserves | intros _].
  apply preserves_bind; [apply _ | | intros _].
  { intros w p Hp. unfold exec. rewrite updateManifest_run.
    cbn [snd files set_files set_manifest]. apply lookup_insert_ne.
    intros <-. apply Hp. now left. }
  destruct (negb _ && negb _); [| apply preserves_ret; apply _].
  apply (files_outside_mono
           (fun p => exists u, added_to (new_Bundler (inl u)) (new_Builder n v None) p));
    [| apply updateDep_files].
  intros p (u & x & ->). right. left. unfold new_Bundler, new_Builder.
  cbn [builder dir default app]. now eexists.
Qed.

(** Whatever their outcome, the exported [build] and [buildAll] write no
    file but [manifest.json] and files below the docs of the work tree and
    of the submodule. *)
Theorem exported_builds_write_docs_only (fuel : nat) (n : string) (v : option string)
    (w : World) (p : path) :
  p <> manifestPath -> ~ DOCS_ROOT `prefix_of` p ->
  ~ (submodule_cwd ++ DOCS_ROOT) `prefix_of` p ->
  files (exec (build_package fuel n v) w) !! p = files w !! p
  /\ files (exec (buildAll fuel) w) !! p = files w !! p.
Proof.
  intros Hm Hd Hs.
  assert (Hp : ~ generated p) by (intros [H | [H | H]]; contradiction).
  split; [now apply build_package_files |].
  revert Hp. apply (preserves_bind (files_outside generated)).
  - apply preserves_get_world. apply _.
  - intros w0. apply preserves_forEach; [apply _ |]. intros n0.
    apply build_package_files.
Qed.

End Script.

(** * The script on the small repository *)

Module Example.

(** The script with the collaborators of [Fixture]. *)
Definition updateDep : Builder -> M unit :=
  updateDep Fixture.createOverview Fixture.valid Fixture.maxSatisfying
    Fixture.package_json.

Definition add : Bundler -> Builder -> M unit := add Fixture.createOverview.

Definition build : nat -> Builder -> M unit :=
  build Fixture.parseFile Fixture.createTypesDictionary Fixture.createToc
    Fixture.createOverview Fixture.valid Fixture.maxSatisfying Fixture.sources
    Fixture.read Fixture.markdown Fixture.package_json Fixture.submodule_cwd.

Definition bundle : nat -> Bundler -> M unit :=
  bundle Fixture.parseFile Fixture.createTypesDictionary Fixture.createToc
    Fixture.createOverview Fixture.valid Fixture.maxSatisfying Fixture.sources
    Fixture.read Fixture.markdown Fixture.package_json Fixture.submodule_cwd.

(** The umbrella package built, not yet bundled. *)
Definition build_unbundled : Builder -> M unit :=
  build_with Fixture.parseFile Fixture.createTypesDictionary Fixture.createToc
    Fixture.sources Fixture.read Fixture.markdown (fun _ => ret tt).

(** The docs of bigtable 0.4.1 built after the manifest was recorded. *)
Definition built : World := exec (build 1 Fixture.bigtable_0_4_1) Fixture.recorded.

(** The work tree at the tag where a source of bigtable is broken. *)
Definition broken : World := exec (git_checkout "bigtable-0.4.2") Fixture.recorded.

(** The umbrella docs of 0.45.0 built from the tag, before they are
    bundled. *)
Definition unbundled : World :=
  exec (build_unbundled (Fixture.umbrella "0.45.0")) Fixture.recorded.

End Example.

Lemma run_outcome {A : Type} (c : M A) (w : World) (o : Outcome A) :
  outcome c w = o -> c w = (o, exec c w).
Proof. unfold outcome, exec. intros <-. now destruct (c w). Qed.

(** C1, as stated, fails for the empty version string: it is not the default
    version and bigtable is not the umbrella package, yet the tag is
    ["master"] and not ["bigtable-"]. *)
Lemma getTagName_empty_version :
  getTagName (new_Builder "bigtable" (Some "") None) = "master"
  /\ getTagName (new_Builder "bigtable" (Some "") None)
     <> (if String.eqb "" config.DEFAULT_VERSION then ""
         else if String.eqb "bigtable" UMBRELLA_PACKAGE then "v" +:+ ""
         else "bigtable" +:+ "-" +:+ "").
Proof. split; [reflexivity | discriminate]. Qed.

(** C2, as stated, fails: the umbrella package was recorded at 0.44.0 and
    then at 0.45.0, and [updateDep] checks out 0.45.0 first; the tags it
    checks out are no prefix of the recorded versions from oldest to
    newest. *)
Lemma updateDep_newest_first :
  bundleVersions Example.built = ["0.45.0"; "0.44.0"; "master"]
  /\ checkouts (git_log (exec (Example.updateDep Fixture.bigtable_0_4_1) Example.built))
     = ["v0.45.0"; "v0.44.0"]
  /\ ~ (exists k,
          checkouts (git_log (exec (Example.updateDep Fixture.bigtable_0_4_1) Example.built))
          = map umbrella_tag (take k (rev (bundleVersions Example.built)))).
Proof.
  split; [reflexivity |]. split; [vm_compute; reflexivity |].
  intros [k H]. vm_compute in H.
  destruct k as [| [| [| k]]]; discriminate H.
Qed.

(** The walk of C2 on the small repository: 0.45.0 is checked out and added
    to, 0.44.0 is checked out and stops the walk. *)
Lemma updateDep_walks_recorded_order_witness :
  outcome (Example.updateDep Fixture.bigtable_0_4_1) Example.built = Return tt
  /\ checkouts (git_log (exec (Example.updateDep Fixture.bigtable_0_4_1) Example.built))
     = checkouts (git_log Example.built) ++ map umbrella_tag ["0.45.0"; "0.44.0"]
  /\ same_store (exec (Example.updateDep Fixture.bigtable_0_4_1) Example.built)
       (exec (forEach (fun u => Example.add (new_Bundler (inl u)) Fixture.bigtable_0_4_1)
                      ["0.45.0"])
             Example.built).
Proof.
  assert (H : outcome (Example.updateDep Fixture.bigtable_0_4_1) Example.built = Return tt)
    by (vm_compute; reflexivity).
  split; [exact H |].
  pose proof (updateDep_walks_recorded_order Fixture.createOverview Fixture.valid
                Fixture.maxSatisfying Fixture.package_json
                Fixture.bigtable_0_4_1 Example.built H) as Hwalk.
  cbv zeta in Hwalk.
  assert (Hgood :
    take_while (still_max Fixture.maxSatisfying Fixture.package_json Fixture.bigtable_0_4_1
                  (known_versions Fixture.valid Fixture.bigtable_0_4_1 Example.built))
      (take (length (bundleVersions Example.built) - 1) (bundleVersions Example.built))
    = ["0.45.0"]) by (vm_compute; reflexivity).
  assert (Hus :
    take (length (bundleVersions Example.built) - 1) (bundleVersions Example.built)
    = ["0.45.0"; "0.44.0"]) by (vm_compute; reflexivity).
  rewrite Hgood, Hus in Hwalk. exact Hwalk.
Defined.

(** C3 on the small repository: the bundle of 0.44.0, which asks for
    [^0.3.0], keeps its files. *)
Lemma updateDep_leaves_other_bundles_witness :
  files (exec (Example.updateDep Fixture.bigtable_0_4_1) Example.built)
    !! (umbrella_dir "0.44.0" ++ ["bigtable"; "index.json"])
  = files Example.built !! (umbrella_dir "0.44.0" ++ ["bigtable"; "index.json"]).
Proof.
  apply (updateDep_leaves_other_bundles Fixture.createOverview Fixture.valid
           Fixture.maxSatisfying Fixture.package_json
           Fixture.bigtable_0_4_1 Example.built "0.44.0").
  - vm_compute. reflexivity.
  - exists ["bigtable"; "index.json"]. reflexivity.
Defined.

(** C5 from the empty manifest, the umbrella package recorded third. *)
Lemma umbrella_entry_stays_first_witness :
  umbrella_first
    (manifest (exec (forEach updateManifest
                       [Fixture.bigtable_0_4_1;
                        new_Builder "vision" (Some "0.5.0") None;
                        Fixture.umbrella "0.45.0";
                        new_Builder "datastore" None None])
                    Fixture.empty_world)).
Proof.
  apply (umbrella_entry_stays_first _ Fixture.empty_world).
  apply umbrella_first_nil.
Defined.

(** C10 with the umbrella package recorded at ["master"] alone: nothing
    happens. *)
Lemma updateDep_spares_last_version_witness :
  let w := exec (updateManifest Fixture.bigtable_0_4_1)
             (exec (updateManifest (Fixture.umbrella "master")) Fixture.empty_world) in
  bundleVersions w = ["master"]
  /\ exec (Example.updateDep Fixture.bigtable_0_4_1) w = w.
Proof.
  cbv zeta. split; [reflexivity |].
  apply (updateDep_spares_last_version Fixture.createOverview Fixture.valid
           Fixture.maxSatisfying Fixture.package_json).
  reflexivity.
Defined.

(** C6 for a builder made without a version. *)
Lemma updateDep_master_throws_witness :
  isMaster (new_Builder "bigtable" None None) = true
  /\ Example.updateDep (new_Builder "bigtable" None None) Example.built
     = (Throw (Error "Must supply valid version to update bundles with."),
        Example.built).
Proof.
  split; [reflexivity |].
  apply (updateDep_master_throws Fixture.createOverview Fixture.valid
           Fixture.maxSatisfying Fixture.package_json).
  reflexivity.
Defined.

(** C7 at the tag where [bigtable/src/table.js] does not parse. *)
Lemma build_aborts_on_parse_failure_witness :
  Example.build 1 (new_Builder "bigtable" (Some "0.4.2") None) Example.broken
  = (Throw (Error ("Unable to generate docs for file: bigtable/src/table.js"
                   +:+ ". Reason: Unexpected token !")),
     exec (cp_markdown Fixture.markdown (dir (new_Builder "bigtable" (Some "0.4.2") None)) ;;
           mapM (build_file Fixture.parseFile Fixture.read
                   (new_Builder "bigtable" (Some "0.4.2") None))
                ["bigtable/src/index.js"])%js
          Example.broken).
Proof.
  apply (build_aborts_on_parse_failure Fixture.parseFile Fixture.createTypesDictionary
           Fixture.createToc Fixture.createOverview Fixture.valid Fixture.maxSatisfying
           Fixture.sources Fixture.read Fixture.markdown Fixture.package_json
           Fixture.submodule_cwd 1 (new_Builder "bigtable" (Some "0.4.2") None)
           Example.broken ["bigtable/src/index.js"] [] "bigtable/src/table.js"
           "Unexpected token !").
  - reflexivity.
  - intros g Hg. apply list_elem_of_singleton in Hg. subst g.
    eexists. vm_compute. reflexivity.
  - vm_compute. reflexivity.
Defined.

(** The first bundle of the umbrella docs of 0.45.0, which depend on
    bigtable. *)
Lemma bundle_types_dictionary_witness :
  exists baseTypes,
    files Example.unbundled !! (umbrella_dir "0.45.0" ++ [config.TYPES_DICT])
    = Some (FJson (JArr baseTypes))
    /\ files (exec (Example.bundle 1 (new_Bundler (inl "0.45.0"))) Example.unbundled)
         !! (umbrella_dir "0.45.0" ++ [config.TYPES_DICT])
       = Some (FJson (JArr (baseTypes ++
           [JObj [("id", JStr "packages/bigtable/src/index.js");
                  ("contents", JStr "bigtable/index.json")];
            JObj [("id", JStr "packages/bigtable/src/table.js");
                  ("contents", JStr "bigtable/table.json")]]))).
Proof.
  destruct (bundle_types_dictionary Fixture.parseFile Fixture.createTypesDictionary
              Fixture.createToc Fixture.createOverview Fixture.valid Fixture.maxSatisfying
              Fixture.sources Fixture.read Fixture.markdown Fixture.package_json
              Fixture.submodule_cwd 1 (Some "0.45.0") None Example.unbundled
              (exec (Example.bundle 1 (new_Bundler (inl "0.45.0"))) Example.unbundled))
    as (baseTypes & Hbase & Hout).
  - intros p _. apply lookup_empty.
  - replace (bundled_names Fixture.package_json (HEAD Example.unbundled))
      with ["bigtable"] by (vm_compute; reflexivity).
    apply NoDup_singleton.
  - apply run_outcome. vm_compute. reflexivity.
  - exists baseTypes. split; [exact Hbase |].
    refine (eq_trans Hout _). vm_compute. reflexivity.
Defined.

(** ** Further runs on the small repository *)

(** The examples of the specification for tag names. *)
Lemma getTagName_examples :
  getTagName (new_Builder "google-cloud" (Some "0.44.0") None) = "v0.44.0"
  /\ getTagName (new_Builder "bigtable" (Some "0.4.1") None) = "bigtable-0.4.1"
  /\ getTagName (new_Builder "bigtable" None None) = "master".
Proof. repeat split. Qed.

(** The example of the specification for [updateDep]: bigtable 0.4.1 goes
    into the bundle of umbrella 0.45.0, which asks for [^0.4.0], and not into
    that of 0.44.0, which asks for [^0.3.0]. *)
Lemma updateDep_example :
  let w := exec (Example.updateDep Fixture.bigtable_0_4_1) Example.built in
  files Example.built !! (umbrella_dir "0.45.0" ++ ["bigtable"; "index.json"]) = None
  /\ files w !! (umbrella_dir "0.45.0" ++ ["bigtable"; "index.json"])
     = Some (FJson (JObj
         [("id", JStr "packages/bigtable/src/index.js");
          ("path", JStr "index.json");
          ("overview", JObj [("service", JStr "packages/bigtable/src/index.js");
                             ("bundled", JBool true)])]))
  /\ files w !! (umbrella_dir "0.44.0" ++ ["bigtable"; "index.json"]) = None.
Proof. cbv zeta. repeat split; vm_compute; reflexivity. Qed.

(** C8 does not hold of the code when the umbrella docs are built a second
    time in one process.  Both builds return, and nothing has changed in the
    sources, the manifest or [package.json]; the first writes the entries of
    bigtable with their [contents] below [bigtable], as C8 says.  For the
    second, [getTypes] is served the dictionary of bigtable from the cache
    of [require], and [bundle], which sets the [contents] of the entries it
    is given in place, has left them prefixed there: they are prefixed
    again, and [types.json] sends the reader to [bigtable/bigtable]. *)
Lemma bundle_twice_prefixes_twice :
  let build := Example.build 1 (Fixture.umbrella "0.45.0") in
  let types_json := umbrella_dir "0.45.0" ++ [config.TYPES_DICT] in
  let own := [JObj [("id", JStr "packages/google-cloud/src/index.js");
                    ("contents", JStr "index.json")]] in
  let of_bigtable :=
    map (prefix_entry "bigtable")
        (dictionary Fixture.parseFile Fixture.createTypesDictionary Fixture.sources
           Fixture.read "master" "bigtable") in
  let once := exec build Fixture.recorded in
  let twice := exec build once in
  outcome build Fixture.recorded = Return tt
  /\ outcome build once = Return tt
  /\ files once !! types_json = Some (FJson (JArr (own ++ of_bigtable)))
  /\ files twice !! types_json
     = Some (FJson (JArr (own ++
         [JObj [("id", JStr "packages/bigtable/src/index.js");
                ("contents", JStr "bigtable/bigtable/index.json")];
          JObj [("id", JStr "packages/bigtable/src/table.js");
                ("contents", JStr "bigtable/bigtable/table.json")]])))
  /\ files twice !! types_json <> Some (FJson (JArr (own ++ of_bigtable))).
Proof.
  cbv zeta. repeat split; try (vm_compute; reflexivity).
  vm_compute. intros H. discriminate H.
Qed.

(** A third umbrella version goes to the head of the recorded ones. *)
Lemma updateManifest_prepends_witness :
  versions_of "google-cloud"
    (manifest (exec (updateManifest (Fixture.umbrella "0.46.0")) Fixture.recorded))
  = ["0.46.0"; "0.45.0"; "0.44.0"; "master"].
Proof.
  apply (updateManifest_prepends (Fixture.umbrella "0.46.0") Fixture.recorded
           {| mod_id := "google-cloud"; mod_name := "@google-cloud/google-cloud";
              defaultService := "google-cloud";
              versions := ["0.45.0"; "0.44.0"; "master"] |}).
  - reflexivity.
  - intros Hin. cbn in Hin.
    repeat (apply elem_of_cons in Hin as [Hin | Hin]; [discriminate Hin |]).
    inversion Hin.
Defined.

(** Three modules, the umbrella first and the others by id. *)
Lemma array_sort_unique_witness :
  let bigtable := new_config Fixture.bigtable_0_4_1 in
  let vision := new_config (new_Builder "vision" None None) in
  let umbrella := new_config (Fixture.umbrella "0.45.0") in
  [umbrella; bigtable; vision] = array_sort sortByModId [vision; umbrella; bigtable].
Proof.
  cbv zeta. apply array_sort_unique.
  - refine (bool_decide_unpack _ _). vm_compute. exact I.
  - symmetry. exact (Permutation_cons_append [_; _] _).
  - repeat constructor; intros H; vm_compute in H; discriminate H.
Defined.

(** ** The further properties on the small repository *)

Module Example2.

(** The exported functions on the work tree whose package [datastore] does
    not parse. *)
Definition build_default_with_datastore (n : string) : M unit :=
  build_package Fixture.parseFile Fixture.createTypesDictionary Fixture.createToc
    Fixture.createOverview Fixture.valid Fixture.maxSatisfying
    Fixture.sources_with_datastore Fixture.read_with_datastore Fixture.markdown
    Fixture.package_json Fixture.submodule_cwd 1 n (Some config.DEFAULT_VERSION).

Definition buildAll_with_datastore : M unit :=
  buildAll Fixture.parseFile Fixture.createTypesDictionary Fixture.createToc
    Fixture.createOverview Fixture.valid Fixture.maxSatisfying
    Fixture.sources_with_datastore Fixture.read_with_datastore Fixture.markdown
    Fixture.package_json Fixture.submodule_cwd Fixture.packages_with_datastore 1.

(** [buildAll] on the work tree with the package [appengine]. *)
Definition buildAll_with_appengine : M unit :=
  buildAll Fixture.parseFile Fixture.createTypesDictionary Fixture.createToc
    Fixture.createOverview Fixture.valid Fixture.maxSatisfying Fixture.sources
    Fixture.read Fixture.markdown Fixture.package_json Fixture.submodule_cwd
    Fixture.packages_with_appengine 1.

(** The exported functions with the collaborators of [Fixture]. *)
Definition build_package : nat -> string -> option string -> M unit :=
  build_package Fixture.parseFile Fixture.createTypesDictionary Fixture.createToc
    Fixture.createOverview Fixture.valid Fixture.maxSatisfying Fixture.sources
    Fixture.read Fixture.markdown Fixture.package_json Fixture.submodule_cwd.

Definition buildAll : nat -> M unit :=
  buildAll Fixture.parseFile Fixture.createTypesDictionary Fixture.createToc
    Fixture.createOverview Fixture.valid Fixture.maxSatisfying Fixture.sources
    Fixture.read Fixture.markdown Fixture.package_json Fixture.submodule_cwd
    Fixture.packages.

(** The manifest with bigtable, the umbrella package and vision recorded. *)
Definition with_vision : World :=
  exec (updateManifest Fixture.vision_0_5_0) Fixture.recorded.

(** The manifest with the umbrella package alone. *)
Definition umbrella_alone : World :=
  exec (updateManifest (Fixture.umbrella "0.45.0")) Fixture.empty_world.

(** The umbrella docs of 0.45.0 built, not yet bundled, with bigtable
    recorded at the default version only. *)
Definition unresolved : World :=
  exec (Example.build_unbundled (Fixture.umbrella "0.45.0"))
       (exec (forEach updateManifest
                [Fixture.umbrella "0.45.0"; new_Builder "bigtable" None None])
             Fixture.empty_world).

(** The umbrella docs of 0.45.0 built, not yet bundled, with no entry for
    bigtable in the manifest. *)
Definition unrecorded : World :=
  exec (Example.build_unbundled (Fixture.umbrella "0.45.0")) umbrella_alone.

(** [Builder.build] on the work tree in which bigtable got [table.js] after
    the tag [bigtable-0.4.0]. *)
Definition build_by_ref : Builder -> M unit :=
  build Fixture.parseFile Fixture.createTypesDictionary Fixture.createToc
    Fixture.createOverview Fixture.valid Fixture.maxSatisfying Fixture.sources_by_ref
    Fixture.read Fixture.markdown Fixture.package_json Fixture.submodule_cwd 0.

(** The docs of bigtable 0.4.0 built from the tag, and the work tree back at
    the default branch. *)
Definition built_at_tag : World :=
  exec (git_checkout "bigtable-0.4.0" ;; build_by_ref Fixture.bigtable_0_4_0 ;;
        git_checkout "-")
       Fixture.recorded.

End Example2.

(** Two modules other than the umbrella package. *)
Lemma sortByModId_three_way_witness :
  let a := new_config Fixture.bigtable_0_4_1 in
  let b := new_config Fixture.vision_0_5_0 in
  sortByModId a b = three_way (String.compare (mod_id a) (mod_id b))
  /\ sortByModId b a = (- sortByModId a b)%Z.
Proof.
  cbv zeta. apply sortByModId_three_way; intros H; vm_compute in H; discriminate H.
Defined.

(** An empty version and no version make the same tag, and the same
    version. *)
Lemma getTagName_distinguishes_versions_witness :
  version (new_Builder "bigtable" (Some "") None)
  = version (new_Builder "bigtable" None (Some ["bundler"])).
Proof. apply getTagName_distinguishes_versions. reflexivity. Defined.

(** The dependencies of the umbrella package at [master]. *)
Lemma getDeps_strips_scope_witness :
  exists deps,
    getDeps Fixture.package_json Fixture.recorded = (Return deps, Fixture.recorded)
    /\ map scoped_key deps = [("@google-cloud/bigtable", "^0.4.0")].
Proof.
  destruct (getDeps_strips_scope Fixture.package_json Fixture.recorded
              [("@google-cloud/bigtable", "^0.4.0"); ("extend", "^3.0.0")])
    as (deps & Hrun & Hkeys).
  - vm_compute. reflexivity.
  - repeat constructor; intros H; vm_compute in H; discriminate H.
  - exists deps. split; [exact Hrun | exact Hkeys].
Defined.

(** Recording appengine, which the manifest has no entry for: the new entry
    is pushed and the modules are sorted, which puts it before the entry of
    bigtable; [findWhere] finds that entry as before. *)
Lemma updateManifest_keeps_other_entries_witness :
  let w' := exec (updateManifest Fixture.appengine_1_0_0) Fixture.recorded in
  map mod_id (manifest Fixture.recorded) = ["google-cloud"; "bigtable"]
  /\ map mod_id (manifest w') = ["google-cloud"; "appengine"; "bigtable"]
  /\ findWhere (has_id "bigtable") (manifest w')
     = findWhere (has_id "bigtable") (manifest Fixture.recorded).
Proof.
  cbv zeta. split; [reflexivity |]. split; [vm_compute; reflexivity |].
  apply updateManifest_keeps_other_entries.
  - refine (bool_decide_unpack _ _). vm_compute. exact I.
  - intros H. vm_compute in H. discriminate H.
Defined.

(** Recording appengine in the manifest of the umbrella package and
    bigtable: the new entry goes between the two. *)
Lemma updateManifest_keeps_sorted_witness :
  let w' := exec (updateManifest Fixture.appengine_1_0_0) Fixture.recorded in
  map mod_id (manifest Fixture.recorded) = ["google-cloud"; "bigtable"]
  /\ map mod_id (manifest w') = ["google-cloud"; "appengine"; "bigtable"]
  /\ sorted_by_id (manifest w').
Proof.
  cbv zeta. split; [reflexivity |]. split; [vm_compute; reflexivity |].
  apply updateManifest_keeps_sorted. split.
  - refine (bool_decide_unpack _ _). vm_compute. exact I.
  - repeat constructor; vm_compute; try reflexivity; intros H; discriminate H.
Defined.

(** The docs of bigtable 0.4.1, whose sources parse. *)
Lemma build_writes_dictionary_witness :
  let types := dictionary Fixture.parseFile Fixture.createTypesDictionary
                 Fixture.sources Fixture.read "master" "bigtable" in
  outcome (Example.build 0 Fixture.bigtable_0_4_1) Fixture.recorded = Return tt
  /\ files (exec (Example.build 0 Fixture.bigtable_0_4_1) Fixture.recorded)
       !! (dir Fixture.bigtable_0_4_1 ++ [config.TYPES_DICT])
     = Some (FJson (JArr types))
  /\ files (exec (Example.build 0 Fixture.bigtable_0_4_1) Fixture.recorded)
       !! (dir Fixture.bigtable_0_4_1 ++ [config.TOC])
     = Some (FJson (JObj (set_field "tagName" (JStr "bigtable-0.4.1")
                            (Fixture.createToc types false)))).
Proof.
  cbv zeta.
  apply (build_writes_dictionary Fixture.parseFile Fixture.createTypesDictionary
           Fixture.createToc Fixture.createOverview Fixture.valid Fixture.maxSatisfying
           Fixture.sources Fixture.read Fixture.markdown Fixture.package_json
           Fixture.submodule_cwd 0 Fixture.bigtable_0_4_1 Fixture.recorded).
  - reflexivity.
  - intros f Hf.
    change (f ∈ ["bigtable/src/index.js"; "bigtable/src/table.js"]) in Hf.
    apply elem_of_cons in Hf as [-> | Hf];
      [| apply list_elem_of_singleton in Hf; subst f];
      eexists; vm_compute; reflexivity.
Defined.

(** [buildAll] on the work tree with appengine, from the manifest of the
    umbrella package and bigtable: the entry of appengine is pushed and
    sorted in before that of bigtable, whose versions are read afterwards. *)
Lemma buildAll_records_packages_witness :
  let w' := exec Example2.buildAll_with_appengine Fixture.recorded in
  map mod_id (manifest Fixture.recorded) = ["google-cloud"; "bigtable"]
  /\ map mod_id (manifest w') = ["google-cloud"; "appengine"; "bigtable"]
  /\ (forall n, n ∈ ["appengine"; "bigtable"; "google-cloud"] ->
                "master" ∈ versions_of n (manifest w'))
  /\ (forall n v, v ∈ versions_of n (manifest Fixture.recorded) ->
                  v ∈ versions_of n (manifest w'))
  /\ HEAD w' = "master"
  /\ checkouts (git_log w') = ["master"; "master"; "master"].
Proof.
  cbv zeta. split; [reflexivity |]. split; [vm_compute; reflexivity |].
  apply (buildAll_records_packages Fixture.parseFile Fixture.createTypesDictionary
           Fixture.createToc Fixture.createOverview Fixture.valid Fixture.maxSatisfying
           Fixture.sources Fixture.read Fixture.markdown Fixture.package_json
           Fixture.submodule_cwd Fixture.packages_with_appengine 1 Fixture.recorded).
  - refine (bool_decide_unpack _ _). vm_compute. exact I.
  - vm_compute. reflexivity.
Defined.

(** [buildAll] with a package that does not parse: the umbrella package,
    listed after it, is not built. *)
Lemma buildAll_stops_at_failure_witness :
  Example2.buildAll_with_datastore Fixture.empty_world
  = Example2.build_default_with_datastore "datastore"
      (exec (forEach Example2.build_default_with_datastore ["bigtable"])
            Fixture.empty_world).
Proof.
  apply (buildAll_stops_at_failure Fixture.parseFile Fixture.createTypesDictionary
           Fixture.createToc Fixture.createOverview Fixture.valid Fixture.maxSatisfying
           Fixture.sources_with_datastore Fixture.read_with_datastore Fixture.markdown
           Fixture.package_json Fixture.submodule_cwd Fixture.packages_with_datastore
           1 Fixture.empty_world ["bigtable"] ["google-cloud"] "datastore").
  - reflexivity.
  - vm_compute. reflexivity.
  - intros H. vm_compute in H. discriminate H.
Defined.

(** [updateDep] before anything is recorded. *)
Lemma updateDep_without_entry_witness :
  exists message,
    Example.updateDep Fixture.bigtable_0_4_1 Fixture.empty_world
    = (Throw (TypeError message), Fixture.empty_world).
Proof.
  apply (updateDep_without_entry Fixture.createOverview Fixture.valid
           Fixture.maxSatisfying Fixture.package_json).
  - reflexivity.
  - left. reflexivity.
Defined.

(** [updateDep] for vision, which the umbrella package does not depend
    on. *)
Lemma updateDep_not_a_dependency_witness :
  exists message,
    Example.updateDep Fixture.vision_0_5_0 Example2.with_vision
    = (Throw (TypeError message), exec (visit "0.45.0") Example2.with_vision).
Proof.
  apply (updateDep_not_a_dependency Fixture.createOverview Fixture.valid
           Fixture.maxSatisfying Fixture.package_json
           Fixture.vision_0_5_0 Example2.with_vision "0.45.0" "0.44.0" ["master"]
           [("@google-cloud/bigtable", "^0.4.0"); ("extend", "^3.0.0")]).
  - reflexivity.
  - intros H. vm_compute in H. discriminate H.
  - vm_compute. reflexivity.
  - reflexivity.
  - reflexivity.
Defined.

(** The dictionary of bigtable is not copied into the bundle of 0.45.0. *)
Lemma add_copies_documents_only_witness :
  files (exec (Example.add (new_Bundler (inl "0.45.0")) Fixture.bigtable_0_4_1)
              Example.built)
    !! (umbrella_dir "0.45.0" ++ ["bigtable"; "types.json"])
  = files Example.built !! (umbrella_dir "0.45.0" ++ ["bigtable"; "types.json"]).
Proof.
  apply (add_copies_documents_only Fixture.createOverview).
  intros x Hx. apply app_inv_head in Hx. injection Hx as <-. now left.
Defined.

(** The document of [index.js] of bigtable in the bundle of 0.45.0. *)
Lemma add_writes_overview_witness :
  files (exec (Example.add (new_Bundler (inl "0.45.0")) Fixture.bigtable_0_4_1)
              Example.built)
    !! (umbrella_dir "0.45.0" ++ ["bigtable"; "index.json"])
  = Some (FJson (JObj
      [("id", JStr "packages/bigtable/src/index.js");
       ("path", JStr "index.json");
       ("overview", Fixture.createOverview
                      (Some (JStr "packages/bigtable/src/index.js")) true)])).
Proof.
  apply (add_writes_overview Fixture.createOverview (new_Bundler (inl "0.45.0"))
           Fixture.bigtable_0_4_1 Example.built "index.json"
           [("id", JStr "packages/bigtable/src/index.js"); ("path", JStr "index.json")]).
  - reflexivity.
  - discriminate.
  - discriminate.
  - intros H. vm_compute in H. discriminate H.
  - eexists. vm_compute. reflexivity.
  - vm_compute. reflexivity.
  - vm_compute. reflexivity.
Defined.

(** Bundling the umbrella docs of 0.45.0, whose dictionary is there, when
    bigtable was never recorded. *)
Lemma bundle_unknown_dependency_witness :
  let this := new_Bundler (inl "0.45.0") in
  let w' := exec (Example.bundle 1 this) Example2.unrecorded in
  outcome (getTypes (builder this)) Example2.unrecorded
  = Return (JArr [JObj [("id", JStr "packages/google-cloud/src/index.js");
                        ("contents", JStr "index.json")]])
  /\ (exists message,
        outcome (Example.bundle 1 this) Example2.unrecorded = Throw (TypeError message))
  /\ files w' = files Example2.unrecorded
  /\ git_log w' = git_log Example2.unrecorded.
Proof.
  cbv zeta.
  assert (Hbase : outcome (getTypes (builder (new_Bundler (inl "0.45.0"))))
                    Example2.unrecorded
                  = Return (JArr [JObj [("id", JStr "packages/google-cloud/src/index.js");
                                        ("contents", JStr "index.json")]])).
  { vm_compute. reflexivity. }
  destruct (bundle_unknown_dependency Fixture.parseFile Fixture.createTypesDictionary
              Fixture.createToc Fixture.createOverview Fixture.valid
              Fixture.maxSatisfying Fixture.sources Fixture.read Fixture.markdown
              Fixture.package_json Fixture.submodule_cwd 0 (new_Bundler (inl "0.45.0"))
              Example2.unrecorded "bigtable")
    as (_ & Hthrow & Hfiles & Hlog).
  - change ("bigtable" ∈ ["bigtable"]). left.
  - reflexivity.
  - split; [exact Hbase |]. split; [exact (Hthrow _ Hbase) |].
    split; [exact Hfiles | exact Hlog].
Defined.

(** The docs of bigtable 0.4.0 were built from the tag, where bigtable had
    one source, and their dictionary is loaded; built again from the default
    branch, where it has two, [types.json] holds two entries and [getTypes]
    still returns the one. *)
Lemma getTypes_stale_after_rebuild_witness :
  let this := Fixture.bigtable_0_4_0 in
  let loaded := JArr [JObj [("id", JStr "packages/bigtable/src/index.js");
                            ("contents", JStr "index.json")]] in
  let rebuilt := JArr [JObj [("id", JStr "packages/bigtable/src/index.js");
                             ("contents", JStr "index.json")];
                       JObj [("id", JStr "packages/bigtable/src/table.js");
                             ("contents", JStr "table.json")]] in
  let w1 := exec (getTypes this) Example2.built_at_tag in
  let w2 := exec (Example2.build_by_ref this) w1 in
  outcome (getTypes this) Example2.built_at_tag = Return loaded
  /\ files w2 !! (dir this ++ [config.TYPES_DICT]) = Some (FJson rebuilt)
  /\ outcome (getTypes this) w2 = Return loaded
  /\ loaded <> rebuilt.
Proof.
  cbv zeta.
  assert (Hloaded : outcome (getTypes Fixture.bigtable_0_4_0) Example2.built_at_tag
                    = Return (JArr [JObj [("id", JStr "packages/bigtable/src/index.js");
                                          ("contents", JStr "index.json")]])).
  { vm_compute. reflexivity. }
  destruct (getTypes_stale_after_rebuild Fixture.parseFile
              Fixture.createTypesDictionary Fixture.createToc Fixture.createOverview
              Fixture.valid Fixture.maxSatisfying Fixture.sources_by_ref Fixture.read
              Fixture.markdown Fixture.package_json Fixture.submodule_cwd 0
              Fixture.bigtable_0_4_0 Example2.built_at_tag _ eq_refl Hloaded)
    as [Hfile Hstale].
  - vm_compute. reflexivity.
  - split; [exact Hloaded |]. split; [| split; [exact Hstale | discriminate]].
    etransitivity; [exact Hfile |]. vm_compute. reflexivity.
Defined.

(** The bundle of the umbrella docs of 0.45.0. *)
Lemma bundle_toc_matches_dictionary_witness :
  let w' := exec (Example.bundle 1 (new_Bundler (inl "0.45.0"))) Example.unbundled in
  exists types,
    files w' !! (umbrella_dir "0.45.0" ++ [config.TYPES_DICT])
    = Some (FJson (JArr types))
    /\ files w' !! (umbrella_dir "0.45.0" ++ [config.TOC])
       = Some (FJson (JObj (set_field "tagName" (JStr "v0.45.0")
                              (Fixture.createToc types true)))).
Proof.
  cbv zeta.
  apply (bundle_toc_matches_dictionary Fixture.parseFile Fixture.createTypesDictionary
           Fixture.createToc Fixture.createOverview Fixture.valid Fixture.maxSatisfying
           Fixture.sources Fixture.read Fixture.markdown Fixture.package_json
           Fixture.submodule_cwd 1 (new_Bundler (inl "0.45.0")) Example.unbundled).
  apply run_outcome. vm_compute. reflexivity.
Defined.

(** The document of [bigtable/src/index.js]. *)
Lemma build_file_writes_document_witness :
  let doc := [("id", JStr "packages/bigtable/src/index.js"); ("path", JStr "index.json")] in
  build_file Fixture.parseFile Fixture.read Fixture.bigtable_0_4_1
    "bigtable/src/index.js" Fixture.recorded
  = (Return doc,
     set_files (<[dir Fixture.bigtable_0_4_1 ++ ["index.json"] := FJson (JObj doc)]>
                  (files Fixture.recorded)) Fixture.recorded).
Proof.
  cbv zeta.
  apply (build_file_writes_document Fixture.parseFile Fixture.read
           Fixture.bigtable_0_4_1 "bigtable" "index"
           [("id", JStr "packages/bigtable/src/index.js")] Fixture.recorded).
  - reflexivity.
  - reflexivity.
  - vm_compute. reflexivity.
Defined.

(** Building bigtable 0.4.1 leaves the docs of bigtable 0.4.0. *)
Lemma build_leaves_other_docs_witness :
  files (exec (Example.build 1 Fixture.bigtable_0_4_1) Fixture.recorded)
    !! (dir (new_Builder "bigtable" (Some "0.4.0") None) ++ ["index.json"])
  = files Fixture.recorded
      !! (dir (new_Builder "bigtable" (Some "0.4.0") None) ++ ["index.json"]).
Proof.
  apply (build_leaves_other_docs Fixture.parseFile Fixture.createTypesDictionary
           Fixture.createToc Fixture.createOverview Fixture.valid Fixture.maxSatisfying
           Fixture.sources Fixture.read Fixture.markdown Fixture.package_json
           Fixture.submodule_cwd 1 "bigtable" "bigtable" (Some "0.4.1") (Some "0.4.0")
           None Fixture.recorded).
  - discriminate.
  - reflexivity.
  - reflexivity.
  - reflexivity.
  - reflexivity.
  - right. discriminate.
  - now exists ["index.json"].
Defined.

(** With bigtable recorded at the default version only, no recorded version
    satisfies [^0.4.0], and the bundle builds bigtable from the default
    version. *)
Lemma bundle_builds_resolved_versions_witness :
  let w' := exec (Example.bundle 1 (new_Bundler (inl "0.45.0"))) Example2.unresolved in
  git_log w'
  = git_log Example2.unresolved
    ++ [Submodule "master" "bundler"; SubmoduleCheckout "master"; Deinit]
  /\ forall dep,
       dep ∈ [{| dep_name := "bigtable"; dep_version := "^0.4.0" |}] ->
       Fixture.maxSatisfying
         (valid_versions Fixture.valid
            (versions_of (dep_name dep) (manifest Example2.unresolved)))
         (dep_version dep) = None ->
       SubmoduleCheckout "master" ∈ git_log w'.
Proof.
  cbv zeta.
  apply (bundle_builds_resolved_versions Fixture.parseFile Fixture.createTypesDictionary
           Fixture.createToc Fixture.createOverview Fixture.valid Fixture.maxSatisfying
           Fixture.sources Fixture.read Fixture.markdown Fixture.package_json
           Fixture.submodule_cwd 1 (new_Bundler (inl "0.45.0")) Example2.unresolved
           (exec (Example.bundle 1 (new_Bundler (inl "0.45.0"))) Example2.unresolved)
           [("@google-cloud/bigtable", "^0.4.0"); ("extend", "^3.0.0")]).
  - vm_compute. reflexivity.
  - apply run_outcome. vm_compute. reflexivity.
Defined.

(** The docs of bigtable 0.4.1 built a second time. *)
Lemma build_twice_is_build_once_witness :
  Example.build 0 Fixture.bigtable_0_4_1
    (exec (Example.build 0 Fixture.bigtable_0_4_1) Fixture.recorded)
  = (outcome (Example.build 0 Fixture.bigtable_0_4_1) Fixture.recorded,
     exec (Example.build 0 Fixture.bigtable_0_4_1) Fixture.recorded).
Proof.
  apply (build_twice_is_build_once Fixture.parseFile Fixture.createTypesDictionary
           Fixture.createToc Fixture.createOverview Fixture.valid Fixture.maxSatisfying
           Fixture.sources Fixture.read Fixture.markdown Fixture.package_json
           Fixture.submodule_cwd 0 Fixture.bigtable_0_4_1 Fixture.recorded).
  reflexivity.
Defined.

(** The exported functions leave the sources alone. *)
Lemma exported_builds_write_docs_only_witness :
  let p := ["packages"; "bigtable"; "src"; "index.js"] in
  files (exec (Example2.build_package 1 "bigtable" (Some "0.4.1")) Fixture.recorded) !! p
  = files Fixture.recorded !! p
  /\ files (exec (Example2.buildAll 1) Fixture.recorded) !! p
     = files Fixture.recorded !! p.
Proof.
  cbv zeta.
  apply (exported_builds_write_docs_only Fixture.parseFile Fixture.createTypesDictionary
           Fixture.createToc Fixture.createOverview Fixture.valid Fixture.maxSatisfying
           Fixture.sources Fixture.read Fixture.markdown Fixture.package_json
           Fixture.submodule_cwd Fixture.packages 1 "bigtable" (Some "0.4.1")
           Fixture.recorded).
  - discriminate.
  - intros [k Hk]. discriminate Hk.
  - intros [k Hk]. discriminate Hk.
Defined.
